(** * Map3D: georeferenced 3D overlay — footprints, mesh manager, animations

    A shallow embedding of [src/components/Map3D.tsx] (the component that
    appears in [src/types/index.ts] after the type declarations):
    the footprint generators, the three.js layer manager with its
    per-mesh animation closures, the custom-layer render callback and the
    React handlers that mutate the GeoJSON sources.

    Numbers.  A JavaScript number is modelled by [num]: an exact rational,
    [+Infinity], [-Infinity] or [NaN].  Arithmetic follows IEEE-754 on the
    special values (division by zero, [Infinity - Infinity], comparisons
    with [NaN], truthiness of [0] and [NaN]); rounding and the sign of zero
    are not modelled.  Finite results are kept in lowest terms, so that
    equal values are syntactically equal.

    Host.  [Math.cos], [Math.sin], [Math.PI] and maplibre's
    [MercatorCoordinate.fromLngLat] are not part of the repository; they
    are fields of a [Host] record over which the model is parameterised. *)

From Stdlib Require Import QArith Qabs Qcanon Lqa.
From stdpp Require Import base option list strings gmap.

Local Open Scope Z_scope.

(** ** JavaScript numbers *)

Inductive num : Type :=
| Fin (q : Q)
| PInf
| NInf
| NaN.

Definition fin (q : Q) : num := Fin (Qred q).

Definition zq (z : Z) : Q := inject_Z z.
Definition nz (z : Z) : num := Fin (zq z).

(** Sign of a rational: [-1], [0] or [1]. *)
Definition Qsgn (q : Q) : Z := Z.sgn (Qnum q).

Definition Qis0 (q : Q) : bool := Z.eqb (Qnum q) 0.

Definition Qltb (x y : Q) : bool :=
  Z.ltb (Qnum x * Zpos (Qden y)) (Qnum y * Zpos (Qden x)).

Definition nneg (a : num) : num :=
  match a with
  | Fin q => fin (Qopp q)
  | PInf => NInf
  | NInf => PInf
  | NaN => NaN
  end.

Definition nadd (a b : num) : num :=
  match a, b with
  | NaN, _ | _, NaN => NaN
  | Fin x, Fin y => fin (Qplus x y)
  | PInf, NInf | NInf, PInf => NaN
  | PInf, _ | _, PInf => PInf
  | NInf, _ | _, NInf => NInf
  end.

Definition nsub (a b : num) : num := nadd a (nneg b).

(** An infinity of the sign [s] (with [s = 0] giving [NaN], as for
    [Infinity * 0]). *)
Definition inf_of_sign (s : Z) : num :=
  match s with
  | Z0 => NaN
  | Zpos _ => PInf
  | Zneg _ => NInf
  end.

Definition nsgn (a : num) : Z :=
  match a with
  | Fin q => Qsgn q
  | PInf => 1
  | NInf => -1
  | NaN => 0
  end.

Definition nmul (a b : num) : num :=
  match a, b with
  | NaN, _ | _, NaN => NaN
  | Fin x, Fin y => fin (Qmult x y)
  | _, _ => inf_of_sign (nsgn a * nsgn b)
  end.

(** [a / b].  A zero divisor is [+0]: [x / 0] is the infinity of the sign
    of [x], and [0 / 0] is [NaN]. *)
Definition ndiv (a b : num) : num :=
  match a, b with
  | NaN, _ | _, NaN => NaN
  | Fin x, Fin y =>
      if Qis0 y then inf_of_sign (Qsgn x) else fin (Qdiv x y)
  | Fin _, _ => Fin 0
  | _, Fin y => inf_of_sign (nsgn a * (if Qis0 y then 1 else Qsgn y))
  | _, _ => NaN
  end.

(** Truncation toward zero, used by [%]. *)
Definition Qtrunc (q : Q) : Z := Z.quot (Qnum q) (Zpos (Qden q)).

(** [a % b]: the remainder has the sign of the dividend. *)
Definition nrem (a b : num) : num :=
  match a, b with
  | Fin x, Fin y =>
      if Qis0 y then NaN
      else fin (Qminus x (Qmult y (zq (Qtrunc (Qdiv x y)))))
  | Fin x, (PInf | NInf) => Fin x
  | _, _ => NaN
  end.

(** [a < b]; every comparison with [NaN] is false. *)
Definition nlt (a b : num) : bool :=
  match a, b with
  | NaN, _ | _, NaN => false
  | Fin x, Fin y => Qltb x y
  | NInf, NInf | PInf, _ => false
  | NInf, _ => true
  | Fin _, PInf => true
  | Fin _, NInf => false
  end.

Definition ngt (a b : num) : bool := nlt b a.

(** [a === b] on numbers. *)
Definition nseq (a b : num) : bool :=
  match a, b with
  | Fin x, Fin y => Qeq_bool x y
  | PInf, PInf | NInf, NInf => true
  | _, _ => false
  end.

(** Truthiness: [0] and [NaN] are falsy. *)
Definition truthy (a : num) : bool :=
  match a with
  | Fin q => negb (Qis0 q)
  | PInf | NInf => true
  | NaN => false
  end.

(** [a || b] on numbers. *)
Definition nor (a b : num) : num := if truthy a then a else b.

Definition nabs (a : num) : num :=
  match a with
  | Fin q => fin (Qabs q)
  | PInf | NInf => PInf
  | NaN => NaN
  end.

(** [Math.min(a, b)]. *)
Definition nmin (a b : num) : num :=
  match a, b with
  | NaN, _ | _, NaN => NaN
  | _, _ => if nlt b a then b else a
  end.

(** [Math.pow(a, 3)]. *)
Definition ncube (a : num) : num := nmul (nmul a a) a.

(** [x ?? d] for an optional number. *)
Definition ndefault (x : option num) (d : num) : num := default d x.

(** ** Host functions *)

Inductive MeterProp : Type :=
| MeterUndefined
| MeterNumber (n : num)
| MeterOther.

Record MercatorCoordinate : Type := {
  mc_x : num;
  mc_y : num;
  meterInMercatorCoordinateUnits : MeterProp;
}.

Record Host : Type := {
  Math_PI : Q;
  Math_cos : Q -> Q;
  Math_sin : Q -> Q;
  fromLngLat : num -> num -> MercatorCoordinate;
}.

(** A host used to run the model on concrete inputs: [Math.PI] to six
    places, truncated Taylor polynomials for [Math.cos] and [Math.sin], and
    the spherical-mercator formulas with a fixed metre scale. *)
Definition demo_host : Host := {|
  Math_PI := (3141593 # 1000000)%Q;
  Math_cos := fun x => (1 - x * x / 2 + x * x * x * x / 24)%Q;
  Math_sin := fun x => (x - x * x * x / 6)%Q;
  fromLngLat := fun lng lat =>
    {| mc_x := ndiv (nadd (nz 180) lng) (nz 360);
       mc_y := ndiv (nsub (nz 180) lat) (nz 360);
       meterInMercatorCoordinateUnits := MeterNumber (Fin (1 # 25000000)%Q) |};
|}.

(** ** Positions, mesh references, matrices *)

(** A slot of a coordinate array: a [lng, lat] pair, or [undefined]
    (what [coords[0]] yields on an empty array). *)
Inductive Position : Type :=
| LngLat (lng lat : num)
| Undefined.

Abbreviation Ring := (list Position) (only parsing).

(** Mesh objects live in a heap and are referred to by their index: the
    manager's map, the scene and the animation closures all hold
    references to the same object. *)
Abbreviation MeshRef := nat (only parsing).

(** The sixteen entries of a [THREE.Matrix4]; an entry read past the end
    of the source array is [undefined] ([None]). *)
Abbreviation Matrix4 := (list (option num)) (only parsing).

Section Map3D.

Variable host : Host.

Definition PI : num := fin (Math_PI host).

Definition ncos (a : num) : num :=
  match a with
  | Fin q => fin (Math_cos host q)
  | _ => NaN
  end.

Definition nsin (a : num) : num :=
  match a with
  | Fin q => fin (Math_sin host q)
  | _ => NaN
  end.

(** ** Utils (meters <-> degrees helpers) *)

Definition metersToLatDegrees (meters : num) : num := ndiv meters (nz 111320).

Definition metersToLngDegrees (meters lat : num) : num :=
  ndiv meters (nmul (nz 111320) (ncos (ndiv (nmul lat PI) (nz 180)))).

Definition rectanglePolygonAround
    (lng lat widthMeters depthMeters rotationDeg : num) : Ring :=
  let hw := ndiv widthMeters (nz 2) in
  let hd := ndiv depthMeters (nz 2) in
  let local := [ (nneg hw, nneg hd); (hw, nneg hd); (hw, hd); (nneg hw, hd) ] in
  let angle := ndiv (nmul rotationDeg PI) (nz 180) in
  let cos := ncos angle in
  let sin := nsin angle in
  let coords :=
    map (fun '(dxMeters, dyMeters) =>
           let dLng := metersToLngDegrees dxMeters lat in
           let dLat := metersToLatDegrees dyMeters in
           let rx := nsub (nmul dLng cos) (nmul dLat sin) in
           let ry := nadd (nmul dLng sin) (nmul dLat cos) in
           LngLat (nadd lng rx) (nadd lat ry)) local in
  coords ++ [default Undefined (coords !! 0%nat)].

(** The position pushed by the body of the [for] loop of
    [circlePolygonAround] at index [i]. *)
Definition circle_point (lng lat radiusMeters : num) (segments : Z) (i : Z) :
    Position :=
  let angle := nmul (nmul (ndiv (nz i) (nz segments)) PI) (nz 2) in
  let dx := nmul (ncos angle) radiusMeters in
  let dy := nmul (nsin angle) radiusMeters in
  let dLng := metersToLngDegrees dx lat in
  let dLat := metersToLatDegrees dy in
  LngLat (nadd lng dLng) (nadd lat dLat).

(** The loop run for the [k] indices [i, i+1, ...].  The segment count is
    an integer, as at every call site; [for (i = 0; i < segments; i++)]
    then runs [Z.to_nat segments] times (not at all when
    [segments <= 0]). *)
Fixpoint circle_points (lng lat radiusMeters : num) (segments : Z)
    (i : Z) (k : nat) : list Position :=
  match k with
  | O => []
  | S k' =>
      circle_point lng lat radiusMeters segments i
        :: circle_points lng lat radiusMeters segments (i + 1) k'
  end.

Definition circlePolygonAround
    (lng lat radiusMeters : num) (segments : Z) : Ring :=
  let coords :=
    circle_points lng lat radiusMeters segments 0 (Z.to_nat segments) in
  coords ++ [default Undefined (coords !! 0%nat)].

(** [first[0] === last[0] && first[1] === last[1]]; reading a component
    of [undefined] throws ([None]). *)
Definition same_position (first last : Position) : option bool :=
  match first, last with
  | LngLat x0 y0, LngLat x1 y1 => Some (nseq x0 x1 && nseq y0 y1)
  | _, _ => None
  end.

Definition ensureClosedRing (coords : Ring) : option Ring :=
  match coords with
  | [] => Some coords
  | first :: _ =>
      match same_position first (List.last coords Undefined) with
      | None => None
      | Some true => Some coords
      | Some false =>
          match first with
          | LngLat x y => Some (coords ++ [LngLat x y])
          | Undefined => None
          end
      end
  end.

(** Sum of the components of the slots of [ring], from [(x, y)];
    [None] when a slot is [undefined] (reading [c[0]] throws). *)
Fixpoint sum_positions (ring : Ring) (x y : num) : option (num * num) :=
  match ring with
  | [] => Some (x, y)
  | LngLat cx cy :: rest => sum_positions rest (nadd x cx) (nadd y cy)
  | Undefined :: _ => None
  end.

Definition nlen {A} (l : list A) : num := nz (Z.of_nat (length l)).

(** [coords.slice(0, coords.length - 1)]. *)
Definition drop_last {A} (l : list A) : list A := take (length l - 1) l.

Definition polygonCentroidCoords (coords : Ring) : option (num * num) :=
  let ring := drop_last coords in
  match sum_positions ring (nz 0) (nz 0) with
  | None => None
  | Some (x, y) => Some (ndiv x (nlen ring), ndiv y (nlen ring))
  end.


(** ** Features and GeoJSON sources *)

(** The [properties] object of a feature; an absent key is [None]. *)
Record Properties : Type := {
  p_height : option num;
  p_base : option num;
  p_color : option string;
  p_id : option string;
  p_rotation : option num;
  p_content : option string;
  p_size : option num;
}.

Definition no_properties : Properties :=
  {| p_height := None; p_base := None; p_color := None; p_id := None;
     p_rotation := None; p_content := None; p_size := None |}.

Inductive Geometry : Type :=
| Polygon (coordinates : list Ring)
| Point (coordinates : Position).

Record Feature : Type := {
  geometry : Geometry;
  properties : option Properties;
}.

(** A feature collection document; [features] may be missing in an
    imported document. *)
Record FeatureCollection : Type := {
  features : option (list Feature);
}.

Definition empty_collection : FeatureCollection := {| features := Some [] |}.

(** [{ ...props, ...updates }]. *)
Definition merge_properties (props updates : Properties) : Properties :=
  {| p_height := from_option Some (p_height props) (p_height updates);
     p_base := from_option Some (p_base props) (p_base updates);
     p_color := from_option Some (p_color props) (p_color updates);
     p_id := from_option Some (p_id props) (p_id updates);
     p_rotation := from_option Some (p_rotation props) (p_rotation updates);
     p_content := from_option Some (p_content props) (p_content updates);
     p_size := from_option Some (p_size props) (p_size updates) |}.

Definition with_height (h : option num) (p : Properties) : Properties :=
  {| p_height := h; p_base := p_base p; p_color := p_color p; p_id := p_id p;
     p_rotation := p_rotation p; p_content := p_content p; p_size := p_size p |}.

Definition with_id (i : option string) (p : Properties) : Properties :=
  {| p_height := p_height p; p_base := p_base p; p_color := p_color p; p_id := i;
     p_rotation := p_rotation p; p_content := p_content p; p_size := p_size p |}.

Definition with_rotation (r : option num) (p : Properties) : Properties :=
  {| p_height := p_height p; p_base := p_base p; p_color := p_color p;
     p_id := p_id p; p_rotation := r; p_content := p_content p;
     p_size := p_size p |}.

(** [f.properties && f.properties.id === selectedId]. *)
Definition has_id (selected : string) (f : Feature) : bool :=
  match properties f with
  | Some p => bool_decide (p_id p = Some selected)
  | None => false
  end.

(** [features.findIndex(f => f.properties && f.properties.id === id)];
    [None] stands for [-1]. *)
Fixpoint findIndex (selected : string) (fs : list Feature) : option nat :=
  match fs with
  | [] => None
  | f :: rest =>
      if has_id selected f then Some 0%nat
      else S <$> findIndex selected rest
  end.

(** ** Meshes, animation closures and the layer manager *)

(** A [THREE.Mesh] as far as the component touches it: [userData], the
    extruded shape and its depth, the material and [scale.z]. *)
Record Mesh : Type := {
  userData_id : option string;
  userData_heightMeters : option num;
  shape_points : list (num * num);
  extrude_depth : num;
  material_color : string;
  emissiveIntensity : num;
  scale_z : num;
}.

Definition with_scale_z (z : num) (m : Mesh) : Mesh :=
  {| userData_id := userData_id m;
     userData_heightMeters := userData_heightMeters m;
     shape_points := shape_points m; extrude_depth := extrude_depth m;
     material_color := material_color m;
     emissiveIntensity := emissiveIntensity m; scale_z := z |}.

Definition with_userData (i : string) (h : num) (m : Mesh) : Mesh :=
  {| userData_id := Some i; userData_heightMeters := Some h;
     shape_points := shape_points m; extrude_depth := extrude_depth m;
     material_color := material_color m;
     emissiveIntensity := emissiveIntensity m; scale_z := scale_z m |}.

Definition with_heightMeters (h : num) (m : Mesh) : Mesh :=
  {| userData_id := userData_id m; userData_heightMeters := Some h;
     shape_points := shape_points m; extrude_depth := extrude_depth m;
     material_color := material_color m;
     emissiveIntensity := emissiveIntensity m; scale_z := scale_z m |}.

Definition with_emissiveIntensity (e : num) (m : Mesh) : Mesh :=
  {| userData_id := userData_id m;
     userData_heightMeters := userData_heightMeters m;
     shape_points := shape_points m; extrude_depth := extrude_depth m;
     material_color := material_color m;
     emissiveIntensity := e; scale_z := scale_z m |}.

Definition with_material_color (c : string) (m : Mesh) : Mesh :=
  {| userData_id := userData_id m;
     userData_heightMeters := userData_heightMeters m;
     shape_points := shape_points m; extrude_depth := extrude_depth m;
     material_color := c;
     emissiveIntensity := emissiveIntensity m; scale_z := scale_z m |}.


(** The two [anim] closures: the one of [addMeshForFeature] (rise) and
    the one of [updateHeight] (height), with the variables they capture. *)
Inductive AnimKind : Type := Rise | Height.

Record Anim : Type := {
  anim_kind : AnimKind;
  anim_mesh : MeshRef;
  anim_start : num;
  anim_dur : num;
  anim_from : num;
  anim_to : num;
}.

(** The closure passed to [setTimeout] by [appendBuildingFeature]. *)
Record Timeout : Type := {
  timeout_id : string;
  timeout_targetHeight : num;
  timeout_delay : num;
}.

(** [THREE.Matrix4.fromArray(array)]: the sixteen entries [array[0..15]]
    ([None] where the array is too short). *)
Definition fromArray (array : list num) : Matrix4 :=
  map (fun i => array !! i) (seq 0 16).

Definition identity_matrix : Matrix4 :=
  map (fun i => Some (if bool_decide (i `mod` 5 = 0)%nat then nz 1 else nz 0))
      (seq 0 16).

Record ThreeLayerManager : Type := {
  renderer : bool;
  scene : option (list MeshRef);
  camera : option Matrix4;
  clock : bool;
  meshes : gmap string MeshRef;
}.

(** ** The state of the page *)

Inductive PlacingType : Type := PlaceBuilding | PlaceTree.
Inductive Shape : Type := Rectangle | Circle | Custom.

Definition shape_name (s : Shape) : string :=
  match s with
  | Rectangle => "rectangle"
  | Circle => "circle"
  | Custom => "custom"
  end.

(** The [useState] cells of the component. *)
Record ReactState : Type := {
  isPlacingMode : bool;
  placingType : PlacingType;
  shape : Shape;
  buildingColor : string;
  buildingWidth : num;
  buildingDepth : num;
  buildingHeight : num;
  circleRadius : num;
  treeSize : num;
  error : option string;
  buildingsCount : nat;
  treesCount : nat;
  selectedId : option string;
}.

(** [map.current] with its two GeoJSON sources ([_data] of each, [None]
    when [getSource] finds nothing) and the number of repaints requested
    through [triggerRepaint]. *)
Record MapObject : Type := {
  user_buildings : option FeatureCollection;
  user_trees : option FeatureCollection;
  repaints : nat;
}.

(** [localStorage] under the two keys of the component. *)
Record Storage : Type := {
  USER_BUILDINGS_KEY : option FeatureCollection;
  USER_TREES_KEY : option FeatureCollection;
}.

(** The browser: [performance.now()], the callbacks queued by
    [requestAnimationFrame] and [setTimeout], and the ids that
    [cryptoRandomId] will return. *)
Record Window : Type := {
  performance_now : num;
  animationFrames : list Anim;
  timeouts : list Timeout;
  random_ids : nat -> string;
  random_drawn : nat;
}.

Record World : Type := {
  react : ReactState;
  map_current : option MapObject;
  localStorage : Storage;
  threeManagerRef : option ThreeLayerManager;
  heap : list Mesh;
  window : Window;
}.

Definition with_react (r : ReactState) (w : World) : World :=
  {| react := r; map_current := map_current w; localStorage := localStorage w;
     threeManagerRef := threeManagerRef w; heap := heap w; window := window w |}.

Definition with_map (m : option MapObject) (w : World) : World :=
  {| react := react w; map_current := m; localStorage := localStorage w;
     threeManagerRef := threeManagerRef w; heap := heap w; window := window w |}.

Definition with_storage (s : Storage) (w : World) : World :=
  {| react := react w; map_current := map_current w; localStorage := s;
     threeManagerRef := threeManagerRef w; heap := heap w; window := window w |}.

Definition with_manager (m : option ThreeLayerManager) (w : World) : World :=
  {| react := react w; map_current := map_current w;
     localStorage := localStorage w;
     threeManagerRef := m; heap := heap w; window := window w |}.

Definition with_heap (h : list Mesh) (w : World) : World :=
  {| react := react w; map_current := map_current w;
     localStorage := localStorage w;
     threeManagerRef := threeManagerRef w; heap := h; window := window w |}.

Definition with_window (b : Window) (w : World) : World :=
  {| react := react w; map_current := map_current w;
     localStorage := localStorage w;
     threeManagerRef := threeManagerRef w; heap := heap w; window := b |}.

Definition setError (e : option string) (w : World) : World :=
  let r := react w in
  with_react
    {| isPlacingMode := isPlacingMode r; placingType := placingType r;
       shape := shape r; buildingColor := buildingColor r;
       buildingWidth := buildingWidth r; buildingDepth := buildingDepth r;
       buildingHeight := buildingHeight r; circleRadius := circleRadius r;
       treeSize := treeSize r; error := e;
       buildingsCount := buildingsCount r; treesCount := treesCount r;
       selectedId := selectedId r |} w.

Definition setBuildingsCount (n : nat) (w : World) : World :=
  let r := react w in
  with_react
    {| isPlacingMode := isPlacingMode r; placingType := placingType r;
       shape := shape r; buildingColor := buildingColor r;
       buildingWidth := buildingWidth r; buildingDepth := buildingDepth r;
       buildingHeight := buildingHeight r; circleRadius := circleRadius r;
       treeSize := treeSize r; error := error r;
       buildingsCount := n; treesCount := treesCount r;
       selectedId := selectedId r |} w.

Definition setTreesCount (n : nat) (w : World) : World :=
  let r := react w in
  with_react
    {| isPlacingMode := isPlacingMode r; placingType := placingType r;
       shape := shape r; buildingColor := buildingColor r;
       buildingWidth := buildingWidth r; buildingDepth := buildingDepth r;
       buildingHeight := buildingHeight r; circleRadius := circleRadius r;
       treeSize := treeSize r; error := error r;
       buildingsCount := buildingsCount r; treesCount := n;
       selectedId := selectedId r |} w.

Definition setSelectedId (i : option string) (w : World) : World :=
  let r := react w in
  with_react
    {| isPlacingMode := isPlacingMode r; placingType := placingType r;
       shape := shape r; buildingColor := buildingColor r;
       buildingWidth := buildingWidth r; buildingDepth := buildingDepth r;
       buildingHeight := buildingHeight r; circleRadius := circleRadius r;
       treeSize := treeSize r; error := error r;
       buildingsCount := buildingsCount r; treesCount := treesCount r;
       selectedId := i |} w.

(** [src.setData(data)] on the source [user-buildings] / [user-trees]. *)
Definition setData_buildings (data : FeatureCollection) (w : World) : World :=
  match map_current w with
  | None => w
  | Some m =>
      with_map (Some {| user_buildings := Some data;
                        user_trees := user_trees m;
                        repaints := repaints m |}) w
  end.

Definition setData_trees (data : FeatureCollection) (w : World) : World :=
  match map_current w with
  | None => w
  | Some m =>
      with_map (Some {| user_buildings := user_buildings m;
                        user_trees := Some data;
                        repaints := repaints m |}) w
  end.

(** [map.triggerRepaint()]. *)
Definition triggerRepaint (w : World) : World :=
  match map_current w with
  | None => w
  | Some m =>
      with_map (Some {| user_buildings := user_buildings m;
                        user_trees := user_trees m;
                        repaints := S (repaints m) |}) w
  end.

(** [saveToStorage(key, data)]. *)
Definition saveToStorage_buildings (data : FeatureCollection) (w : World) : World :=
  with_storage {| USER_BUILDINGS_KEY := Some data;
                  USER_TREES_KEY := USER_TREES_KEY (localStorage w) |} w.

Definition saveToStorage_trees (data : FeatureCollection) (w : World) : World :=
  with_storage {| USER_BUILDINGS_KEY := USER_BUILDINGS_KEY (localStorage w);
                  USER_TREES_KEY := Some data |} w.

(** [requestAnimationFrame(anim)] and [setTimeout(fn, delay)]. *)
Definition requestAnimationFrame (a : Anim) (w : World) : World :=
  let b := window w in
  with_window
    {| performance_now := performance_now b;
       animationFrames := animationFrames b ++ [a];
       timeouts := timeouts b; random_ids := random_ids b;
       random_drawn := random_drawn b |} w.

Definition setTimeout (t : Timeout) (w : World) : World :=
  let b := window w in
  with_window
    {| performance_now := performance_now b;
       animationFrames := animationFrames b;
       timeouts := timeouts b ++ [t]; random_ids := random_ids b;
       random_drawn := random_drawn b |} w.

(** ** Handlers: a state monad with exceptions

    A handler runs on the world and either completes with a value or
    throws; what it wrote before throwing stays written. *)

Inductive Completion (A : Type) : Type :=
| Normal (a : A)
| Thrown.
Arguments Normal {A} a.
Arguments Thrown {A}.

Definition M (A : Type) : Type := World -> Completion A * World.

#[export] Instance M_ret : MRet M := fun A a w => (Normal a, w).

#[export] Instance M_bind : MBind M := fun A B f m w =>
  match m w with
  | (Normal a, w') => f a w'
  | (Thrown, w') => (Thrown, w')
  end.

Definition throw {A} : M A := fun w => (Thrown, w).

(** [try { body } catch { handler }]. *)
Definition try_catch {A} (body handler : M A) : M A := fun w =>
  match body w with
  | (Normal a, w') => (Normal a, w')
  | (Thrown, w') => handler w'
  end.

Definition modify (f : World -> World) : M unit := fun w => (Normal tt, f w).

Definition gets {A} (f : World -> A) : M A := fun w => (Normal (f w), w).

(** The world a handler leaves behind. *)
Definition exec {A} (m : M A) (w : World) : World := snd (m w).

(** Whether it completed without throwing. *)
Definition completes {A} (m : M A) (w : World) : bool :=
  match fst (m w) with
  | Normal _ => true
  | Thrown => false
  end.

Definition cryptoRandomId : M string := fun w =>
  let b := window w in
  (Normal (random_ids b (random_drawn b)),
   with_window
     {| performance_now := performance_now b;
        animationFrames := animationFrames b;
        timeouts := timeouts b; random_ids := random_ids b;
        random_drawn := S (random_drawn b) |} w).

(** ** Three layer manager *)

(** The manager the methods close over.  They are only ever called
    through [threeManagerRef.current], so the reference is set. *)
Definition the_manager : M ThreeLayerManager := fun w =>
  match threeManagerRef w with
  | Some m => (Normal m, w)
  | None => (Thrown, w)
  end.

Definition put_manager (m : ThreeLayerManager) : M unit :=
  modify (with_manager (Some m)).

(** [manager.scene?.remove(old)] / [manager.scene?.add(mesh)] on the
    children of the scene. *)
Definition scene_remove (old : MeshRef) (sc : option (list MeshRef)) :
    option (list MeshRef) :=
  filter (fun r => r <> old) <$> sc.

Definition scene_add (mesh : MeshRef) (sc : option (list MeshRef)) :
    option (list MeshRef) :=
  (fun children => filter (fun r => r <> mesh) children ++ [mesh]) <$> sc.

(** The planar coordinates of the ring, [{ x: mc.x, y: -mc.y }] for each
    position; destructuring an [undefined] slot throws. *)
Fixpoint mercCoords (polygonCoords : Ring) : option (list (num * num)) :=
  match polygonCoords with
  | [] => Some []
  | LngLat lng lat :: rest =>
      let mc := fromLngLat host lng lat in
      match mercCoords rest with
      | Some ps => Some ((mc_x mc, nneg (mc_y mc)) :: ps)
      | None => None
      end
  | Undefined :: _ => None
  end.

(** [heightMeters / (mcCenter.meterInMercatorCoordinateUnits ?? 1)]. *)
Definition height_in_merc (heightMeters : num) (p : MeterProp) : num :=
  match p with
  | MeterUndefined => ndiv heightMeters (nz 1)
  | MeterNumber meterToMerc => ndiv heightMeters meterToMerc
  | MeterOther => NaN
  end.

(** The [depth] given to the extrusion. *)
Definition extrusion_depth (polygonCoords : Ring) (heightMeters : num) :
    option num :=
  match polygonCentroidCoords polygonCoords with
  | None => None
  | Some (cx, cy) =>
      let mcCenter := fromLngLat host cx cy in
      let depth :=
        nor (height_in_merc heightMeters
               (meterInMercatorCoordinateUnits mcCenter)) heightMeters in
      Some (nor depth (nz 1))
  end.

(** [buildMeshFromPolygon]; [None] when it throws ([polygonCoords] is
    [undefined], or one of its slots is). *)
Definition buildMeshFromPolygon (polygonCoords : option Ring)
    (heightMeters : num) (colorHex : string) : option Mesh :=
  match polygonCoords with
  | None => None
  | Some coords =>
      match mercCoords coords, extrusion_depth coords heightMeters with
      | Some shape, Some depth =>
          Some {| userData_id := None; userData_heightMeters := None;
                  shape_points := shape; extrude_depth := depth;
                  material_color := colorHex;
                  emissiveIntensity := Fin (1 # 5);
                  scale_z := nz 1 |}
      | _, _ => None
      end
  end.

(** [feature.geometry.coordinates[0]] read as a ring. *)
Definition first_ring (g : Geometry) : option Ring :=
  match g with
  | Polygon (coords :: _) => Some coords
  | _ => None
  end.

(** Writing a field of a mesh object. *)
Definition write_mesh (r : MeshRef) (f : Mesh -> Mesh) (w : World) : World :=
  with_heap (alter f r (heap w)) w.

(** What a closure writes once [t] has reached 1: the rise closure
    writes the literal [1], the height closure its [to]. *)
Definition anim_final (a : Anim) : num :=
  match anim_kind a with
  | Rise => nz 1
  | Height => anim_to a
  end.

(** The progress [t] of a closure at time [now], and the eased value it
    writes to [mesh.scale.z]. *)
Definition anim_t (a : Anim) (now : num) : num :=
  nmin (nz 1) (ndiv (nsub now (anim_start a)) (anim_dur a)).

Definition easeOutCubic (t : num) : num :=
  nsub (nz 1) (ncube (nsub (nz 1) t)).

(** One invocation [anim(now)] of an animation closure. *)
Definition anim (a : Anim) (now : num) (w : World) : World :=
  let t := anim_t a now in
  let eased := easeOutCubic t in
  let w1 :=
    write_mesh (anim_mesh a)
      (with_scale_z
         (nadd (anim_from a) (nmul (nsub (anim_to a) (anim_from a)) eased))) w in
  if nlt t (nz 1) then requestAnimationFrame a w1
  else
    write_mesh (anim_mesh a) (with_scale_z (anim_final a)) w1.

(** [manager.addMeshForFeature(feature, map)]: a mesh registered under the
    same id is taken out first; the new mesh is built, registered, put
    into the scene and set to rise from scale 0.001 to 1 in 700 ms.
    Throws, after the removal, when the mesh cannot be built. *)
Definition addMeshForFeature (feature : Feature) : M unit :=
  id ← match properties feature ≫= p_id with
       | Some i => mret i
       | None => cryptoRandomId
       end;
  manager ← the_manager;
  (* if exists, remove first (replace) *)
  match meshes manager !! id with
  | Some old =>
      put_manager {| renderer := renderer manager;
                     scene := scene_remove old (scene manager);
                     camera := camera manager; clock := clock manager;
                     meshes := delete id (meshes manager) |}
  | None => mret tt
  end;;
  let coords := first_ring (geometry feature) in
  let color := default "#c44e3b" (properties feature ≫= p_color) in
  let height := ndefault (properties feature ≫= p_height) (nz 10) in
  match buildMeshFromPolygon coords height color with
  | None => throw
  | Some built =>
      mesh ← gets (fun w => length (heap w));
      modify (fun w => with_heap (heap w ++ [with_userData id height built]) w);;
      manager ← the_manager;
      put_manager {| renderer := renderer manager;
                     scene := scene_add mesh (scene manager);
                     camera := camera manager; clock := clock manager;
                     meshes := <[id := mesh]> (meshes manager) |};;
      (* animate rise *)
      modify (write_mesh mesh (with_scale_z (Fin (1 # 1000))));;
      start ← gets (fun w => performance_now (window w));
      modify (requestAnimationFrame
                {| anim_kind := Rise; anim_mesh := mesh; anim_start := start;
                   anim_dur := nz 700; anim_from := Fin (1 # 1000);
                   anim_to := nz 1 |})
  end.

(** [manager.removeById(id)]: nothing happens without a registered mesh
    or without a scene. *)
Definition removeById (id : string) (w : World) : World :=
  match threeManagerRef w with
  | None => w
  | Some manager =>
      match meshes manager !! id, scene manager with
      | Some m, Some sc =>
          with_manager
            (Some {| renderer := renderer manager;
                     scene := scene_remove m (Some sc);
                     camera := camera manager; clock := clock manager;
                     meshes := delete id (meshes manager) |}) w
      | _, _ => w
      end
  end.

(** [manager.updateHeight(id, heightMeters, map)]: the z-scale of the mesh
    is animated, in 500 ms, from its current value to the ratio of the new
    height to the height recorded in [userData]. *)
Definition updateHeight (id : string) (heightMeters : num) (w : World) : World :=
  match threeManagerRef w with
  | None => w
  | Some manager =>
      match meshes manager !! id ≫= fun r => (fun m => (r, m)) <$> heap w !! r with
      | None => w
      | Some (r, mesh) =>
          let old := ndefault (userData_heightMeters mesh) heightMeters in
          let newH := heightMeters in
          let w1 := write_mesh r (with_heightMeters newH) w in
          (* animate scale.z *)
          let start := performance_now (window w1) in
          let from := scale_z mesh in
          let to := ndiv newH (nor (nor old newH) (nz 1)) in
          requestAnimationFrame
            {| anim_kind := Height; anim_mesh := r; anim_start := start;
               anim_dur := nz 500; anim_from := from; anim_to := to |} w1
      end
  end.

(** [manager.dispose()]: the meshes leave the scene and the map, and
    renderer, scene and camera are dropped. *)
Definition dispose (w : World) : World :=
  match threeManagerRef w with
  | None => w
  | Some manager =>
      with_manager
        (Some {| renderer := false; scene := None; camera := None;
                 clock := clock manager; meshes := ∅ |}) w
  end.

(** [id.split("").reduce((s, ch) => (s + ch.charCodeAt(0)) % 1000, 0)]. *)
Definition id_hash (id : string) : Z :=
  foldl (fun s ch => (s + Z.of_nat (Ascii.nat_of_ascii ch)) `rem` 1000) 0
        (String.list_ascii_of_string id).

(** The blinking of one mesh at clock time [t]. *)
Definition blink (t : num) (m : Mesh) : Mesh :=
  let id := default "" (userData_id m) in
  let hash := id_hash id in
  let phase :=
    nrem (nadd (nmul t (Fin (4 # 5))) (nmul (nz (hash `rem` 10)) (Fin (3 # 25))))
         (nmul PI (nz 2)) in
  with_emissiveIntensity
    (nadd (Fin (2 # 25)) (nmul (Fin (2 # 5)) (nabs (nsin phase)))) m.

(** [customLayer.render(gl, matrix)], with [t] the value read from
    [manager.clock.getElapsedTime()]. *)
Definition render (matrix : list num) (t : num) (w : World) : World :=
  match threeManagerRef w with
  | None => w
  | Some manager =>
      match scene manager, camera manager with
      | Some sc, Some _ =>
          if renderer manager && clock manager then
            (* update camera projection from MapLibre matrix *)
            let w1 :=
              with_manager
                (Some {| renderer := renderer manager; scene := Some sc;
                         camera := Some (fromArray matrix);
                         clock := clock manager;
                         meshes := meshes manager |}) w in
            (* small per-mesh animation *)
            let w2 :=
              with_heap
                (foldr (fun '(_, r) h => alter (blink t) r h) (heap w1)
                       (map_to_list (meshes manager))) w1 in
            (* request MapLibre to repaint next frame *)
            triggerRepaint w2
          else w
      | _, _ => w
      end
  end.

(** [customLayer.onAdd]: renderer, scene (holding only the lights), camera
    and clock are created. *)
Definition onAdd (w : World) : World :=
  match threeManagerRef w with
  | None => w
  | Some manager =>
      with_manager
        (Some {| renderer := true; scene := Some [];
                 camera := Some identity_matrix; clock := true;
                 meshes := meshes manager |}) w
  end.

(** [createThreeLayerManager(map)] stored into [threeManagerRef.current].
    [layer_added] tells whether [map.addLayer(customLayer)] went through
    (it then calls [onAdd]) or threw. *)
Definition createThreeLayerManager (layer_added : bool) (w : World) : World :=
  let w1 :=
    with_manager
      (Some {| renderer := false; scene := None; camera := None;
               clock := false; meshes := ∅ |}) w in
  if layer_added then onAdd w1 else w1.

(** ** Browser events *)

(** An animation frame at time [now]: the callbacks queued so far run in
    order; those they queue wait for the next frame. *)
Definition animationFrame (now : num) (w : World) : World :=
  let b := window w in
  let queued := animationFrames b in
  let w0 :=
    with_window
      {| performance_now := performance_now b; animationFrames := [];
         timeouts := timeouts b; random_ids := random_ids b;
         random_drawn := random_drawn b |} w in
  foldl (fun w a => anim a now w) w0 queued.

(** Time passing: [performance.now()] reads [now] afterwards. *)
Definition tick_clock (now : num) (w : World) : World :=
  let b := window w in
  with_window
    {| performance_now := now; animationFrames := animationFrames b;
       timeouts := timeouts b; random_ids := random_ids b;
       random_drawn := random_drawn b |} w.

(** ** React component *)

(** [!selectedId]: [null] and the empty string are falsy. *)
Definition selected (w : World) : option string :=
  match selectedId (react w) with
  | Some "" => None
  | o => o
  end.

Definition set_height_at (idx : nat) (h : num) (fs : list Feature) :
    list Feature :=
  alter (fun f => {| geometry := geometry f;
                     properties := with_height (Some h) <$> properties f |})
        idx fs.

(** The callback that [appendBuildingFeature] hands to [setTimeout]:
    the mesh is scaled to the target height and the stored feature gets
    its height back. *)
Definition height_timeout (t : Timeout) : M unit :=
  let id := timeout_id t in
  modify (updateHeight id (timeout_targetHeight t));;
  (* also update persisted feature height to target *)
  try_catch
    (w ← gets (fun w => w);
     match map_current w ≫= user_buildings with
     | None => throw
     | Some cur =>
         match features cur with
         | None => throw
         | Some fs =>
             match findIndex id fs with
             | None => mret tt
             | Some idx =>
                 let cur' :=
                   {| features :=
                        Some (set_height_at idx (timeout_targetHeight t) fs) |} in
                 modify (setData_buildings cur');;
                 modify (saveToStorage_buildings cur')
             end
         end
     end)
    (mret tt).

(** The oldest pending timeout fires. *)
Definition fire_timeout : M unit := fun w =>
  let b := window w in
  match timeouts b with
  | [] => (Normal tt, w)
  | t :: rest =>
      height_timeout t
        (with_window
           {| performance_now := performance_now b;
              animationFrames := animationFrames b;
              timeouts := rest; random_ids := random_ids b;
              random_drawn := random_drawn b |} w)
  end.

(** Append building: update GeoJSON source + three mesh. *)
Definition appendBuildingFeature (feat : Feature) (animateHeight : bool) :
    M unit :=
  w ← gets (fun w => w);
  match map_current w with
  | None => mret tt
  | Some m =>
      match user_buildings m with
      | None => mret tt
      | Some current =>
          (* ensure id *)
          let props := default no_properties (properties feat) in
          id ← match p_id props with
               | Some i => mret i
               | None => cryptoRandomId
               end;
          let props := with_id (Some id) props in
          (* when animateHeight true, temporarily set height to 0 *)
          buildingHeight ← gets (fun w => buildingHeight (react w));
          let targetHeight := ndefault (p_height props) buildingHeight in
          let props :=
            if animateHeight then with_height (Some (nz 0)) props else props in
          let feat := {| geometry := geometry feat; properties := Some props |} in
          let newData :=
            {| features := Some (default [] (features current) ++ [feat]) |} in
          modify (setData_buildings newData);;
          modify (saveToStorage_buildings newData);;
          modify (setBuildingsCount (length (default [] (features newData))));;
          (* add three mesh if manager exists *)
          manager ← gets threeManagerRef;
          match manager with
          | None => mret tt
          | Some _ =>
              addMeshForFeature feat;;
              if animateHeight then
                modify (setTimeout {| timeout_id := id;
                                      timeout_targetHeight := targetHeight;
                                      timeout_delay := nz 450 |})
              else mret tt
          end
      end
  end.

(** Append tree (simple). *)
Definition appendTreeFeature (feat : Feature) : M unit :=
  w ← gets (fun w => w);
  match map_current w with
  | None => mret tt
  | Some m =>
      match user_trees m with
      | None => mret tt
      | Some current =>
          let props := default no_properties (properties feat) in
          id ← match p_id props with
               | Some i => mret i
               | None => cryptoRandomId
               end;
          let feat :=
            {| geometry := geometry feat;
               properties := Some (with_id (Some id) props) |} in
          let newData :=
            {| features := Some (default [] (features current) ++ [feat]) |} in
          modify (setData_trees newData);;
          modify (saveToStorage_trees newData);;
          modify (setTreesCount (length (default [] (features newData))))
      end
  end.

(** The tree half of [deleteSelected]. *)
Definition deleteSelected_tree (id : string) (m : MapObject) (w : World) :
    World :=
  match user_trees m ≫= features with
  | None => w
  | Some fs =>
      match findIndex id fs with
      | None => w
      | Some idx =>
          let cur := {| features := Some (delete idx fs) |} in
          setSelectedId None
            (setTreesCount (length (delete idx fs))
               (saveToStorage_trees cur (setData_trees cur w)))
      end
  end.

(** delete selected *)
Definition deleteSelected (w : World) : World :=
  match map_current w, selected w with
  | Some m, Some id =>
      match user_buildings m ≫= features with
      | Some fs =>
          match findIndex id fs with
          | Some idx =>
              (* remove from three too *)
              let w1 := removeById id w in
              let cur := {| features := Some (delete idx fs) |} in
              setSelectedId None
                (setBuildingsCount (length (delete idx fs))
                   (saveToStorage_buildings cur (setData_buildings cur w1)))
          | None => deleteSelected_tree id m w
          end
      | None => deleteSelected_tree id m w
      end
  | _, _ => w
  end.

(** The button "Clear Buildings": every mesh of the manager's map is
    removed by id. *)
Definition clearBuildings (w : World) : World :=
  match map_current w with
  | None => w
  | Some m =>
      match user_buildings m with
      | None => w
      | Some _ =>
          let w1 :=
            setBuildingsCount 0
              (saveToStorage_buildings empty_collection
                 (setData_buildings empty_collection w)) in
          match threeManagerRef w1 with
          | None => w1
          | Some manager =>
              foldr (fun '(id, _) w => removeById id w) w1
                    (map_to_list (meshes manager))
          end
      end
  end.

Definition clearTrees (w : World) : World :=
  match map_current w with
  | None => w
  | Some m =>
      match user_trees m with
      | None => w
      | Some _ =>
          setTreesCount 0
            (saveToStorage_trees empty_collection
               (setData_trees empty_collection w))
      end
  end.

(** [features.forEach(f => { try { addMeshForFeature(f) } catch {} })]. *)
Fixpoint addMeshes (fs : list Feature) : M unit :=
  match fs with
  | [] => mret tt
  | f :: rest =>
      try_catch (addMeshForFeature f) (mret tt);;
      addMeshes rest
  end.

Inductive SourceId : Type := UserBuildings | UserTrees.

(** [importGeoJSON] together with the [onload] callback of its reader;
    [parsed] is the result of [JSON.parse] on the file, [None] when it
    throws. *)
Definition importGeoJSON (parsed : option FeatureCollection)
    (sourceId : SourceId) : M unit :=
  w ← gets (fun w => w);
  match map_current w with
  | None => mret tt
  | Some m =>
      try_catch
        (match parsed with
         | None => throw
         | Some parsed =>
             match match sourceId with
                   | UserBuildings => user_buildings m
                   | UserTrees => user_trees m
                   end with
             | None => throw (* source not found *)
             | Some _ =>
                 let n := length (default [] (features parsed)) in
                 match sourceId with
                 | UserBuildings =>
                     modify (setData_buildings parsed);;
                     modify (saveToStorage_buildings parsed);;
                     modify (setBuildingsCount n)
                 | UserTrees =>
                     modify (setData_trees parsed);;
                     modify (saveToStorage_trees parsed);;
                     modify (setTreesCount n)
                 end;;
                 modify (setError None);;
                 (* add three meshes for buildings *)
                 manager ← gets threeManagerRef;
                 match sourceId, manager with
                 | UserBuildings, Some _ =>
                     addMeshes (default [] (features parsed))
                 | _, _ => mret tt
                 end
             end
         end)
        (modify (setError (Some "Invalid GeoJSON")))
  end.

(** ** Rotation and property updates *)

Definition polygonCentroid (coords : Ring) : option (num * num) :=
  let pts := drop_last coords in
  match sum_positions pts (nz 0) (nz 0) with
  | None => None
  | Some (x, y) => Some (ndiv x (nlen pts), ndiv y (nlen pts))
  end.

Record BBox : Type := {
  minLng : num;
  minLat : num;
  maxLng : num;
  maxLat : num;
}.

(** The [forEach] of [polygonBBox] from the bounds [b]; reading a
    component of an [undefined] slot throws. *)
Fixpoint bbox_from (coords : Ring) (b : BBox) : option BBox :=
  match coords with
  | [] => Some b
  | LngLat c0 c1 :: rest =>
      bbox_from rest
        {| minLng := if nlt c0 (minLng b) then c0 else minLng b;
           maxLng := if ngt c0 (maxLng b) then c0 else maxLng b;
           minLat := if nlt c1 (minLat b) then c1 else minLat b;
           maxLat := if ngt c1 (maxLat b) then c1 else maxLat b |}
  | Undefined :: _ => None
  end.

Definition polygonBBox (coords : Ring) : option BBox :=
  bbox_from coords
    {| minLng := PInf; minLat := PInf; maxLng := NInf; maxLat := NInf |}.

(** The footprint and rotation that [rotateSelectedBuilding] computes
    for a feature with ring [poly] and stored rotation [rotation], with
    the width and depth of the page's inputs as fall-backs. *)
Definition rotated_footprint (poly : Ring) (rotation : option num)
    (deltaDeg buildingWidth buildingDepth : num) : option (Ring * num) :=
  match polygonCentroid poly with
  | None => None
  | Some (centroid0, centroid1) =>
      let oldRotation := ndefault rotation (nz 0) in
      let newRotation := nrem (nadd oldRotation deltaDeg) (nz 360) in
      (* compute bbox to estimate width/depth *)
      match polygonBBox poly with
      | None => None
      | Some bbox =>
          let widthMeters :=
            nabs (nmul (nsub (maxLng bbox) (minLng bbox))
                       (nmul (nz 111320)
                             (ncos (ndiv (nmul centroid1 PI) (nz 180))))) in
          let depthMeters :=
            nabs (nmul (nsub (maxLat bbox) (minLat bbox)) (nz 111320)) in
          let newPoly :=
            rectanglePolygonAround centroid0 centroid1
              (nor widthMeters buildingWidth) (nor depthMeters buildingDepth)
              newRotation in
          Some (newPoly, newRotation)
      end
  end.

(** rotate selected building *)
Definition rotateSelectedBuilding (deltaDeg : num) : M unit :=
  w ← gets (fun w => w);
  match map_current w, selected w with
  | Some m, Some selectedId =>
      match user_buildings m with
      | None => mret tt
      | Some cur =>
          match features cur with
          | None => throw
          | Some fs =>
              match findIndex selectedId fs ≫= fun idx => (fun f => (idx, f)) <$> fs !! idx with
              | None => mret tt
              | Some (idx, feat) =>
                  match first_ring (geometry feat) with
                  | None => throw
                  | Some poly =>
                      match rotated_footprint poly
                              (properties feat ≫= p_rotation) deltaDeg
                              (buildingWidth (react w))
                              (buildingDepth (react w)) with
                      | None => throw
                      | Some (newPoly, newRotation) =>
                          let feat' :=
                            {| geometry := Polygon [newPoly];
                               properties :=
                                 with_rotation (Some newRotation)
                                   <$> properties feat |} in
                          let cur' := {| features := Some (<[idx := feat']> fs) |} in
                          modify (setData_buildings cur');;
                          modify (saveToStorage_buildings cur');;
                          (* update three mesh by removing and re-adding *)
                          manager ← gets threeManagerRef;
                          match manager with
                          | None => mret tt
                          | Some _ =>
                              modify (removeById selectedId);;
                              try_catch (addMeshForFeature feat') (mret tt)
                          end
                      end
                  end
              end
          end
      end
  | _, _ => mret tt
  end.

Definition set_properties_at (idx : nat) (updates : Properties)
    (fs : list Feature) : list Feature :=
  alter (fun f =>
           {| geometry := geometry f;
              properties :=
                Some (merge_properties
                        (default no_properties (properties f)) updates) |})
        idx fs.

(** update selected building props (height/color/content) *)
Definition updateSelectedBuildingProps (updates : Properties) : M unit :=
  w ← gets (fun w => w);
  match map_current w, selected w with
  | Some m, Some selectedId =>
      match user_buildings m with
      | None => mret tt
      | Some cur =>
          match features cur with
          | None => throw
          | Some fs =>
              match findIndex selectedId fs with
              | None => mret tt
              | Some idx =>
                  let cur' :=
                    {| features := Some (set_properties_at idx updates fs) |} in
                  modify (setData_buildings cur');;
                  modify (saveToStorage_buildings cur');;
                  match p_height updates with
                  | Some targetH =>
                      (* update three *)
                      modify (updateHeight selectedId targetH)
                  | None =>
                      (* if color changed, update material *)
                      w ← gets (fun w => w);
                      match threeManagerRef w ≫= fun mgr => meshes mgr !! selectedId,
                            p_color updates with
                      | Some mesh, Some c =>
                          if bool_decide (c = "") then mret tt
                          else modify (write_mesh mesh (with_material_color c))
                      | _, _ => mret tt
                      end
                  end
              end
          end
      end
  | _, _ => mret tt
  end.

(** The button "Add at center"; [(lng, lat)] is what [map.getCenter()]
    returns. *)
Definition addAtCenter (lng lat : num) : M unit :=
  w ← gets (fun w => w);
  match map_current w with
  | None => modify (setError (Some "Map not ready"))
  | Some _ =>
      let r := react w in
      match placingType r with
      | PlaceBuilding =>
          let coords :=
            match shape r with
            | Rectangle =>
                rectanglePolygonAround lng lat (buildingWidth r)
                  (buildingDepth r) (nz 0)
            | _ => circlePolygonAround lng lat (circleRadius r) 32
            end in
          id ← cryptoRandomId;
          let feat :=
            {| geometry := Polygon [coords];
               properties :=
                 Some {| p_height := Some (buildingHeight r);
                         p_base := Some (nz 0);
                         p_color := Some (buildingColor r);
                         p_id := Some id;
                         p_rotation := Some (nz 0);
                         p_content := Some (shape_name (shape r));
                         p_size := None |} |} in
          appendBuildingFeature feat true
      | PlaceTree =>
          id ← cryptoRandomId;
          let t :=
            {| geometry := Point (LngLat lng lat);
               properties :=
                 Some {| p_height := None; p_base := None; p_color := None;
                         p_id := Some id; p_rotation := None;
                         p_content := None; p_size := Some (treeSize r) |} |} in
          appendTreeFeature t
      end
  end.

(** The map's [load] handler: the two sources are filled from storage,
    the manager is created and a mesh is added for every stored building. *)
Definition onLoad (layer_added : bool) : M unit :=
  w ← gets (fun w => w);
  match map_current w with
  | None => mret tt
  | Some m =>
      let savedBuildings := USER_BUILDINGS_KEY (localStorage w) in
      let savedTrees := USER_TREES_KEY (localStorage w) in
      let curData := default empty_collection savedBuildings in
      modify (with_map
                (Some {| user_buildings := Some curData;
                         user_trees := Some (default empty_collection savedTrees);
                         repaints := repaints m |}));;
      modify (createThreeLayerManager layer_added);;
      addMeshes (default [] (features curData));;
      modify (setBuildingsCount
                (length (default [] (savedBuildings ≫= features))));;
      modify (setTreesCount (length (default [] (savedTrees ≫= features))))
  end.

(** The page before the map has loaded: the initial [useState] values, a
    map without sources, nothing in storage, no manager. *)
Definition initial_world (ids : nat -> string) : World :=
  {| react :=
       {| isPlacingMode := false; placingType := PlaceBuilding;
          shape := Rectangle; buildingColor := "#c44e3b";
          buildingWidth := nz 12; buildingDepth := nz 12;
          buildingHeight := nz 12; circleRadius := nz 8; treeSize := nz 6;
          error := None; buildingsCount := 0; treesCount := 0;
          selectedId := None |};
     map_current :=
       Some {| user_buildings := None; user_trees := None; repaints := 0 |};
     localStorage := {| USER_BUILDINGS_KEY := None; USER_TREES_KEY := None |};
     threeManagerRef := None;
     heap := [];
     window :=
       {| performance_now := nz 0; animationFrames := []; timeouts := [];
          random_ids := ids; random_drawn := 0 |} |}.

End Map3D.

Arguments Normal {A} a.
Arguments Thrown {A}.

(** ** A concrete page: ids, centre, buildings, the loaded map *)

Definition ids (n : nat) : string :=
  String (Ascii.ascii_of_nat (110 + n)) "".

Definition london : num * num := (Fin (-319 # 2500), Fin (32192 # 625)).

(** A stored building [id] of the given height on a 12 m square around
    the default centre. *)
Definition building (id : string) (height : num) : Feature :=
  {| geometry :=
       Polygon [rectanglePolygonAround demo_host (fst london) (snd london)
                  (nz 12) (nz 12) (nz 0)];
     properties :=
       Some {| p_height := Some height; p_base := Some (nz 0);
               p_color := Some "#c44e3b"; p_id := Some id;
               p_rotation := Some (nz 0); p_content := Some "rectangle";
               p_size := None |} |}.

(** The page once the map has loaded with the buildings [fs] in storage. *)
Definition loaded_page (fs : list Feature) : World :=
  exec (onLoad demo_host true)
    (with_storage {| USER_BUILDINGS_KEY := Some {| features := Some fs |};
                     USER_TREES_KEY := None |}
       (initial_world ids)).

(** ** Observations on the world, and the pages of the scenarios *)

(** The children of the scene, none when there is no scene. *)
Definition scene_children (w : World) : list MeshRef :=
  default [] (threeManagerRef w ≫= scene).

(** The mesh registered for [id]. *)
Definition mesh_of (id : string) (w : World) : option MeshRef :=
  threeManagerRef w ≫= (fun manager => meshes manager !! id).

(** The animation closures still queued on the mesh object [r]. *)
Definition in_flight (r : MeshRef) (w : World) : list Anim :=
  filter (fun a => anim_mesh a = r) (animationFrames (window w)).

(** The page of scenario D: building [a] of height 10 has risen, is
    selected, and its height is being animated to 30 (the update was made
    at time 1000; the frame at 1100 has run). *)
Definition page_with_height_animation : World :=
  animationFrame (nz 1100)
    (exec (updateSelectedBuildingProps
             (with_height (Some (nz 30)) no_properties))
       (tick_clock (nz 1000)
          (setSelectedId (Some "a")
             (animationFrame (nz 700) (loaded_page [building "a" (nz 10)]))))).

(** The task that [updateHeight id h] queues on the mesh object [r] whose
    state is [mesh], at clock time [start]. *)
Definition height_task (r : MeshRef) (mesh : Mesh) (h start : num) : Anim :=
  {| anim_kind := Height; anim_mesh := r; anim_start := start;
     anim_dur := nz 500; anim_from := scale_z mesh;
     anim_to :=
       ndiv h (nor (nor (ndefault (userData_heightMeters mesh) h) h) (nz 1)) |}.

(** The page where building [a] has risen and two height updates, to 30
    and then to 60, were made before the next animation frame. *)
Definition page_with_two_height_updates : World :=
  updateHeight "a" (nz 60)
    (updateHeight "a" (nz 30)
       (tick_clock (nz 1000)
          (animationFrame (nz 700) (loaded_page [building "a" (nz 10)])))).

(** A frame matrix: a scaling by 2. *)
Definition frame_matrix : list num :=
  map (fun i => if bool_decide (i `mod` 5 = 0)%nat then nz 2 else nz 0)
      (seq 0 16).

(** The features of the source [user-buildings]. *)
Definition stored_buildings (w : World) : list Feature :=
  default [] ((map_current w ≫= user_buildings) ≫= features).

Definition stored_height (f : Feature) : option num :=
  properties f ≫= p_height.

Definition stored_ring (f : Feature) : list Position :=
  default [] (first_ring (geometry f)).

(** Scenario A: on the loaded, empty page with the initial inputs (width
    12, depth 12, height 12, rectangle), "Add at center" with the map
    centred on (-0.1276, 51.5072). *)
Definition page_after_placing : World :=
  exec (addAtCenter demo_host (fst london) (snd london)) (loaded_page []).

(** What the handlers of the three layer leave alone: the map with its
    sources, the storage and the React state. *)
Definition same_store (w w' : World) : Prop :=
  map_current w' = map_current w
  /\ localStorage w' = localStorage w
  /\ react w' = react w.

Definition stored_id (f : Feature) : option string := properties f ≫= p_id.

(** A building whose ring is three distinct positions, not closed. *)
Definition open_ring_building : Feature :=
  {| geometry :=
       Polygon [[LngLat (nz 0) (nz 0); LngLat (nz 1) (nz 0);
                 LngLat (nz 1) (nz 1)]];
     properties := properties (building "b" (nz 10)) |}.

Definition defined (p : Position) : Prop := p <> Undefined.

(** [b] bounds the position [p]: no coordinate of [p] lies below the
    minimum or above the maximum. *)
Definition bounds (b : BBox) (p : Position) : Prop :=
  match p with
  | LngLat x y =>
      nlt x (minLng b) = false /\ nlt (maxLng b) x = false
      /\ nlt y (minLat b) = false /\ nlt (maxLat b) y = false
  | Undefined => True
  end.

(** The width and depth in metres that [rotateSelectedBuilding] reads off
    a bounding box, at the latitude [lat] of the centroid. *)
Definition bbox_width (host : Host) (bbox : BBox) (lat : num) : num :=
  nabs (nmul (nsub (maxLng bbox) (minLng bbox))
             (nmul (nz 111320)
                   (ncos host (ndiv (nmul lat (PI host)) (nz 180))))).

Definition bbox_depth (bbox : BBox) : num :=
  nabs (nmul (nsub (maxLat bbox) (minLat bbox)) (nz 111320)).

(** A round building: the 32-segment circle of radius 8 m that the page
    places for the shape "circle". *)
Definition round_building (id : string) : Feature :=
  {| geometry :=
       Polygon [circlePolygonAround demo_host (fst london) (snd london)
                  (nz 8) 32];
     properties :=
       Some {| p_height := Some (nz 12); p_base := Some (nz 0);
               p_color := Some "#c44e3b"; p_id := Some id;
               p_rotation := Some (nz 0); p_content := Some "circle";
               p_size := None |} |}.

Definition page_with_round_building : World :=
  setSelectedId (Some "c") (loaded_page [round_building "c"]).

Definition stored_rotation (f : Feature) : option num :=
  properties f ≫= p_rotation.

(** The page with one building [a], rotation 0, selected. *)
Definition page_with_selected_building : World :=
  setSelectedId (Some "a") (loaded_page [building "a" (nz 10)]).

Definition rotate (deltaDeg : Z) (w : World) : World :=
  exec (rotateSelectedBuilding demo_host (nz deltaDeg)) w.

(** The height a mesh shows: the depth baked into its geometry times its
    z-scale (in mercator units, like the depth). *)
Definition effectiveHeight (m : Mesh) : num :=
  nmul (extrude_depth m) (scale_z m).

(** [updateProperties(id, { height })] on the selected building at clock
    time [now], followed by an animation frame 500 ms later, when the
    height animation has run its full duration. *)
Definition update_height_and_finish (height now : Z) (w : World) : World :=
  animationFrame (nz (now + 500))
    (exec (updateSelectedBuildingProps
             (with_height (Some (nz height)) no_properties))
       (tick_clock (nz now) w)).

(** The page with building [a] of height 10, risen and selected. *)
Definition page_with_risen_building : World :=
  animationFrame (nz 700) page_with_selected_building.

(** The feature [f] carries an id, and it is not [id]. *)
Definition has_other_id (id : string) (f : Feature) : Prop :=
  exists id', properties f ≫= p_id = Some id' /\ id' <> id.

(** A position with two finite coordinates. *)
Definition finite_position (p : Position) : Prop :=
  match p with
  | LngLat (Fin _) (Fin _) => True
  | _ => False
  end.

(** The ring is closed as [ensureClosedRing] tests it: its first and last
    positions have [===] coordinates (an empty ring counts as closed). *)
Definition closed_ring (ring : list Position) : Prop :=
  match ring with
  | [] => True
  | first :: _ => same_position first (List.last ring Undefined) = Some true
  end.

(** The cosine that [metersToLngDegrees] divides by at the latitude
    [lat]: [Math.cos((lat * Math.PI) / 180)]. *)
Definition lat_cos (host : Host) (lat : num) : num :=
  ncos host (ndiv (nmul lat (PI host)) (nz 180)).

(** The scene [sc] holds exactly the meshes registered in [ms], each
    once, no mesh is registered under two ids, and all of them are
    objects of a heap of [n] meshes. *)
Definition scene_matches (sc : list nat) (ms : gmap string nat) (n : nat) :
    Prop :=
  NoDup sc
  /\ (forall r, r ∈ sc <-> exists id, ms !! id = Some r)
  /\ (forall id id' r, ms !! id = Some r -> ms !! id' = Some r -> id = id')
  /\ (forall r, r ∈ sc -> (r < n)%nat).

(** The scene of the manager holds exactly its registered meshes. *)
Definition consistent (w : World) : Prop :=
  exists manager sc,
    threeManagerRef w = Some manager
    /\ scene manager = Some sc
    /\ scene_matches sc (meshes manager) (length (heap w)).

(** The id under which [addMeshForFeature] registers the mesh of
    [feat]: its own, or else the next random id. *)
Definition feature_id (feat : Feature) (w : World) : string :=
  default (random_ids (window w) (random_drawn (window w)))
          (properties feat ≫= p_id).

(** The world once that id has been determined. *)
Definition with_feature_id (feat : Feature) (w : World) : World :=
  match properties feat ≫= p_id with
  | Some _ => w
  | None => exec cryptoRandomId w
  end.

(** The first step of [addMeshForFeature]: a mesh registered under [id]
    leaves the scene and the map. *)
Definition unregister (id : string) (w : World) : World :=
  match threeManagerRef w with
  | Some manager =>
      match meshes manager !! id with
      | Some old =>
          with_manager
            (Some {| renderer := renderer manager;
                     scene := scene_remove old (scene manager);
                     camera := camera manager; clock := clock manager;
                     meshes := delete id (meshes manager) |}) w
      | None => w
      end
  | None => w
  end.

(** Its last steps: the mesh object [mesh] is allocated, registered under
    [id], put into the scene, scaled to 0.001 and set to rise. *)
Definition register (id : string) (mesh : Mesh) (w : World) : World :=
  match threeManagerRef w with
  | Some manager =>
      let r := length (heap w) in
      requestAnimationFrame
        {| anim_kind := Rise; anim_mesh := r;
           anim_start := performance_now (window w);
           anim_dur := nz 700; anim_from := Fin (1 # 1000); anim_to := nz 1 |}
        (write_mesh r (with_scale_z (Fin (1 # 1000)))
           (with_manager
              (Some {| renderer := renderer manager;
                       scene := scene_add r (scene manager);
                       camera := camera manager; clock := clock manager;
                       meshes := <[id := r]> (meshes manager) |})
              (with_heap (heap w ++ [mesh]) w)))
  | None => w
  end.

(** The mesh that [addMeshForFeature] builds for [feat], if it can. *)
Definition built_mesh (host : Host) (feat : Feature) (id : string) :
    option Mesh :=
  let height := ndefault (properties feat ≫= p_height) (nz 10) in
  with_userData id height
    <$> buildMeshFromPolygon host (first_ring (geometry feat)) height
          (default "#c44e3b" (properties feat ≫= p_color)).

(** A building whose geometry has no ring at all. *)
Definition ringless_building (id : string) : Feature :=
  {| geometry := Polygon []; properties := properties (building id (nz 10)) |}.

(** The page right after the manager was created: a scene without
    meshes. *)
Definition fresh_page : World :=
  createThreeLayerManager true (initial_world ids).

(** The computation [m] keeps the scene consistent. *)
Definition keeps {A} (m : M A) : Prop :=
  forall w, consistent w -> consistent (exec m w).

(** ** Further observations *)

(** The features of the source [user-trees]. *)
Definition stored_trees (w : World) : list Feature :=
  default [] ((map_current w ≫= user_trees) ≫= features).

(** What the three layer consists of: the manager, the mesh objects and
    the queued animation closures. *)
Definition same_layer (w w' : World) : Prop :=
  threeManagerRef w' = threeManagerRef w
  /\ heap w' = heap w
  /\ animationFrames (window w') = animationFrames (window w).

(** What belongs to the buildings: their source, their storage key and
    their count. *)
Definition same_buildings (w w' : World) : Prop :=
  (map_current w' ≫= user_buildings) = (map_current w ≫= user_buildings)
  /\ USER_BUILDINGS_KEY (localStorage w') = USER_BUILDINGS_KEY (localStorage w)
  /\ buildingsCount (react w') = buildingsCount (react w).

(** cleanup on unmount: the manager is disposed of and the map is
    removed. *)
Definition unmount (w : World) : World := with_map None (dispose w).

(** A feature that [addMeshForFeature] can build: it has a ring, and
    every slot of the ring is a position. *)
Definition buildable (f : Feature) : Prop :=
  exists ring, first_ring (geometry f) = Some ring /\ Forall defined ring.

(** The number [a] is finite, of value [q]. *)
Definition is_fin (a : num) (q : Q) : Prop :=
  exists q', a = Fin q' /\ (q' == q)%Q.

(** The progress of a closure as a rational: [(now - start) / dur],
    capped at 1. *)
Definition progress_at (start dur now : Q) : Q :=
  if Qlt_le_dec ((now - start) / dur) 1 then (now - start) / dur else 1.

(** The cubic ease-out on rationals. *)
Definition eased (t : Q) : Q := 1 - (1 - t) * (1 - t) * (1 - t).

(** The z-scale that the closure [a] leaves on its mesh when it is
    invoked at [now]. *)
Definition anim_value (a : Anim) (now : num) : num :=
  if nlt (anim_t a now) (nz 1) then
    nadd (anim_from a)
         (nmul (nsub (anim_to a) (anim_from a)) (easeOutCubic (anim_t a now)))
  else anim_final a.

(** The feature that [appendBuildingFeature] stores for [feat]: it
    carries the id, and the height 0 when the height is to be animated. *)
Definition placed_feature (feat : Feature) (id : string)
    (animateHeight : bool) : Feature :=
  let props := with_id (Some id) (default no_properties (properties feat)) in
  {| geometry := geometry feat;
     properties :=
       Some (if animateHeight then with_height (Some (nz 0)) props else props) |}.

(** The world in which [appendBuildingFeature] calls the manager: the
    source, the storage and the count have the new feature. *)
Definition with_placed_feature (feat' : Feature) (cur : FeatureCollection)
    (w : World) : World :=
  let newData := {| features := Some (default [] (features cur) ++ [feat']) |} in
  setBuildingsCount (length (default [] (features cur) ++ [feat']))
    (saveToStorage_buildings newData (setData_buildings newData w)).

(** helper: get selected building props; [Normal None] stands for
    [null], and reading [cur.features.find] of a document without
    [features] throws. *)
Definition getSelectedBuildingProps (w : World) :
    Completion (option Properties) :=
  match map_current w, selected w with
  | Some m, Some selectedId =>
      match user_buildings m with
      | None => Normal None
      | Some cur =>
          match features cur with
          | None => Thrown
          | Some fs => Normal (List.find (has_id selectedId) fs ≫= properties)
          end
      end
  | _, _ => Normal None
  end.

(** [setPlacingType(p)]. *)
Definition setPlacingType (p : PlacingType) (w : World) : World :=
  let r := react w in
  with_react
    {| isPlacingMode := isPlacingMode r; placingType := p;
       shape := shape r; buildingColor := buildingColor r;
       buildingWidth := buildingWidth r; buildingDepth := buildingDepth r;
       buildingHeight := buildingHeight r; circleRadius := circleRadius r;
       treeSize := treeSize r; error := error r;
       buildingsCount := buildingsCount r; treesCount := treesCount r;
       selectedId := selectedId r |} w.

(** A tree [id] of size 6 at the default centre. *)
Definition tree_feature (id : string) : Feature :=
  {| geometry := Point (LngLat (fst london) (snd london));
     properties :=
       Some {| p_height := None; p_base := None; p_color := None;
               p_id := Some id; p_rotation := None; p_content := None;
               p_size := Some (nz 6) |} |}.

(** The page with building [a] and the tree [t], the tree selected. *)
Definition page_with_selected_tree : World :=
  setSelectedId (Some "t")
    (exec (appendTreeFeature (tree_feature "t"))
       (loaded_page [building "a" (nz 10)])).

(** The rise closure of the first mesh of a page, started at time 0. *)
Definition first_rise : Anim :=
  {| anim_kind := Rise; anim_mesh := 0%nat; anim_start := nz 0;
     anim_dur := nz 700; anim_from := Fin (1 # 1000); anim_to := nz 1 |}.

(** The document [cur] of a source is the one in storage (the empty
    collection when storage has none), and [count] is its number of
    features. *)
Definition mirrors (cur : option FeatureCollection)
    (stored : option FeatureCollection) (count : nat) : Prop :=
  forall c, cur = Some c ->
    c = default empty_collection stored
    /\ count = length (default [] (features c)).

(** Storage and the counts are in step with the two sources of the map:
    what a reload would read is what the sources hold now. *)
Definition in_step (w : World) : Prop :=
  forall m, map_current w = Some m ->
    mirrors (user_buildings m) (USER_BUILDINGS_KEY (localStorage w))
            (buildingsCount (react w))
    /\ mirrors (user_trees m) (USER_TREES_KEY (localStorage w))
               (treesCount (react w)).

(** From a state where [P] holds the computation [m] ends, whether it
    completes or throws, in a state that is in step. *)
Definition lands_in_step {A} (P : World -> Prop) (m : M A) : Prop :=
  forall w, P w -> in_step (exec m w).

(** The metre scale read at the centre can be divided by: the property
    is missing, is not a number at all, or is a finite number other
    than 0. *)
Definition regular_meter (p : MeterProp) : Prop :=
  match p with
  | MeterUndefined | MeterOther => True
  | MeterNumber (Fin m) => ~ (m == 0)%Q
  | MeterNumber _ => False
  end.

(** * Properties *)

(** ** Animation closures and the manager's bookkeeping *)

Lemma anim_with_manager a now m w :
  anim a now (with_manager m w) = with_manager m (anim a now w).
Proof.
  unfold anim, write_mesh, requestAnimationFrame; simpl.
  destruct (nlt (anim_t a now) (nz 1)); reflexivity.
Qed.

Lemma anim_threeManagerRef a now w :
  threeManagerRef (anim a now w) = threeManagerRef w.
Proof.
  unfold anim, write_mesh, requestAnimationFrame; simpl.
  destruct (nlt (anim_t a now) (nz 1)); reflexivity.
Qed.

Lemma run_queue_with_manager now m queued : forall w,
  foldl (fun w a => anim a now w) (with_manager m w) queued
  = with_manager m (foldl (fun w a => anim a now w) w queued).
Proof.
  induction queued as [|a queued IH]; intros w; simpl; [reflexivity|].
  rewrite anim_with_manager. apply IH.
Qed.

Lemma run_queue_threeManagerRef now queued : forall w,
  threeManagerRef (foldl (fun w a => anim a now w) w queued)
  = threeManagerRef w.
Proof.
  induction queued as [|a queued IH]; intros w; simpl; [reflexivity|].
  rewrite IH. apply anim_threeManagerRef.
Qed.

Lemma animationFrame_with_manager now m w :
  animationFrame now (with_manager m w) = with_manager m (animationFrame now w).
Proof.
  unfold animationFrame; simpl.
  rewrite <- run_queue_with_manager. reflexivity.
Qed.

Lemma animationFrame_threeManagerRef now w :
  threeManagerRef (animationFrame now w) = threeManagerRef w.
Proof. unfold animationFrame. rewrite run_queue_threeManagerRef. reflexivity. Qed.

(** C1 (as amended): [removeById] on a registered mesh, with the scene
    present, takes the mesh out of the scene and out of the id-to-mesh map
    at once, but cancels nothing: the mesh object and the queue of
    animation closures are left as they were, and the next animation frame
    does to the removed mesh exactly what it would have done without the
    removal. *)
Theorem removeById_detaches_without_cancelling
    (w : World) (id : string) (manager : ThreeLayerManager)
    (m : MeshRef) (sc : list MeshRef) (now : num) :
  threeManagerRef w = Some manager ->
  meshes manager !! id = Some m ->
  scene manager = Some sc ->
  mesh_of id (removeById id w) = None
  /\ (m ∉ scene_children (removeById id w))
  /\ heap (removeById id w) = heap w
  /\ in_flight m (removeById id w) = in_flight m w
  /\ animationFrame now (removeById id w) = removeById id (animationFrame now w).
Proof.
  intros Hm Hid Hsc.
  assert (Hrm : forall w', threeManagerRef w' = Some manager ->
            removeById id w'
            = with_manager
                (Some {| renderer := renderer manager;
                         scene := scene_remove m (Some sc);
                         camera := camera manager; clock := clock manager;
                         meshes := delete id (meshes manager) |}) w').
  { intros w' Hw'. unfold removeById. rewrite Hw', Hid, Hsc. reflexivity. }
  rewrite (Hrm w Hm).
  rewrite (Hrm (animationFrame now w))
    by (rewrite animationFrame_threeManagerRef; exact Hm).
  repeat split.
  - unfold mesh_of; simpl. apply lookup_delete_eq.
  - unfold scene_children; simpl. rewrite list_elem_of_filter. tauto.
  - apply animationFrame_with_manager.
Qed.

(** C1 (counterexample): deleting the selected building while its height
    animation is in flight leaves the closure queued; the frame after the
    deletion writes the removed mesh (its z-scale goes on to 3, the target
    of the animation) and the closure then leaves the queue by completing. *)
Lemma deleteSelected_leaves_animation_running :
  let w := page_with_height_animation in
  let w' := deleteSelected w in
  mesh_of "a" w = Some 0%nat
  /\ length (in_flight 0%nat w) = 1%nat
  /\ mesh_of "a" w' = None
  /\ length (in_flight 0%nat w') = 1%nat
  /\ scale_z <$> heap w' !! 0%nat = Some (Fin (247 # 125))
  /\ scale_z <$> heap (animationFrame (nz 1200) w') !! 0%nat = Some (Fin (321 # 125))
  /\ scale_z <$> heap (animationFrame (nz 1500) w') !! 0%nat = Some (nz 3)
  /\ in_flight 0%nat (animationFrame (nz 1500) w') = [].
Proof. vm_compute. repeat split; reflexivity. Qed.

(** C1 (witness): the page of scenario D, where mesh 0 is registered for
    building [a] and present in the scene. *)
Lemma removeById_detaches_without_cancelling_witness :
  mesh_of "a" (removeById "a" page_with_height_animation) = None
  /\ (0%nat ∉ scene_children (removeById "a" page_with_height_animation))
  /\ heap (removeById "a" page_with_height_animation)
     = heap page_with_height_animation
  /\ in_flight 0%nat (removeById "a" page_with_height_animation)
     = in_flight 0%nat page_with_height_animation
  /\ animationFrame (nz 1200) (removeById "a" page_with_height_animation)
     = removeById "a" (animationFrame (nz 1200) page_with_height_animation).
Proof.
  destruct (threeManagerRef page_with_height_animation) as [manager|] eqn:Hm;
    [|vm_compute in Hm; discriminate].
  apply (removeById_detaches_without_cancelling
           page_with_height_animation "a" manager 0%nat [0%nat] (nz 1200) Hm).
  - injection Hm as <-. vm_compute. reflexivity.
  - injection Hm as <-. vm_compute. reflexivity.
Defined.

(** ** The animation step and the start of a height animation *)

Lemma with_scale_z_twice z z' m :
  with_scale_z z (with_scale_z z' m) = with_scale_z z m.
Proof. reflexivity. Qed.

(** C7 (as amended): a closure invoked at [now] uses
    [t = min(1, (now - start) / dur)] and the cubic ease-out
    [1 - (1 - t)^3]; while [t < 1] it writes the interpolated z-scale and
    queues itself again, otherwise it writes its final value (its [to];
    the literal 1 for the rise closure) and is not queued again.
    [updateHeight] starts a height closure whose [from] is the z-scale the
    mesh has at that moment; it is appended to the queue, and the closures
    already queued, also those on the same mesh, stay queued. *)
Theorem anim_step_and_height_start
    (a : Anim) (now : num) (w : World) (mesh : Mesh)
    (id : string) (h : num) (w0 : World) (manager : ThreeLayerManager)
    (r : MeshRef) (mesh0 : Mesh) :
  heap w !! anim_mesh a = Some mesh ->
  threeManagerRef w0 = Some manager ->
  meshes manager !! id = Some r ->
  heap w0 !! r = Some mesh0 ->
  anim_t a now = nmin (nz 1) (ndiv (nsub now (anim_start a)) (anim_dur a))
  /\ (forall t, easeOutCubic t = nsub (nz 1) (ncube (nsub (nz 1) t)))
  /\ heap (anim a now w) !! anim_mesh a
     = Some (with_scale_z
               (if nlt (anim_t a now) (nz 1)
                then nadd (anim_from a)
                       (nmul (nsub (anim_to a) (anim_from a))
                             (easeOutCubic (anim_t a now)))
                else anim_final a) mesh)
  /\ animationFrames (window (anim a now w))
     = animationFrames (window w)
       ++ (if nlt (anim_t a now) (nz 1) then [a] else [])
  /\ animationFrames (window (updateHeight id h w0))
     = animationFrames (window w0)
       ++ [height_task r mesh0 h (performance_now (window w0))]
  /\ anim_from (height_task r mesh0 h (performance_now (window w0)))
     = scale_z mesh0.
Proof.
  intros Hmesh Hm Hid Hr.
  split; [reflexivity|]. split; [reflexivity|].
  split; [|split; [|split; [|reflexivity]]].
  - unfold anim, write_mesh, requestAnimationFrame.
    destruct (nlt (anim_t a now) (nz 1));
      cbn [heap with_heap with_window window].
    + rewrite list_lookup_alter_eq, Hmesh. reflexivity.
    + rewrite !list_lookup_alter_eq, Hmesh. reflexivity.
  - unfold anim, write_mesh, requestAnimationFrame.
    destruct (nlt (anim_t a now) (nz 1));
      cbn [heap with_heap with_window window animationFrames].
    + reflexivity.
    + rewrite app_nil_r. reflexivity.
  - unfold updateHeight. rewrite Hm, Hid.
    cbn [mbind option_bind]. rewrite Hr. reflexivity.
Qed.

(** C7 (counterexample): starting a second height animation for the same
    building does not overwrite the first: both closures are queued on
    mesh 0, and both are still queued after the next frame. *)
Lemma updateHeight_keeps_earlier_task :
  map anim_kind (in_flight 0%nat page_with_two_height_updates)
    = [Height; Height]
  /\ map anim_to (in_flight 0%nat page_with_two_height_updates)
    = [nz 3; nz 2]
  /\ map anim_kind
       (in_flight 0%nat (animationFrame (nz 1100) page_with_two_height_updates))
    = [Height; Height].
Proof. vm_compute. repeat split; reflexivity. Qed.

(** C7 (witness): the rise closure of building [a] at time 100, and a
    height update to 30 on the risen mesh. *)
Lemma anim_step_and_height_start_witness :
  let w := loaded_page [building "a" (nz 10)] in
  let w0 := animationFrame (nz 700) w in
  scale_z <$> heap (anim
    {| anim_kind := Rise; anim_mesh := 0%nat; anim_start := nz 0;
       anim_dur := nz 700; anim_from := Fin (1 # 1000); anim_to := nz 1 |}
    (nz 100) w) !! 0%nat = Some (Fin (15902 # 42875))
  /\ length (animationFrames (window (updateHeight "a" (nz 30) w0))) = 1%nat.
Proof.
  intros w w0.
  destruct (threeManagerRef w0) as [manager|] eqn:Hm;
    [|vm_compute in Hm; discriminate].
  destruct (heap w !! 0%nat) as [mesh|] eqn:Hmesh;
    [|vm_compute in Hmesh; discriminate].
  destruct (heap w0 !! 0%nat) as [mesh0|] eqn:Hmesh0;
    [|vm_compute in Hmesh0; discriminate].
  destruct (anim_step_and_height_start
    {| anim_kind := Rise; anim_mesh := 0%nat; anim_start := nz 0;
       anim_dur := nz 700; anim_from := Fin (1 # 1000); anim_to := nz 1 |}
    (nz 100) w mesh "a" (nz 30) w0 manager 0%nat mesh0 Hmesh Hm)
    as (_ & _ & Hstep & _ & Hqueue & _).
  - injection Hm as <-. vm_compute. reflexivity.
  - exact Hmesh0.
  - split.
    + cbn [anim_mesh] in Hstep. rewrite Hstep. vm_compute. reflexivity.
    + rewrite Hqueue. vm_compute. reflexivity.
Defined.

(** ** The render callback *)

Lemma fromArray_16 (matrix : list num) :
  length matrix = 16%nat -> fromArray matrix = Some <$> matrix.
Proof.
  intros Hlen.
  do 17 (destruct matrix as [|? matrix]; try discriminate Hlen).
  reflexivity.
Qed.

(** Without a renderer, scene, camera or clock the callback returns at
    once. *)
Lemma render_not_ready host matrix t w manager :
  threeManagerRef w = Some manager ->
  renderer manager && bool_decide (is_Some (scene manager))
    && bool_decide (is_Some (camera manager)) && clock manager = false ->
  render host matrix t w = w.
Proof.
  intros Hm Hnot. unfold render. rewrite Hm.
  destruct (scene manager), (camera manager), (renderer manager),
    (clock manager); try reflexivity; discriminate Hnot.
Qed.

(** C8: when the layer is set up (renderer, scene, camera and clock
    exist), a render callback with the matrix [matrix] leaves the camera
    with exactly the projection read from [matrix], whatever projection it
    had before; it asks the map for one more repaint, and it queues no
    animation frame or timeout of its own. *)
Theorem render_takes_frame_matrix_and_requests_repaint
    (host : Host) (w : World) (manager : ThreeLayerManager)
    (sc : list nat) (cam : list (option num)) (m : MapObject)
    (matrix : list num) (t : num) :
  threeManagerRef w = Some manager ->
  renderer manager = true ->
  scene manager = Some sc ->
  camera manager = Some cam ->
  clock manager = true ->
  map_current w = Some m ->
  length matrix = 16%nat ->
  threeManagerRef (render host matrix t w) ≫= camera = Some (Some <$> matrix)
  /\ repaints <$> map_current (render host matrix t w) = Some (S (repaints m))
  /\ window (render host matrix t w) = window w.
Proof.
  intros Hm Hr Hsc Hcam Hck Hmap Hlen.
  unfold render. rewrite Hm, Hsc, Hcam, Hr, Hck.
  cbn [andb]. rewrite (fromArray_16 matrix Hlen).
  unfold triggerRepaint.
  cbn [map_current with_heap with_manager]. rewrite Hmap.
  repeat split.
Qed.

(** C8 (witness): the loaded page with building [a], rendered with
    [frame_matrix] at clock time 3. *)
Lemma render_takes_frame_matrix_and_requests_repaint_witness :
  let w := loaded_page [building "a" (nz 10)] in
  threeManagerRef (render demo_host frame_matrix (nz 3) w) ≫= camera
    = Some (Some <$> frame_matrix)
  /\ repaints <$> map_current (render demo_host frame_matrix (nz 3) w)
    = Some 1%nat
  /\ window (render demo_host frame_matrix (nz 3) w) = window w.
Proof.
  intros w.
  destruct (threeManagerRef w) as [manager|] eqn:Hm;
    [|vm_compute in Hm; discriminate].
  destruct (map_current w) as [m|] eqn:Hmap;
    [|vm_compute in Hmap; discriminate].
  assert (Hrep : repaints m = 0%nat)
    by (injection Hmap as <-; vm_compute; reflexivity).
  rewrite <- Hrep.
  apply (render_takes_frame_matrix_and_requests_repaint
           demo_host w manager [0%nat] identity_matrix m frame_matrix (nz 3) Hm);
    try exact Hmap; try (injection Hm as <-; vm_compute; reflexivity).
Defined.

(** ** Footprint generators *)

Lemma circle_points_length host lng lat r segments k : forall i,
  length (circle_points host lng lat r segments i k) = k.
Proof.
  induction k as [|k IH]; intros i; simpl; [reflexivity|].
  rewrite IH. reflexivity.
Qed.

(** C5 (as amended): for a segment count below 3 the circle generator
    rejects nothing and returns a ring: the single slot [undefined] for a
    count of 0 or less, the same point twice for 1, and three slots (two
    points and the first one again) for 2. *)
Theorem circlePolygonAround_small_segment_count
    (host : Host) (lng lat radiusMeters : num) (segments : Z) :
  segments < 3 ->
  circlePolygonAround host lng lat radiusMeters segments
  = match Z.to_nat segments with
    | O => [Undefined]
    | S O => [circle_point host lng lat radiusMeters segments 0;
              circle_point host lng lat radiusMeters segments 0]
    | _ => [circle_point host lng lat radiusMeters segments 0;
            circle_point host lng lat radiusMeters segments 1;
            circle_point host lng lat radiusMeters segments 0]
    end.
Proof.
  intros Hlt. unfold circlePolygonAround.
  destruct (Z.to_nat segments) as [|[|[|n]]] eqn:Hn; try reflexivity.
  lia.
Qed.

(** C5 (counterexample): with 2 segments the generator returns three
    positions, the last one equal to the first; with 0 segments it returns
    one [undefined] slot.  Neither call fails. *)
Lemma circlePolygonAround_two_segments_returns_ring :
  (exists x0 y0 x1 y1,
      circlePolygonAround demo_host (fst london) (snd london) (nz 8) 2
      = [LngLat x0 y0; LngLat x1 y1; LngLat x0 y0])
  /\ circlePolygonAround demo_host (fst london) (snd london) (nz 8) 0
     = [Undefined].
Proof.
  split; [|reflexivity].
  do 4 eexists. vm_compute. reflexivity.
Qed.

(** C5 (witness): two segments around the default centre. *)
Lemma circlePolygonAround_small_segment_count_witness :
  circlePolygonAround demo_host (fst london) (snd london) (nz 8) 2
  = [circle_point demo_host (fst london) (snd london) (nz 8) 2 0;
     circle_point demo_host (fst london) (snd london) (nz 8) 2 1;
     circle_point demo_host (fst london) (snd london) (nz 8) 2 0].
Proof.
  apply (circlePolygonAround_small_segment_count
           demo_host (fst london) (snd london) (nz 8) 2).
  lia.
Defined.

(** C9 (counterexample): right after the placement the ring has 5
    positions and is closed, but the stored height is 0, not the
    configured 12. *)
Lemma placed_feature_is_stored_with_height_zero :
  length <$> (stored_ring <$> stored_buildings page_after_placing) = [5%nat]
  /\ stored_height <$> stored_buildings page_after_placing = [Some (nz 0)]
  /\ buildingHeight (react page_after_placing) = nz 12.
Proof. vm_compute. repeat split; reflexivity. Qed.

(** C9 (as amended): every ring the generators produce is closed: a
    rectangle is always 5 positions whose last equals the first, and a
    circle with a positive segment count [n] is [n + 1] positions whose
    last equals the first.  In scenario A the stored ring has 5 positions
    and is closed; the feature is stored with height 0 at first, and, the
    mesh manager being there, the timeout queued by the placement (450 ms)
    sets the stored and persisted height to the configured 12. *)
Theorem footprints_closed_and_placement_height :
  (forall host lng lat widthMeters depthMeters rotationDeg,
      let ring :=
        rectanglePolygonAround host lng lat widthMeters depthMeters rotationDeg in
      length ring = 5%nat
      /\ (exists x y, ring !! 0%nat = Some (LngLat x y))
      /\ ring !! 4%nat = ring !! 0%nat)
  /\ (forall host lng lat radiusMeters (n : positive),
      let ring := circlePolygonAround host lng lat radiusMeters (Z.pos n) in
      length ring = S (Pos.to_nat n)
      /\ (exists x y, ring !! 0%nat = Some (LngLat x y))
      /\ ring !! Pos.to_nat n = ring !! 0%nat)
  /\ (let w := page_after_placing in
      let w' := exec fire_timeout w in
      length <$> (stored_ring <$> stored_buildings w) = [5%nat]
      /\ (fun f => stored_ring f !! 4%nat) <$> stored_buildings w
         = (fun f => stored_ring f !! 0%nat) <$> stored_buildings w
      /\ stored_height <$> stored_buildings w = [Some (nz 0)]
      /\ timeout_delay <$> timeouts (window w) = [nz 450]
      /\ stored_height <$> stored_buildings w' = [Some (nz 12)]
      /\ stored_ring <$> stored_buildings w' = stored_ring <$> stored_buildings w
      /\ USER_BUILDINGS_KEY (localStorage w')
         = map_current w' ≫= user_buildings).
Proof.
  split; [|split].
  - intros host lng lat wd dp rot ring. subst ring.
    unfold rectanglePolygonAround. cbn [map app length lookup list_lookup default].
    repeat split; eauto.
  - intros host lng lat r n ring. subst ring.
    unfold circlePolygonAround. rewrite Z2Nat.inj_pos.
    destruct (Pos2Nat.is_succ n) as [k Hk]. rewrite Hk.
    cbn [circle_points].
    set (p0 := circle_point host lng lat r (Z.pos n) 0).
    set (pts := circle_points host lng lat r (Z.pos n) (0 + 1) k).
    assert (Hlen : length (p0 :: pts) = S k)
      by (subst pts; cbn [length]; rewrite circle_points_length; reflexivity).
    change (default Undefined ((p0 :: pts) !! 0%nat)) with p0.
    repeat split.
    + rewrite length_app, Hlen. cbn [length]. lia.
    + subst p0. unfold circle_point. eauto.
    + rewrite list_lookup_middle by (symmetry; exact Hlen). reflexivity.
  - vm_compute. repeat split; reflexivity.
Qed.

(** ** The feature store *)

Lemma same_store_refl w : same_store w w.
Proof. repeat split. Qed.

Lemma same_store_trans w1 w2 w3 :
  same_store w1 w2 -> same_store w2 w3 -> same_store w1 w3.
Proof.
  intros (H1 & H2 & H3) (H4 & H5 & H6).
  repeat split; congruence.
Qed.

Ltac run_handler :=
  unfold exec, mbind, mret, M_bind, M_ret, the_manager, put_manager,
    cryptoRandomId, modify, gets, throw, try_catch in *;
  cbn [fst snd] in *.

Lemma addMeshForFeature_same_store host feat w :
  same_store w (exec (addMeshForFeature host feat) w).
Proof.
  unfold addMeshForFeature. run_handler.
  repeat (case_match; simplify_eq/=; try apply same_store_refl).
  all: try (repeat split; reflexivity).
Qed.




(** ** Rotation *)

Lemma sum_positions_defined (ring : list Position) : forall x y,
  Forall defined ring -> is_Some (sum_positions ring x y).
Proof.
  induction ring as [|p ring IH]; intros x y Hall; simpl; [eauto|].
  inversion Hall as [|? ? Hp Hring]; subst.
  destruct p as [cx cy|]; [apply IH; exact Hring|].
  exfalso. apply Hp. reflexivity.
Qed.

Lemma polygonCentroid_defined (poly : list Position) :
  Forall defined poly -> is_Some (polygonCentroid poly).
Proof.
  intros Hall. unfold polygonCentroid.
  destruct (sum_positions_defined (drop_last poly) (nz 0) (nz 0)) as [[x y] Hs].
  - unfold drop_last. apply Forall_take. exact Hall.
  - rewrite Hs. eauto.
Qed.

Lemma bbox_from_defined (poly : list Position) : forall b,
  Forall defined poly -> is_Some (bbox_from poly b).
Proof.
  induction poly as [|p poly IH]; intros b Hall; simpl; [eauto|].
  inversion Hall as [|? ? Hp Hring]; subst.
  destruct p as [cx cy|]; [apply IH; exact Hring|].
  exfalso. apply Hp. reflexivity.
Qed.

Lemma removeById_same_store id w : same_store w (removeById id w).
Proof.
  unfold removeById.
  repeat (case_match; try apply same_store_refl).
  repeat split.
Qed.

Lemma rectanglePolygonAround_length host lng lat wd dp rot :
  length (rectanglePolygonAround host lng lat wd dp rot) = 5%nat.
Proof. reflexivity. Qed.

Lemma Qltb_lt (x y : Q) : Qltb x y = true <-> Qlt x y.
Proof. unfold Qltb, Qlt. apply Z.ltb_lt. Qed.

Lemma nlt_irrefl (a : num) : nlt a a = false.
Proof.
  destruct a as [q| | |]; simpl; try reflexivity.
  apply not_true_is_false. rewrite Qltb_lt. apply Qlt_irrefl.
Qed.

Lemma nlt_trans (a b c : num) :
  nlt a b = true -> nlt b c = true -> nlt a c = true.
Proof.
  destruct a as [x| | |], b as [y| | |], c as [z| | |]; simpl;
    try discriminate; try reflexivity.
  rewrite !Qltb_lt. apply Qlt_trans.
Qed.

Lemma keep_lower (x c lo : num) :
  nlt x lo = false -> nlt x (if nlt c lo then c else lo) = false.
Proof.
  intros Hx. destruct (nlt c lo) eqn:Hc; [|exact Hx].
  destruct (nlt x c) eqn:Hxc; [|reflexivity].
  rewrite (nlt_trans x c lo Hxc Hc) in Hx. discriminate.
Qed.

Lemma keep_upper (x c hi : num) :
  nlt hi x = false -> nlt (if ngt c hi then c else hi) x = false.
Proof.
  intros Hx. unfold ngt. destruct (nlt hi c) eqn:Hc; [|exact Hx].
  destruct (nlt c x) eqn:Hcx; [|reflexivity].
  rewrite (nlt_trans hi c x Hc Hcx) in Hx. discriminate.
Qed.

Lemma new_lower (c lo : num) : nlt c (if nlt c lo then c else lo) = false.
Proof. destruct (nlt c lo) eqn:Hc; [apply nlt_irrefl|exact Hc]. Qed.

Lemma new_upper (c hi : num) : nlt (if ngt c hi then c else hi) c = false.
Proof.
  unfold ngt. destruct (nlt hi c) eqn:Hc; [apply nlt_irrefl|exact Hc].
Qed.

(** [polygonBBox] computes a bounding box: the box it returns bounds
    every position of the ring. *)
Lemma bbox_from_bounds (poly : list Position) : forall b b',
  bbox_from poly b = Some b' ->
  Forall (bounds b') poly /\ (forall p, bounds b p -> bounds b' p).
Proof.
  induction poly as [|p poly IH]; intros b b' Hb; simpl in Hb.
  - injection Hb as <-. split; [constructor|auto].
  - destruct p as [c0 c1|]; [|discriminate].
    destruct (IH _ _ Hb) as [Hall Hmono]. split.
    + constructor; [|exact Hall].
      apply Hmono. simpl.
      auto using new_lower, new_upper.
    + intros [x y|] Hp; [|exact I]. apply Hmono.
      destruct Hp as (H1 & H2 & H3 & H4). simpl.
      auto using keep_lower, keep_upper.
Qed.



(** On integers [%] is the truncated remainder [Z.rem]. *)
Lemma nrem_integers (a b : Z) :
  b <> 0 -> nrem (nz a) (nz b) = nz (Z.rem a b).
Proof.
  intros Hb. unfold nrem, nz, zq, inject_Z, Qis0. cbn [Qnum].
  destruct (Z.eqb_spec b 0) as [->|_]; [contradiction|].
  unfold fin. f_equal.
  assert (Htrunc : Qtrunc (Qdiv (a # 1) (b # 1)) = Z.quot a b).
  { unfold Qtrunc, Qdiv, Qinv, Qmult. cbn [Qnum Qden].
    destruct b as [|p|p]; [contradiction| |]; cbn [Qnum Qden].
    - rewrite Z.mul_1_r. reflexivity.
    - rewrite Pos.mul_1_l.
      change (Z.pos p) with (- Z.neg p). rewrite Z.quot_opp_r by discriminate.
      rewrite <- Z.quot_opp_l by discriminate. f_equal. lia. }
  rewrite Htrunc.
  unfold Qminus, Qplus, Qopp, Qmult. cbn [Qnum Qden Pos.mul].
  rewrite Qred_identity.
  - f_equal. pose proof (Z.quot_rem' a b). lia.
  - cbn [Qnum Qden]. apply Z.gcd_1_r.
Qed.

Lemma nadd_integers (a b : Z) : nadd (nz a) (nz b) = nz (a + b).
Proof.
  unfold nadd, nz, zq, inject_Z, fin, Qplus. cbn [Qnum Qden Pos.mul].
  rewrite Qred_identity by (cbn [Qnum Qden]; apply Z.gcd_1_r).
  f_equal. f_equal. lia.
Qed.

(** For a whole number of degrees stored and a whole delta, the rotation
    that [rotateSelectedBuilding] computes is the truncated remainder of
    their sum: below 360 in absolute value and of the sign of the sum. *)
Lemma rotated_footprint_rotation host (poly : list Position)
    (rotation deltaDeg : Z) (buildingWidth buildingDepth : num) :
  Forall defined poly ->
  snd <$> rotated_footprint host poly (Some (nz rotation)) (nz deltaDeg)
            buildingWidth buildingDepth
  = Some (nz (Z.rem (rotation + deltaDeg) 360)).
Proof.
  intros Hall. unfold rotated_footprint.
  destruct (polygonCentroid_defined poly Hall) as [[c0 c1] ->].
  destruct (bbox_from_defined poly
              {| minLng := PInf; minLat := PInf; maxLng := NInf; maxLat := NInf |}
              Hall) as [bbox Hb].
  unfold polygonBBox. rewrite Hb.
  change (ndefault (Some (nz rotation)) (nz 0)) with (nz rotation).
  rewrite nadd_integers, nrem_integers by discriminate. reflexivity.
Qed.

(** Scenario C on the model: two rotations by 15 give 30, then one by
    345 gives 15. *)
Lemma rotate_scenario_C :
  stored_rotation <$> stored_buildings
    (rotate 15 (rotate 15 page_with_selected_building)) = [Some (nz 30)]
  /\ stored_rotation <$> stored_buildings
    (rotate 345 (rotate 15 (rotate 15 page_with_selected_building)))
    = [Some (nz 15)].
Proof. vm_compute. split; reflexivity. Qed.

(** C4 (the code at the failing input): from rotation 0, the button
    "Rotate -15" stores the rotation -15, which is below 0. *)
Theorem rotateSelectedBuilding_negative_rotation :
  stored_rotation <$> stored_buildings page_with_selected_building
    = [Some (nz 0)]
  /\ stored_rotation <$> stored_buildings
       (rotate (-15) page_with_selected_building) = [Some (nz (-15))]
  /\ nlt (nz (-15)) (nz 0) = true
  /\ nrem (nadd (nz 0) (nz (-15))) (nz 360) = nz (Z.rem (-15) 360).
Proof. vm_compute. repeat split; reflexivity. Qed.

(** ** Height updates *)

Lemma Qis0_false (q : Q) : Qis0 q = false <-> ~ (q == 0)%Q.
Proof.
  unfold Qis0, Qeq. cbn [Qnum Qden]. rewrite Z.eqb_neq. lia.
Qed.

Lemma Qis0_Qred (q : Q) : Qis0 (Qred q) = Qis0 q.
Proof.
  destruct (Qis0 q) eqn:Hq.
  - unfold Qis0 in *. apply Z.eqb_eq in Hq. apply Z.eqb_eq.
    assert (H : (Qred q == 0)%Q).
    { rewrite Qred_correct. unfold Qeq. cbn. lia. }
    unfold Qeq in H. cbn in H. lia.
  - apply Qis0_false. apply Qis0_false in Hq. rewrite Qred_correct. exact Hq.
Qed.

Lemma fin_eq (x y : Q) : (x == y)%Q -> fin x = fin y.
Proof. intros H. unfold fin. f_equal. apply Qred_complete. exact H. Qed.

Lemma ndiv_fin (x y : Q) : Qis0 y = false -> ndiv (Fin x) (Fin y) = fin (x / y).
Proof. intros H. unfold ndiv. rewrite H. reflexivity. Qed.

Lemma nor_truthy (a b : num) : truthy a = true -> nor a b = a.
Proof. intros H. unfold nor. rewrite H. reflexivity. Qed.

Lemma truthy_fin (q : Q) : Qis0 q = false -> truthy (fin q) = true.
Proof. intros H. unfold fin, truthy. rewrite Qis0_Qred, H. reflexivity. Qed.

Lemma truthy_Fin (q : Q) : Qis0 q = false -> truthy (Fin q) = true.
Proof. intros H. unfold truthy. rewrite H. reflexivity. Qed.

Lemma nmul_fin (x y : Q) : nmul (fin x) (fin y) = fin (x * y).
Proof.
  unfold nmul, fin. f_equal. apply Qred_complete.
  rewrite !Qred_correct. reflexivity.
Qed.

(** On a mesh baked for the height [old], a first update to [new] ends
    at the effective height of a [new]-metre extrusion (scale [new / old]
    on the depth [old / m], for a metre of [m] mercator units). *)
Lemma first_update_reaches_new_height (old new m : Q) :
  ~ (old == 0)%Q -> ~ (m == 0)%Q ->
  nmul (nor (nor (height_in_merc (Fin old) (MeterNumber (Fin m))) (Fin old)) (nz 1))
       (ndiv (Fin new) (nor (nor (Fin old) (Fin new)) (nz 1)))
  = ndiv (Fin new) (Fin m).
Proof.
  intros Hold Hm.
  apply Qis0_false in Hold as Hold'. apply Qis0_false in Hm as Hm'.
  assert (Hq : Qis0 (old / m) = false).
  { apply Qis0_false. intros H. apply Hold.
    rewrite <- (Qmult_div_r old m Hm). rewrite H. ring. }
  unfold height_in_merc. rewrite !ndiv_fin by assumption.
  rewrite !(nor_truthy (fin (old / m))) by (apply truthy_fin; exact Hq).
  rewrite !(nor_truthy (Fin old)) by (apply truthy_Fin; exact Hold').
  rewrite ndiv_fin by assumption.
  rewrite nmul_fin. apply fin_eq. field. split; assumption.
Qed.

(** A second update, from [new1] to [new2], ends at the scale
    [new2 / new1] on the depth still baked for [old]: the effective height
    of an extrusion of [old * new2 / new1] metres. *)
Lemma second_update_scales_baked_depth (old new1 new2 m : Q) :
  ~ (old == 0)%Q -> ~ (new1 == 0)%Q -> ~ (m == 0)%Q ->
  nmul (nor (nor (height_in_merc (Fin old) (MeterNumber (Fin m))) (Fin old)) (nz 1))
       (ndiv (Fin new2) (nor (nor (Fin new1) (Fin new2)) (nz 1)))
  = ndiv (Fin (old * new2 / new1)) (Fin m).
Proof.
  intros Hold Hnew Hm.
  apply Qis0_false in Hold as Hold'. apply Qis0_false in Hm as Hm'.
  apply Qis0_false in Hnew as Hnew'.
  assert (Hq : Qis0 (old / m) = false).
  { apply Qis0_false. intros H. apply Hold.
    rewrite <- (Qmult_div_r old m Hm). rewrite H. ring. }
  unfold height_in_merc. rewrite !ndiv_fin by assumption.
  rewrite !(nor_truthy (fin (old / m))) by (apply truthy_fin; exact Hq).
  rewrite !(nor_truthy (Fin new1)) by (apply truthy_Fin; exact Hnew').
  rewrite ndiv_fin by assumption.
  rewrite nmul_fin. apply fin_eq. field. split; assumption.
Qed.

(** C3 (the code at the failing input): on the mesh built for height 10,
    a first update to 30 ends with z-scale 3 and the effective height of a
    30 m extrusion; a second update to 60 ends with z-scale 60/30 = 2
    on the same geometry, the effective height of a 20 m extrusion and
    not of a 60 m one, while the stored height is 60. *)
Theorem updateHeight_second_update_scales_from_previous_height :
  let ring := stored_ring (building "a" (nz 10)) in
  let w1 := update_height_and_finish 30 1000 page_with_risen_building in
  let w2 := update_height_and_finish 60 2000 w1 in
  extrude_depth <$> heap page_with_risen_building !! 0%nat
    = extrusion_depth demo_host ring (nz 10)
  /\ scale_z <$> heap page_with_risen_building !! 0%nat = Some (nz 1)
  /\ scale_z <$> heap w1 !! 0%nat = Some (nz 3)
  /\ effectiveHeight <$> heap w1 !! 0%nat = extrusion_depth demo_host ring (nz 30)
  /\ in_flight 0%nat w1 = []
  /\ stored_height <$> stored_buildings w2 = [Some (nz 60)]
  /\ scale_z <$> heap w2 !! 0%nat = Some (nz 2)
  /\ in_flight 0%nat w2 = []
  /\ effectiveHeight <$> heap w2 !! 0%nat = extrusion_depth demo_host ring (nz 20)
  /\ effectiveHeight <$> heap w2 !! 0%nat <> extrusion_depth demo_host ring (nz 60).
Proof. vm_compute. repeat split; try reflexivity. discriminate. Qed.

(** ** Meshes of features that left the store *)

Lemma addMeshForFeature_keeps_other host feat w (id id' : string) (r : nat) :
  properties feat ≫= p_id = Some id' ->
  id' <> id ->
  mesh_of id w = Some r ->
  mesh_of id (exec (addMeshForFeature host feat) w) = Some r.
Proof.
  intros Hid Hne Hr. unfold mesh_of in *.
  destruct (threeManagerRef w) as [manager|] eqn:Hm; [|discriminate Hr].
  cbn [mbind option_bind] in Hr.
  unfold addMeshForFeature. rewrite Hid. run_handler. rewrite Hm.
  destruct (meshes manager !! id') as [old|] eqn:Hold; cbn [threeManagerRef with_manager];
    destruct (buildMeshFromPolygon host _ _ _) as [built|];
    cbn [snd threeManagerRef with_manager with_heap with_window write_mesh
           requestAnimationFrame mbind option_bind meshes];
    rewrite ?Hm; cbn [snd threeManagerRef with_manager with_heap with_window write_mesh
           requestAnimationFrame mbind option_bind meshes].
  all: rewrite ?lookup_insert_ne, ?lookup_delete_ne by exact Hne; try exact Hr.
Qed.

Lemma addMeshes_keeps_other host (fs : list Feature) (id : string) (r : nat) :
  Forall (has_other_id id) fs -> forall w,
  mesh_of id w = Some r ->
  mesh_of id (exec (addMeshes host fs) w) = Some r.
Proof.
  induction 1 as [|f fs (id' & Hid & Hne) Hfs IH]; intros w Hr; [exact Hr|].
  cbn [addMeshes]. run_handler.
  pose proof (addMeshForFeature_keeps_other host f w id id' r Hid Hne Hr) as Hf.
  unfold exec in Hf.
  destruct (addMeshForFeature host f w) as [[[]|] w1]; cbn [fst snd] in Hf |- *;
    apply IH; exact Hf.
Qed.

(** Importing a collection in which no feature has the id [id] leaves
    the mesh registered for [id] where it was. *)
Lemma importGeoJSON_keeps_meshes_of_dropped_features
    host (parsed : FeatureCollection) (w : World) (id : string) (r : nat) :
  Forall (has_other_id id) (default [] (features parsed)) ->
  mesh_of id w = Some r ->
  mesh_of id (exec (importGeoJSON host (Some parsed) UserBuildings) w) = Some r.
Proof.
  intros Hfs Hr. unfold importGeoJSON. run_handler.
  destruct (map_current w) as [m|] eqn:Hmap; [|exact Hr].
  destruct (user_buildings m) as [cur|]; [|exact Hr].
  assert (Hm : exists manager, threeManagerRef w = Some manager).
  { unfold mesh_of in Hr. destruct (threeManagerRef w); [eauto|discriminate]. }
  destruct Hm as [manager Hm].
  match goal with
  | |- context [match threeManagerRef ?w0 with _ => _ end] =>
      replace (threeManagerRef w0) with (Some manager)
        by (unfold setData_buildings; rewrite Hmap; symmetry; exact Hm)
  end.
  match goal with
  | |- context [addMeshes host ?fs ?w0] =>
      assert (Hr0 : mesh_of id w0 = Some r)
        by (unfold mesh_of, setData_buildings in *; rewrite Hmap; exact Hr);
      pose proof (addMeshes_keeps_other host fs id r Hfs w0 Hr0) as Hf;
      unfold exec in Hf;
      destruct (addMeshes host fs w0) as [[[]|] w1]
  end; exact Hf.
Qed.

(** C2 (the code at the failing input): the page stores building [a]
    with its mesh; importing a collection that holds only building [b]
    replaces the store, adds a mesh for [b], and leaves the mesh of [a]
    in the id-to-mesh map and in the scene.  "Clear Buildings" and
    "Delete Selected" on the same page do remove it. *)
Theorem importGeoJSON_leaves_mesh_of_replaced_feature :
  let w := page_with_selected_building in
  let w' :=
    exec (importGeoJSON demo_host
            (Some {| features := Some [building "b" (nz 10)] |}) UserBuildings)
      w in
  stored_id <$> stored_buildings w = [Some "a"]
  /\ mesh_of "a" w = Some 0%nat
  /\ scene_children w = [0%nat]
  /\ stored_id <$> stored_buildings w' = [Some "b"]
  /\ error (react w') = None
  /\ mesh_of "a" w' = Some 0%nat
  /\ mesh_of "b" w' = Some 1%nat
  /\ scene_children w' = [0%nat; 1%nat]
  /\ stored_buildings (clearBuildings w) = []
  /\ mesh_of "a" (clearBuildings w) = None
  /\ scene_children (clearBuildings w) = []
  /\ stored_buildings (deleteSelected w) = []
  /\ mesh_of "a" (deleteSelected w) = None
  /\ scene_children (deleteSelected w) = [].
Proof. vm_compute. repeat split; reflexivity. Qed.

(** * Further properties of the component *)

(** ** Rings *)

Lemma nseq_refl_Fin (q : Q) : nseq (Fin q) (Fin q) = true.
Proof. simpl. apply Qeq_bool_iff. reflexivity. Qed.

Lemma same_position_refl (p : Position) :
  finite_position p -> same_position p p = Some true.
Proof.
  destruct p as [[x| | |] [y| | |]|]; simpl; try contradiction.
  intros _. rewrite !(proj2 (Qeq_bool_iff _ _)) by reflexivity. reflexivity.
Qed.

Lemma same_position_finite (p q : Position) :
  finite_position p -> finite_position q -> is_Some (same_position p q).
Proof.
  destruct p as [[x| | |] [y| | |]|], q as [[x'| | |] [y'| | |]|]; simpl;
    try contradiction; eauto.
Qed.

Lemma last_finite (ring : list Position) (d : Position) :
  ring <> [] -> Forall finite_position ring ->
  finite_position (List.last ring d).
Proof.
  induction ring as [|p ring IH]; intros Hne Hall; [contradiction|].
  inversion Hall as [|? ? Hp Hring]; subst.
  destruct ring as [|q ring]; [exact Hp|].
  change (finite_position (List.last (q :: ring) d)).
  apply IH; [discriminate|exact Hring].
Qed.

(** X1: on a ring of finite positions [ensureClosedRing] does not throw;
    it returns the ring itself when it is already closed and otherwise
    the ring with a copy of its first position appended; the result is
    closed, and closing it again returns it unchanged. *)
Theorem ensureClosedRing_closes_once (coords : list Position) :
  Forall finite_position coords ->
  exists ring,
    ensureClosedRing coords = Some ring
    /\ (closed_ring coords -> ring = coords)
    /\ (ring = coords \/ ring = coords ++ take 1 coords)
    /\ closed_ring ring
    /\ ensureClosedRing ring = Some ring.
Proof.
  intros Hall. destruct coords as [|first rest].
  - exists []. repeat split; auto.
  - inversion Hall as [|? ? Hfirst Hrest]; subst.
    assert (Hlast : finite_position (List.last (first :: rest) Undefined))
      by (apply last_finite; [discriminate|exact Hall]).
    destruct (same_position_finite first _ Hfirst Hlast) as [b Hb].
    destruct b.
    + exists (first :: rest).
      assert (He : ensureClosedRing (first :: rest) = Some (first :: rest))
        by (unfold ensureClosedRing; rewrite Hb; reflexivity).
      unfold closed_ring. auto.
    + destruct first as [x y|]; [|contradiction].
      exists ((LngLat x y :: rest) ++ [LngLat x y]).
      assert (Hclosed :
        same_position (LngLat x y)
          (List.last ((LngLat x y :: rest) ++ [LngLat x y]) Undefined)
        = Some true).
      { rewrite List.last_last. apply same_position_refl. exact Hfirst. }
      split; [unfold ensureClosedRing; rewrite Hb; reflexivity|]. split.
      { unfold closed_ring. rewrite Hb. discriminate. }
      split; [right; reflexivity|]. split.
      { exact Hclosed. }
      { change ((LngLat x y :: rest) ++ [LngLat x y])
          with (LngLat x y :: (rest ++ [LngLat x y])) in *.
        unfold ensureClosedRing. rewrite Hclosed. reflexivity. }
Qed.

(** X1 (witness): the open ring of three positions gets a fourth. *)
Lemma ensureClosedRing_closes_once_witness :
  exists ring,
    ensureClosedRing (stored_ring open_ring_building) = Some ring
    /\ (closed_ring (stored_ring open_ring_building)
        -> ring = stored_ring open_ring_building)
    /\ (ring = stored_ring open_ring_building
        \/ ring = stored_ring open_ring_building
                  ++ take 1 (stored_ring open_ring_building))
    /\ closed_ring ring
    /\ ensureClosedRing ring = Some ring.
Proof.
  apply (ensureClosedRing_closes_once (stored_ring open_ring_building)).
  vm_compute. repeat constructor.
Defined.

(** ** The bounding box *)

Lemma bbox_from_attained (poly : list Position) : forall b b',
  bbox_from poly b = Some b' ->
  (minLng b' = minLng b \/ exists y, LngLat (minLng b') y ∈ poly)
  /\ (maxLng b' = maxLng b \/ exists y, LngLat (maxLng b') y ∈ poly)
  /\ (minLat b' = minLat b \/ exists x, LngLat x (minLat b') ∈ poly)
  /\ (maxLat b' = maxLat b \/ exists x, LngLat x (maxLat b') ∈ poly).
Proof.
  induction poly as [|p poly IH]; intros b b' Hb; simpl in Hb.
  - injection Hb as <-. auto.
  - destruct p as [c0 c1|]; [|discriminate].
    destruct (IH _ _ Hb) as (H1 & H2 & H3 & H4). cbn [minLng maxLng minLat maxLat] in *.
    assert (Hin : forall x y, LngLat x y ∈ poly -> LngLat x y ∈ LngLat c0 c1 :: poly)
      by (intros; apply list_elem_of_further; assumption).
    assert (Hhd : LngLat c0 c1 ∈ LngLat c0 c1 :: poly) by apply list_elem_of_here.
    repeat split.
    + destruct H1 as [->|[y Hy]]; [|right; eauto].
      destruct (nlt c0 (minLng b)); [right; eauto|left; reflexivity].
    + destruct H2 as [->|[y Hy]]; [|right; eauto].
      destruct (ngt c0 (maxLng b)); [right; eauto|left; reflexivity].
    + destruct H3 as [->|[x Hx]]; [|right; eauto].
      destruct (nlt c1 (minLat b)); [right; eauto|left; reflexivity].
    + destruct H4 as [->|[x Hx]]; [|right; eauto].
      destruct (ngt c1 (maxLat b)); [right; eauto|left; reflexivity].
Qed.

(** X2: for a non-empty ring of finite positions [polygonBBox] returns
    the exact bounding box: no position of the ring lies outside it, and
    each of its four sides is the coordinate of a position of the ring. *)
Theorem polygonBBox_is_tight (poly : list Position) :
  poly <> [] ->
  Forall finite_position poly ->
  exists b,
    polygonBBox poly = Some b
    /\ Forall (bounds b) poly
    /\ (exists y, LngLat (minLng b) y ∈ poly)
    /\ (exists y, LngLat (maxLng b) y ∈ poly)
    /\ (exists x, LngLat x (minLat b) ∈ poly)
    /\ (exists x, LngLat x (maxLat b) ∈ poly).
Proof.
  intros Hne Hall.
  destruct poly as [|p poly]; [contradiction|].
  inversion Hall as [|? ? Hp Hrest]; subst.
  destruct p as [[x| | |] [y| | |]|]; try contradiction.
  assert (Hdef : Forall defined (LngLat (Fin x) (Fin y) :: poly)).
  { eapply Forall_impl; [exact Hall|].
    intros [? ?|] Hf; [discriminate|contradiction]. }
  destruct (bbox_from_defined _
              {| minLng := PInf; minLat := PInf; maxLng := NInf; maxLat := NInf |}
              Hdef) as [b Hb].
  exists b. split; [exact Hb|].
  split; [exact (proj1 (bbox_from_bounds _ _ _ Hb))|].
  simpl in Hb.
  destruct (bbox_from_attained _ _ _ Hb) as (H1 & H2 & H3 & H4).
  cbn [minLng maxLng minLat maxLat] in *.
  assert (Hhd : forall u v, u = Fin x -> v = Fin y ->
            LngLat u v ∈ LngLat (Fin x) (Fin y) :: poly)
    by (intros ? ? -> ->; apply list_elem_of_here).
  repeat split.
  - destruct H1 as [H|[v Hv]]; [|exists v; apply list_elem_of_further; exact Hv].
    exists (Fin y). apply Hhd; [exact H|reflexivity].
  - destruct H2 as [H|[v Hv]]; [|exists v; apply list_elem_of_further; exact Hv].
    exists (Fin y). apply Hhd; [exact H|reflexivity].
  - destruct H3 as [H|[u Hu]]; [|exists u; apply list_elem_of_further; exact Hu].
    exists (Fin x). apply Hhd; [reflexivity|exact H].
  - destruct H4 as [H|[u Hu]]; [|exists u; apply list_elem_of_further; exact Hu].
    exists (Fin x). apply Hhd; [reflexivity|exact H].
Qed.

(** X2 (witness): the 33-position circle of the round building. *)
Lemma polygonBBox_is_tight_witness :
  exists b,
    polygonBBox (stored_ring (round_building "c")) = Some b
    /\ Forall (bounds b) (stored_ring (round_building "c"))
    /\ (exists y, LngLat (minLng b) y ∈ stored_ring (round_building "c"))
    /\ (exists y, LngLat (maxLng b) y ∈ stored_ring (round_building "c"))
    /\ (exists x, LngLat x (minLat b) ∈ stored_ring (round_building "c"))
    /\ (exists x, LngLat x (maxLat b) ∈ stored_ring (round_building "c")).
Proof.
  apply (polygonBBox_is_tight (stored_ring (round_building "c"))).
  - vm_compute. discriminate.
  - vm_compute. repeat constructor.
Defined.

(** ** The centroid of a generated rectangle *)

Lemma degrees_Fin host (q : Q) :
  exists a, ndiv (nmul (Fin q) (PI host)) (nz 180) = Fin a.
Proof. eexists. reflexivity. Qed.

Lemma truthy_Fin_inv (a : num) :
  truthy a = true -> (exists q, a = Fin q /\ Qis0 q = false) \/ a = PInf \/ a = NInf.
Proof.
  destruct a as [q| | |]; simpl; intros H; try discriminate; auto.
  left. exists q. split; [reflexivity|]. destruct (Qis0 q); [discriminate|reflexivity].
Qed.




(** ** The scene and the map of meshes *)

Lemma scene_matches_remove sc (ms : gmap string nat) n id old :
  scene_matches sc ms n -> ms !! id = Some old ->
  scene_matches (filter (fun r => r <> old) sc) (delete id ms) n.
Proof.
  intros (Hnd & Hiff & Hinj & Hlt) Hold. repeat split.
  - apply NoDup_filter. exact Hnd.
  - intros Hr. apply list_elem_of_filter in Hr as [Hne Hr].
    apply Hiff in Hr as [id' Hid']. exists id'.
    rewrite lookup_delete_ne; [exact Hid'|].
    intros <-. rewrite Hold in Hid'. injection Hid' as ->. contradiction.
  - intros [id' Hid']. apply list_elem_of_filter.
    destruct (decide (id = id')) as [<-|Hne].
    + rewrite lookup_delete_eq in Hid'. discriminate.
    + rewrite lookup_delete_ne in Hid' by exact Hne. split.
      * intros ->. apply Hne. exact (Hinj _ _ _ Hold Hid').
      * apply Hiff. eauto.
  - intros i i' r Hi Hi'.
    destruct (decide (id = i)) as [<-|Hn1];
      [rewrite lookup_delete_eq in Hi; discriminate|].
    destruct (decide (id = i')) as [<-|Hn2];
      [rewrite lookup_delete_eq in Hi'; discriminate|].
    rewrite lookup_delete_ne in Hi, Hi' by assumption. eauto.
  - intros r Hr. apply list_elem_of_filter in Hr as [_ Hr]. auto.
Qed.

Lemma scene_matches_add sc (ms : gmap string nat) n id :
  scene_matches sc ms n -> ms !! id = None ->
  scene_matches (filter (fun r => r <> n) sc ++ [n]) (<[id := n]> ms) (S n).
Proof.
  intros (Hnd & Hiff & Hinj & Hlt) Hnone.
  assert (Hreg : forall i r, ms !! i = Some r -> (r < n)%nat /\ i <> id).
  { intros i r Hi. split; [apply Hlt, Hiff; eauto|].
    intros ->. rewrite Hnone in Hi. discriminate. }
  repeat split.
  - apply NoDup_app. split; [apply NoDup_filter; exact Hnd|]. split.
    + intros r Hr Hn. apply list_elem_of_filter in Hr as [Hne _].
      apply list_elem_of_singleton in Hn. contradiction.
    + apply NoDup_singleton.
  - intros Hr. apply elem_of_app in Hr as [Hr|Hr].
    + apply list_elem_of_filter in Hr as [_ Hr].
      apply Hiff in Hr as [i Hi]. exists i.
      rewrite lookup_insert_ne; [exact Hi|].
      intros <-. rewrite Hnone in Hi. discriminate.
    + apply list_elem_of_singleton in Hr as ->. exists id.
      apply lookup_insert_eq.
  - intros [i Hi]. apply elem_of_app.
    destruct (decide (id = i)) as [<-|Hne].
    + rewrite lookup_insert_eq in Hi. injection Hi as <-.
      right. apply list_elem_of_singleton. reflexivity.
    + rewrite lookup_insert_ne in Hi by exact Hne.
      left. apply list_elem_of_filter. split.
      * destruct (Hreg _ _ Hi) as [Hlt' _]. lia.
      * apply Hiff. eauto.
  - intros i i' r Hi Hi'.
    destruct (decide (id = i)) as [<-|Hn1];
      destruct (decide (id = i')) as [<-|Hn2]; [reflexivity| | |].
    + rewrite lookup_insert_eq in Hi. injection Hi as <-.
      rewrite lookup_insert_ne in Hi' by exact Hn2.
      destruct (Hreg _ _ Hi'). lia.
    + rewrite lookup_insert_eq in Hi'. injection Hi' as <-.
      rewrite lookup_insert_ne in Hi by exact Hn1.
      destruct (Hreg _ _ Hi). lia.
    + rewrite lookup_insert_ne in Hi, Hi' by assumption. eauto.
  - intros r Hr. apply elem_of_app in Hr as [Hr|Hr].
    + apply list_elem_of_filter in Hr as [_ Hr]. apply Hlt in Hr. lia.
    + apply list_elem_of_singleton in Hr as ->. lia.
Qed.

Lemma scene_matches_mono sc (ms : gmap string nat) n n' :
  scene_matches sc ms n -> (n <= n')%nat -> scene_matches sc ms n'.
Proof.
  intros (Hnd & Hiff & Hinj & Hlt) Hle. repeat split; try assumption.
  - apply Hiff.
  - apply Hiff.
  - intros r Hr. apply Hlt in Hr. lia.
Qed.

Lemma anim_heap_length a now w : length (heap (anim a now w)) = length (heap w).
Proof.
  unfold anim, write_mesh, requestAnimationFrame.
  destruct (nlt (anim_t a now) (nz 1)); cbn [heap with_heap with_window];
    rewrite ?length_alter; reflexivity.
Qed.

Lemma animationFrame_heap_length now w :
  length (heap (animationFrame now w)) = length (heap w).
Proof.
  unfold animationFrame.
  set (w0 := with_window _ w).
  change (length (heap w)) with (length (heap w0)).
  generalize w0. induction (animationFrames (window w)) as [|a q IH];
    intros w1; simpl; [reflexivity|].
  rewrite IH. apply anim_heap_length.
Qed.

Lemma blink_all_length host t (rs : list (string * nat)) (h : list Mesh) :
  length (foldr (fun '(_, r) h => alter (blink host t) r h) h rs) = length h.
Proof.
  induction rs as [|[i r] rs IH]; simpl; [reflexivity|].
  rewrite length_alter. exact IH.
Qed.

Lemma consistent_removeById id w : consistent w -> consistent (removeById id w).
Proof.
  intros (manager & sc & Hm & Hsc & Hmatch). unfold removeById.
  rewrite Hm, Hsc.
  destruct (meshes manager !! id) as [old|] eqn:Hold.
  - eexists _, _. split; [reflexivity|]. split; [reflexivity|].
    cbn [meshes heap with_manager]. apply scene_matches_remove; assumption.
  - exists manager, sc. auto.
Qed.

Lemma consistent_updateHeight id h w :
  consistent w -> consistent (updateHeight id h w).
Proof.
  intros (manager & sc & Hm & Hsc & Hmatch). unfold updateHeight. rewrite Hm.
  destruct (meshes manager !! id ≫= _) as [[r mesh]|]; [|exists manager, sc; auto].
  exists manager, sc. split; [exact Hm|]. split; [exact Hsc|].
  unfold requestAnimationFrame, write_mesh. cbn [heap with_heap with_window].
  rewrite length_alter. exact Hmatch.
Qed.

Lemma consistent_animationFrame now w :
  consistent w -> consistent (animationFrame now w).
Proof.
  intros (manager & sc & Hm & Hsc & Hmatch). exists manager, sc.
  rewrite animationFrame_threeManagerRef, animationFrame_heap_length. auto.
Qed.

Lemma consistent_render host matrix t w :
  consistent w -> consistent (render host matrix t w).
Proof.
  intros (manager & sc & Hm & Hsc & Hmatch). unfold render. rewrite Hm, Hsc.
  destruct (camera manager); [|exists manager, sc; auto].
  destruct (renderer manager && clock manager); [|exists manager, sc; auto].
  unfold triggerRepaint. cbn [map_current with_heap with_manager].
  destruct (map_current w);
    (eexists _, sc; split; [reflexivity|]; split; [reflexivity|];
     cbn [meshes heap with_heap with_manager with_map];
     rewrite blink_all_length; exact Hmatch).
Qed.

Lemma addMeshForFeature_run host feat w manager :
  threeManagerRef w = Some manager ->
  addMeshForFeature host feat w
  = let id := feature_id feat w in
    let w0 := unregister id (with_feature_id feat w) in
    match built_mesh host feat id with
    | Some mesh => (Normal tt, register id mesh w0)
    | None => (Thrown, w0)
    end.
Proof.
  intros Hm. unfold addMeshForFeature, feature_id, with_feature_id, built_mesh,
    unregister, register.
  destruct (properties feat ≫= p_id) as [id|]; run_handler;
    cbn [threeManagerRef with_window default]; rewrite Hm;
    (destruct (meshes manager !! _) as [old|];
     destruct (buildMeshFromPolygon host _ _ _) as [built|];
     cbn [threeManagerRef with_manager with_heap with_window fmap option_fmap
            option_map default Datatypes.id fst snd];
     rewrite ?Hm; reflexivity).
Qed.

Lemma consistent_with_feature_id feat w :
  consistent w -> consistent (with_feature_id feat w).
Proof.
  intros H. unfold with_feature_id.
  destruct (properties feat ≫= p_id); exact H.
Qed.

Lemma consistent_unregister id w :
  consistent w -> consistent (unregister id w).
Proof.
  intros (manager & sc & Hm & Hsc & Hmatch). unfold unregister. rewrite Hm.
  destruct (meshes manager !! id) as [old|] eqn:Hold.
  - eexists _, _. split; [reflexivity|]. rewrite Hsc.
    split; [reflexivity|].
    cbn [meshes heap with_manager]. apply scene_matches_remove; assumption.
  - exists manager, sc. auto.
Qed.

Lemma mesh_of_unregister id w : mesh_of id (unregister id w) = None.
Proof.
  unfold unregister, mesh_of.
  destruct (threeManagerRef w) as [manager|] eqn:Hm; [|rewrite Hm; reflexivity].
  destruct (meshes manager !! id) as [old|] eqn:Hold.
  - cbn. apply lookup_delete_eq.
  - rewrite Hm. exact Hold.
Qed.

Lemma mesh_of_unregister_ne id id' w :
  id <> id' -> mesh_of id' (unregister id w) = mesh_of id' w.
Proof.
  intros Hne. unfold unregister, mesh_of.
  destruct (threeManagerRef w) as [manager|] eqn:Hm; [|rewrite Hm; reflexivity].
  destruct (meshes manager !! id) as [old|] eqn:Hold.
  - cbn. apply lookup_delete_ne. exact Hne.
  - rewrite Hm. reflexivity.
Qed.

Lemma consistent_register id mesh w :
  consistent w -> mesh_of id w = None -> consistent (register id mesh w).
Proof.
  intros (manager & sc & Hm & Hsc & Hmatch) Hnone.
  unfold mesh_of in Hnone. rewrite Hm in Hnone. cbn in Hnone.
  unfold register. rewrite Hm.
  eexists _, _. split; [reflexivity|]. rewrite Hsc.
  split; [reflexivity|].
  unfold requestAnimationFrame, write_mesh.
  cbn [meshes heap with_heap with_window with_manager].
  rewrite length_alter, length_app. cbn [length].
  replace (length (heap w) + 1)%nat with (S (length (heap w))) by lia.
  apply scene_matches_add; assumption.
Qed.

Lemma consistent_addMeshForFeature host feat w :
  consistent w -> consistent (exec (addMeshForFeature host feat) w).
Proof.
  intros Hc. destruct Hc as (manager & sc & Hm & Hrest).
  assert (Hc : consistent w) by (exists manager, sc; auto).
  unfold exec. rewrite (addMeshForFeature_run host feat w manager Hm).
  cbv zeta.
  assert (H0 : consistent
                 (unregister (feature_id feat w) (with_feature_id feat w)))
    by (apply consistent_unregister, consistent_with_feature_id; exact Hc).
  destruct (built_mesh host feat (feature_id feat w)) as [mesh|]; cbn [snd].
  - apply consistent_register; [exact H0|apply mesh_of_unregister].
  - exact H0.
Qed.

(** X4: the manager's operations keep the scene in step with the map of
    meshes: if the scene holds exactly the registered meshes, each once,
    no mesh under two ids, all of them allocated, then the same is true
    after [addMeshForFeature] (whether it completes or throws),
    [removeById], [updateHeight], an animation frame and a render
    callback. *)
Theorem manager_operations_keep_scene_consistent
    (host : Host) (w : World) (feat : Feature) (id : string)
    (heightMeters now t : num) (matrix : list num) :
  consistent w ->
  consistent (exec (addMeshForFeature host feat) w)
  /\ consistent (removeById id w)
  /\ consistent (updateHeight id heightMeters w)
  /\ consistent (animationFrame now w)
  /\ consistent (render host matrix t w).
Proof.
  intros Hc. repeat split.
  - apply consistent_addMeshForFeature; exact Hc.
  - apply consistent_removeById; exact Hc.
  - apply consistent_updateHeight; exact Hc.
  - apply consistent_animationFrame; exact Hc.
  - apply consistent_render; exact Hc.
Qed.

Lemma mercCoords_defined host (ring : list Position) :
  Forall defined ring -> is_Some (mercCoords host ring).
Proof.
  induction 1 as [|p ring Hp Hring [ps IH]]; simpl; [eauto|].
  destruct p as [lng lat|]; [|exfalso; apply Hp; reflexivity].
  rewrite IH. eauto.
Qed.

Lemma mercCoords_undefined host (ring : list Position) :
  Undefined ∈ ring -> mercCoords host ring = None.
Proof.
  induction ring as [|p ring IH]; intros Hin.
  - apply not_elem_of_nil in Hin. contradiction.
  - simpl. destruct p as [lng lat|]; [|reflexivity].
    apply elem_of_cons in Hin as [Hin|Hin]; [discriminate|].
    rewrite (IH Hin). reflexivity.
Qed.

Lemma built_mesh_defined host feat id (ring : list Position) :
  first_ring (geometry feat) = Some ring -> Forall defined ring ->
  exists built,
    buildMeshFromPolygon host (Some ring)
      (ndefault (properties feat ≫= p_height) (nz 10))
      (default "#c44e3b" (properties feat ≫= p_color)) = Some built
    /\ built_mesh host feat id
       = Some (with_userData id
                 (ndefault (properties feat ≫= p_height) (nz 10)) built).
Proof.
  intros Hring Hall. unfold built_mesh. rewrite Hring.
  unfold buildMeshFromPolygon, extrusion_depth.
  destruct (mercCoords_defined host ring Hall) as [ps ->].
  destruct (polygonCentroid_defined ring Hall) as [[cx cy] Hc].
  change (polygonCentroidCoords ring) with (polygonCentroid ring).
  rewrite Hc. eexists. split; reflexivity.
Qed.

Lemma built_mesh_fails host feat id :
  (forall ring, first_ring (geometry feat) = Some ring -> Undefined ∈ ring) ->
  built_mesh host feat id = None.
Proof.
  intros Hbad. unfold built_mesh.
  destruct (first_ring (geometry feat)) as [ring|]; [|reflexivity].
  unfold buildMeshFromPolygon.
  rewrite (mercCoords_undefined host ring (Hbad ring eq_refl)). reflexivity.
Qed.

Lemma alter_last {A} (f : A -> A) (l : list A) (x : A) :
  alter f (length l) (l ++ [x]) = l ++ [f x].
Proof.
  replace (length l) with (length l + 0)%nat at 1 by lia.
  rewrite alter_app_r. reflexivity.
Qed.


(** X6: for a feature without a ring, or whose ring has an undefined
    slot, [addMeshForFeature] throws after it has taken out the mesh that
    was registered under the id: the id is left without a mesh, the old
    mesh is gone from the scene, and nothing is allocated or queued;
    other ids keep their meshes. *)
Theorem addMeshForFeature_failed_build_drops_old_mesh
    (host : Host) (feat : Feature) (w : World) (manager : ThreeLayerManager) :
  threeManagerRef w = Some manager ->
  (forall ring, first_ring (geometry feat) = Some ring -> Undefined ∈ ring) ->
  let id := feature_id feat w in
  let w' := exec (addMeshForFeature host feat) w in
  completes (addMeshForFeature host feat) w = false
  /\ mesh_of id w' = None
  /\ (forall old, meshes manager !! id = Some old -> old ∉ scene_children w')
  /\ (forall id', id' <> id -> mesh_of id' w' = mesh_of id' w)
  /\ heap w' = heap w
  /\ animationFrames (window w') = animationFrames (window w).
Proof.
  intros Hm Hbad id w'. subst w'.
  unfold completes, exec.
  rewrite (addMeshForFeature_run host feat w manager Hm). cbv zeta.
  fold id. rewrite (built_mesh_fails host feat id Hbad). cbn [fst snd].
  split; [reflexivity|]. split; [apply mesh_of_unregister|].
  assert (Hid : forall w1, threeManagerRef w1 = Some manager ->
            threeManagerRef (with_feature_id feat w1) = Some manager
            /\ heap (with_feature_id feat w1) = heap w1
            /\ animationFrames (window (with_feature_id feat w1))
               = animationFrames (window w1)).
  { intros w1 H1. unfold with_feature_id.
    destruct (properties feat ≫= p_id); auto. }
  destruct (Hid w Hm) as (Hm1 & Hh1 & Hq1).
  split.
  { intros old Hold. unfold scene_children, unregister. rewrite Hm1, Hold.
    cbn. destruct (scene manager) as [sc|]; cbn.
    - intros Hin. apply list_elem_of_filter in Hin as [Hne _].
      apply Hne. reflexivity.
    - apply not_elem_of_nil. }
  split.
  { intros id' Hne.
    rewrite mesh_of_unregister_ne by (intros ->; apply Hne; reflexivity).
    unfold mesh_of. rewrite Hm1, Hm. reflexivity. }
  unfold unregister. rewrite Hm1.
  destruct (meshes manager !! id); cbn [heap window with_manager];
    rewrite Hh1, Hq1; auto.
Qed.

(** X4 (witness): the page right after the manager was created. *)
Lemma manager_operations_keep_scene_consistent_witness :
  consistent (exec (addMeshForFeature demo_host (building "a" (nz 10))) fresh_page)
  /\ consistent (removeById "a" fresh_page)
  /\ consistent (updateHeight "a" (nz 30) fresh_page)
  /\ consistent (animationFrame (nz 100) fresh_page)
  /\ consistent (render demo_host frame_matrix (nz 3) fresh_page).
Proof.
  apply (manager_operations_keep_scene_consistent demo_host fresh_page
           (building "a" (nz 10)) "a" (nz 30) (nz 100) (nz 3) frame_matrix).
  eexists _, []. split; [reflexivity|]. split; [reflexivity|].
  repeat split.
  - apply NoDup_nil_2.
  - intros Hr. apply not_elem_of_nil in Hr. contradiction.
  - intros [i Hi]. discriminate Hi.
  - intros i i' r Hi. discriminate Hi.
  - intros r Hr. apply not_elem_of_nil in Hr. contradiction.
Defined.


(** X6 (witness): on the page with building [a] and its mesh, a feature
    [a] without a ring. *)
Lemma addMeshForFeature_failed_build_drops_old_mesh_witness :
  let w := page_with_selected_building in
  let w' := exec (addMeshForFeature demo_host (ringless_building "a")) w in
  mesh_of "a" w = Some 0%nat
  /\ completes (addMeshForFeature demo_host (ringless_building "a")) w = false
  /\ mesh_of "a" w' = None
  /\ heap w' = heap w.
Proof.
  intros w w'.
  destruct (threeManagerRef w) as [manager|] eqn:Hm;
    [|vm_compute in Hm; discriminate].
  destruct (addMeshForFeature_failed_build_drops_old_mesh demo_host
              (ringless_building "a") w manager Hm)
    as (Hthrown & Hnone & _ & _ & Hheap & _).
  - intros ring Hring. discriminate Hring.
  - split; [vm_compute; reflexivity|]. split; [exact Hthrown|].
    split; [exact Hnone|exact Hheap].
Defined.

(** ** The handlers and the scene *)

Lemma consistent_ext w w' :
  threeManagerRef w' = threeManagerRef w ->
  length (heap w') = length (heap w) ->
  consistent w -> consistent w'.
Proof.
  intros Hm Hh (manager & sc & H1 & H2 & H3).
  exists manager, sc. rewrite Hm, Hh. auto.
Qed.

Lemma keeps_ret {A} (a : A) : keeps (mret a).
Proof. intros w H. exact H. Qed.

Lemma keeps_throw {A} : keeps (@throw A).
Proof. intros w H. exact H. Qed.

Lemma keeps_gets {A} (f : World -> A) : keeps (gets f).
Proof. intros w H. exact H. Qed.

Lemma keeps_modify (f : World -> World) :
  (forall w, consistent w -> consistent (f w)) -> keeps (modify f).
Proof. intros Hf w H. apply Hf. exact H. Qed.

Lemma keeps_bind {A B} (m : M A) (f : A -> M B) :
  keeps m -> (forall a, keeps (f a)) -> keeps (m ≫= f).
Proof.
  intros Hm Hf w H. specialize (Hm w H).
  unfold exec, mbind, M_bind in *.
  destruct (m w) as [[a|] w1]; cbn [snd] in *; [apply Hf|]; exact Hm.
Qed.

Lemma keeps_try_catch {A} (body handler : M A) :
  keeps body -> keeps handler -> keeps (try_catch body handler).
Proof.
  intros Hb Hh w H. specialize (Hb w H).
  unfold exec, try_catch in *.
  destruct (body w) as [[a|] w1]; cbn [snd] in *; [|apply Hh]; exact Hb.
Qed.

Lemma keeps_cryptoRandomId : keeps cryptoRandomId.
Proof. intros w H. eapply consistent_ext; [| |exact H]; reflexivity. Qed.

Lemma keeps_addMeshForFeature host feat : keeps (addMeshForFeature host feat).
Proof. intros w H. apply consistent_addMeshForFeature. exact H. Qed.

Lemma consistent_store (f : World -> World) :
  (forall w, threeManagerRef (f w) = threeManagerRef w) ->
  (forall w, heap (f w) = heap w) ->
  forall w, consistent w -> consistent (f w).
Proof.
  intros Hm Hh w H. eapply consistent_ext; [apply Hm|rewrite Hh; reflexivity|exact H].
Qed.

Lemma consistent_setData_buildings d w :
  consistent w -> consistent (setData_buildings d w).
Proof.
  apply consistent_store; intros w0; unfold setData_buildings;
    destruct (map_current w0); reflexivity.
Qed.

Lemma consistent_setData_trees d w :
  consistent w -> consistent (setData_trees d w).
Proof.
  apply consistent_store; intros w0; unfold setData_trees;
    destruct (map_current w0); reflexivity.
Qed.

Lemma consistent_saveToStorage_buildings d w :
  consistent w -> consistent (saveToStorage_buildings d w).
Proof. apply consistent_store; reflexivity. Qed.

Lemma consistent_saveToStorage_trees d w :
  consistent w -> consistent (saveToStorage_trees d w).
Proof. apply consistent_store; reflexivity. Qed.

Lemma consistent_setBuildingsCount n w :
  consistent w -> consistent (setBuildingsCount n w).
Proof. apply consistent_store; reflexivity. Qed.

Lemma consistent_setTreesCount n w :
  consistent w -> consistent (setTreesCount n w).
Proof. apply consistent_store; reflexivity. Qed.

Lemma consistent_setError e w : consistent w -> consistent (setError e w).
Proof. apply consistent_store; reflexivity. Qed.

Lemma consistent_setSelectedId i w :
  consistent w -> consistent (setSelectedId i w).
Proof. apply consistent_store; reflexivity. Qed.

Lemma consistent_setTimeout t w : consistent w -> consistent (setTimeout t w).
Proof. apply consistent_store; reflexivity. Qed.

Lemma consistent_write_mesh r f w :
  consistent w -> consistent (write_mesh r f w).
Proof.
  intros H. eapply consistent_ext; [| |exact H]; [reflexivity|].
  unfold write_mesh. cbn [heap with_heap]. apply length_alter.
Qed.

Create HintDb keeps_db.
#[local] Hint Resolve consistent_setData_buildings consistent_setData_trees
  consistent_saveToStorage_buildings consistent_saveToStorage_trees
  consistent_setBuildingsCount consistent_setTreesCount consistent_setError
  consistent_setSelectedId consistent_setTimeout consistent_write_mesh
  consistent_removeById consistent_updateHeight : keeps_db.

Ltac keeps_step :=
  lazymatch goal with
  | |- keeps (mbind _ _) => apply keeps_bind; [|intros ?]
  | |- keeps (mret _) => apply keeps_ret
  | |- keeps throw => apply keeps_throw
  | |- keeps (gets _) => apply keeps_gets
  | |- keeps cryptoRandomId => apply keeps_cryptoRandomId
  | |- keeps (addMeshForFeature _ _) => apply keeps_addMeshForFeature
  | |- keeps (modify _) => apply keeps_modify; intros ? ?; auto with keeps_db
  | |- keeps (try_catch _ _) => apply keeps_try_catch
  | |- keeps (match ?x with _ => _ end) => destruct x
  | |- keeps ((match ?x with _ => _ end) _) => destruct x
  | |- keeps (let _ := _ in _) => cbv zeta
  end.

Lemma keeps_appendBuildingFeature host feat animateHeight :
  keeps (appendBuildingFeature host feat animateHeight).
Proof. unfold appendBuildingFeature. repeat keeps_step. Qed.

Lemma keeps_appendTreeFeature feat : keeps (appendTreeFeature feat).
Proof. unfold appendTreeFeature. repeat keeps_step. Qed.

Lemma keeps_addMeshes host fs : keeps (addMeshes host fs).
Proof. induction fs as [|f fs IH]; cbn [addMeshes]; repeat keeps_step. exact IH. Qed.

Lemma keeps_importGeoJSON host parsed sourceId :
  keeps (importGeoJSON host parsed sourceId).
Proof.
  unfold importGeoJSON. repeat keeps_step; apply keeps_addMeshes.
Qed.

Lemma keeps_rotateSelectedBuilding host deltaDeg :
  keeps (rotateSelectedBuilding host deltaDeg).
Proof. unfold rotateSelectedBuilding. repeat keeps_step. Qed.

Lemma keeps_updateSelectedBuildingProps updates :
  keeps (updateSelectedBuildingProps updates).
Proof. unfold updateSelectedBuildingProps. repeat keeps_step. Qed.

Lemma keeps_height_timeout t : keeps (height_timeout t).
Proof. unfold height_timeout. repeat keeps_step. Qed.

Lemma consistent_deleteSelected w : consistent w -> consistent (deleteSelected w).
Proof.
  intros H. unfold deleteSelected, deleteSelected_tree.
  repeat case_match; auto 10 with keeps_db.
Qed.

Lemma consistent_clear_fold (l : list (string * nat)) w :
  consistent w ->
  consistent (foldr (fun '(id, _) w => removeById id w) w l).
Proof.
  intros H. induction l as [|[id r] l IH]; simpl; [exact H|].
  apply consistent_removeById. exact IH.
Qed.

Lemma consistent_clearBuildings w : consistent w -> consistent (clearBuildings w).
Proof.
  intros H. unfold clearBuildings.
  repeat case_match; try apply consistent_clear_fold; auto 10 with keeps_db.
Qed.

Lemma consistent_clearTrees w : consistent w -> consistent (clearTrees w).
Proof.
  intros H. unfold clearTrees. repeat case_match; auto 10 with keeps_db.
Qed.

Lemma keeps_fire_timeout : keeps fire_timeout.
Proof.
  intros w H. unfold exec, fire_timeout.
  destruct (timeouts (window w)) as [|t rest]; [exact H|].
  apply keeps_height_timeout.
  eapply consistent_ext; [| |exact H]; reflexivity.
Qed.

Lemma keeps_addAtCenter host lng lat : keeps (addAtCenter host lng lat).
Proof.
  unfold addAtCenter.
  repeat first [keeps_step | apply keeps_appendBuildingFeature
               | apply keeps_appendTreeFeature].
Qed.

Lemma consistent_created w : consistent (createThreeLayerManager true w).
Proof.
  eexists _, []. split; [reflexivity|]. split; [reflexivity|].
  repeat split.
  - apply NoDup_nil_2.
  - intros Hr. apply not_elem_of_nil in Hr. contradiction.
  - intros [i Hi]. discriminate Hi.
  - intros i i' r Hi. discriminate Hi.
  - intros r Hr. apply not_elem_of_nil in Hr. contradiction.
Qed.

(** X7: every handler of the page keeps the scene in step with the map
    of meshes: from a consistent state, adding a building or a tree,
    "Add at center", deleting the selection, clearing buildings or trees,
    importing a file (whether it parses or not), rotating, updating
    properties and a firing timeout all end in a consistent state, so the
    scene never holds two meshes for one id. *)
Theorem handlers_keep_scene_consistent
    (host : Host) (w : World) (feat : Feature) (animateHeight : bool)
    (parsed : option FeatureCollection) (sourceId : SourceId)
    (deltaDeg lng lat : num) (updates : Properties) :
  consistent w ->
  consistent (exec (appendBuildingFeature host feat animateHeight) w)
  /\ consistent (exec (appendTreeFeature feat) w)
  /\ consistent (exec (addAtCenter host lng lat) w)
  /\ consistent (deleteSelected w)
  /\ consistent (clearBuildings w)
  /\ consistent (clearTrees w)
  /\ consistent (exec (importGeoJSON host parsed sourceId) w)
  /\ consistent (exec (rotateSelectedBuilding host deltaDeg) w)
  /\ consistent (exec (updateSelectedBuildingProps updates) w)
  /\ consistent (exec fire_timeout w).
Proof.
  intros H. repeat split.
  - apply keeps_appendBuildingFeature; exact H.
  - apply keeps_appendTreeFeature; exact H.
  - apply keeps_addAtCenter; exact H.
  - apply consistent_deleteSelected; exact H.
  - apply consistent_clearBuildings; exact H.
  - apply consistent_clearTrees; exact H.
  - apply keeps_importGeoJSON; exact H.
  - apply keeps_rotateSelectedBuilding; exact H.
  - apply keeps_updateSelectedBuildingProps; exact H.
  - apply keeps_fire_timeout; exact H.
Qed.

Lemma addMeshes_same_store host (fs : list Feature) : forall w,
  same_store w (exec (addMeshes host fs) w).
Proof.
  induction fs as [|f fs IH]; intros w; [apply same_store_refl|].
  cbn [addMeshes]. run_handler.
  pose proof (addMeshForFeature_same_store host f w) as Hf. unfold exec in Hf.
  destruct (addMeshForFeature host f w) as [[[]|] w1]; cbn [fst snd] in *;
    (eapply same_store_trans; [exact Hf|apply IH]).
Qed.

Lemma addMeshes_completes host (fs : list Feature) : forall w,
  fst (addMeshes host fs w) = Normal tt.
Proof.
  induction fs as [|f fs IH]; intros w; [reflexivity|].
  cbn [addMeshes]. run_handler.
  destruct (addMeshForFeature host f w) as [[[]|] w1]; apply IH.
Qed.

Lemma consistent_onLoad host w m :
  map_current w = Some m -> consistent (exec (onLoad host true) w).
Proof.
  intros Hmap. unfold onLoad. run_handler. rewrite Hmap.
  match goal with
  | |- context [addMeshes host ?fs ?w1] =>
      pose proof (keeps_addMeshes host fs w1 (consistent_created _)) as Hc;
      pose proof (addMeshes_completes host fs w1) as Hdone;
      unfold exec in Hc;
      destruct (addMeshes host fs w1) as [[[]|] w2]
  end; cbn [fst snd] in *; [|discriminate Hdone].
  auto with keeps_db.
Qed.

(** X8: when the map has loaded and the layer was added, the sources
    hold what storage held (nothing, if storage was empty), the building
    count is the number of stored buildings, storage itself is untouched,
    and the scene is consistent with the map of meshes. *)
Theorem onLoad_makes_scene_consistent
    (host : Host) (w : World) (m : MapObject) :
  map_current w = Some m ->
  consistent (exec (onLoad host true) w)
  /\ stored_buildings (exec (onLoad host true) w)
     = default [] (USER_BUILDINGS_KEY (localStorage w) ≫= features)
  /\ buildingsCount (react (exec (onLoad host true) w))
     = length (stored_buildings (exec (onLoad host true) w))
  /\ localStorage (exec (onLoad host true) w) = localStorage w.
Proof.
  intros Hmap. unfold onLoad. run_handler. rewrite Hmap.
  match goal with
  | |- context [addMeshes host ?fs ?w1] =>
      pose proof (keeps_addMeshes host fs w1 (consistent_created _)) as Hc;
      pose proof (addMeshes_same_store host fs w1) as (Hs1 & Hs2 & Hs3);
      pose proof (addMeshes_completes host fs w1) as Hdone;
      unfold exec in Hc, Hs1, Hs2, Hs3;
      destruct (addMeshes host fs w1) as [[[]|] w2]
  end; cbn [fst snd] in *; [|discriminate Hdone].
  unfold stored_buildings.
  cbn [map_current localStorage react setTreesCount setBuildingsCount
         with_react buildingsCount].
  rewrite Hs1, Hs2.
  cbn [map_current localStorage createThreeLayerManager onAdd with_manager
         with_map threeManagerRef mbind option_bind user_buildings].
  destruct (USER_BUILDINGS_KEY (localStorage w)) as [saved|];
    cbn [default mbind option_bind features empty_collection];
    repeat split; auto 10 with keeps_db.
Qed.


Lemma mesh_of_removeById id i w :
  consistent w ->
  mesh_of id (removeById i w) = if decide (i = id) then None else mesh_of id w.
Proof.
  intros (manager & sc & Hm & Hsc & _). unfold removeById, mesh_of.
  rewrite Hm, Hsc.
  destruct (meshes manager !! i) as [old|] eqn:Hold; cbn.
  - destruct (decide (i = id)) as [->|Hne];
      [apply lookup_delete_eq|apply lookup_delete_ne; exact Hne].
  - rewrite Hm. cbn. destruct (decide (i = id)) as [<-|Hne]; [exact Hold|reflexivity].
Qed.

Lemma clear_fold_mesh_of (l : list (string * nat)) w id :
  consistent w ->
  mesh_of id (foldr (fun '(i, _) w => removeById i w) w l)
  = if decide (id ∈ l.*1) then None else mesh_of id w.
Proof.
  intros H. induction l as [|[i r] l IH]; cbn [foldr fmap list_fmap fst].
  - destruct (decide (id ∈ [])) as [Hin|_]; [|reflexivity].
    apply not_elem_of_nil in Hin. contradiction.
  - rewrite mesh_of_removeById by (apply consistent_clear_fold; exact H).
    rewrite IH.
    destruct (decide (i = id)) as [->|Hne].
    + destruct (decide (id ∈ id :: l.*1)) as [_|Hn]; [reflexivity|].
      exfalso. apply Hn. apply list_elem_of_here.
    + destruct (decide (id ∈ l.*1)) as [Hin|Hnin];
        destruct (decide (id ∈ i :: l.*1)) as [Hin'|Hnin']; try reflexivity.
      * exfalso. apply Hnin'. apply list_elem_of_further. exact Hin.
      * exfalso. apply elem_of_cons in Hin' as [->|Hin']; [apply Hne; reflexivity|].
        apply Hnin. exact Hin'.
Qed.

Lemma clear_fold_same_store (l : list (string * nat)) w :
  same_store w (foldr (fun '(i, _) w => removeById i w) w l).
Proof.
  induction l as [|[i r] l IH]; cbn [foldr]; [apply same_store_refl|].
  eapply same_store_trans; [exact IH|apply removeById_same_store].
Qed.

Lemma removeById_heap_window id w :
  heap (removeById id w) = heap w /\ window (removeById id w) = window w.
Proof. unfold removeById. repeat case_match; split; reflexivity. Qed.

Lemma clear_fold_heap_window (l : list (string * nat)) w :
  heap (foldr (fun '(i, _) w => removeById i w) w l) = heap w
  /\ window (foldr (fun '(i, _) w => removeById i w) w l) = window w.
Proof.
  induction l as [|[i r] l [IH1 IH2]]; cbn [foldr]; [split; reflexivity|].
  destruct (removeById_heap_window i
              (foldr (fun '(i, _) w => removeById i w) w l)) as [-> ->].
  split; assumption.
Qed.

(** X9: from a consistent state with the map and its buildings source,
    "Clear Buildings" empties the source, writes the empty collection to
    storage, sets the count to 0 and removes every mesh: no id keeps a
    mesh and the scene is left without meshes.  Mesh objects and queued
    animation closures stay as they are. *)
Theorem clearBuildings_removes_every_mesh
    (w : World) (m : MapObject) (cur : FeatureCollection) :
  map_current w = Some m ->
  user_buildings m = Some cur ->
  consistent w ->
  stored_buildings (clearBuildings w) = []
  /\ USER_BUILDINGS_KEY (localStorage (clearBuildings w)) = Some empty_collection
  /\ buildingsCount (react (clearBuildings w)) = 0%nat
  /\ (forall id, mesh_of id (clearBuildings w) = None)
  /\ scene_children (clearBuildings w) = []
  /\ heap (clearBuildings w) = heap w
  /\ animationFrames (window (clearBuildings w)) = animationFrames (window w).
Proof.
  intros Hmap Hsrc Hc.
  assert (Hc' : consistent (clearBuildings w))
    by (apply consistent_clearBuildings; exact Hc).
  destruct Hc as (manager & sc & Hm & Hsc & Hmatch).
  assert (Hc : consistent w) by (exists manager, sc; auto).
  unfold clearBuildings in *. rewrite Hmap, Hsrc in *.
  set (w1 := setBuildingsCount 0
               (saveToStorage_buildings empty_collection
                  (setData_buildings empty_collection w))) in *.
  assert (Hm1 : threeManagerRef w1 = Some manager)
    by (subst w1; unfold setData_buildings; rewrite Hmap; exact Hm).
  assert (Hc1 : consistent w1)
    by (subst w1; auto with keeps_db).
  rewrite Hm1 in *.
  set (l := map_to_list (meshes manager)) in *.
  destruct (clear_fold_same_store l w1) as (Hs1 & Hs2 & Hs3).
  assert (Hnone : forall id,
            mesh_of id (foldr (fun '(i, _) w => removeById i w) w1 l) = None).
  { intros id. rewrite clear_fold_mesh_of by exact Hc1.
    destruct (decide (id ∈ l.*1)) as [_|Hnin]; [reflexivity|].
    unfold mesh_of. rewrite Hm1. cbn.
    destruct (meshes manager !! id) as [r|] eqn:Hr; [|reflexivity].
    exfalso. apply Hnin. apply list_elem_of_fmap. exists (id, r).
    split; [reflexivity|]. subst l. apply elem_of_map_to_list. exact Hr. }
  unfold stored_buildings. rewrite Hs1, Hs2, Hs3.
  split.
  { subst w1. unfold setData_buildings. rewrite Hmap. reflexivity. }
  split; [reflexivity|]. split; [reflexivity|]. split; [exact Hnone|].
  split.
  { destruct Hc' as (manager' & sc' & Hm' & Hsc' & _ & Hiff & _).
    unfold scene_children. rewrite Hm'. cbn. rewrite Hsc'. cbn.
    apply elem_of_nil_inv. intros r Hr. apply Hiff in Hr as [id Hid].
    specialize (Hnone id). unfold mesh_of in Hnone. rewrite Hm' in Hnone.
    cbn in Hnone. rewrite Hid in Hnone. discriminate. }
  destruct (clear_fold_heap_window l w1) as [-> ->].
  subst w1. unfold setData_buildings. rewrite Hmap. split; reflexivity.
Qed.

Lemma consistent_fresh_page : consistent fresh_page.
Proof. apply consistent_created. Qed.

Lemma consistent_loaded_page fs : consistent (loaded_page fs).
Proof.
  apply (consistent_onLoad demo_host _
           {| user_buildings := None; user_trees := None; repaints := 0 |}).
  reflexivity.
Qed.

(** X7 (witness): the handlers on the page with building [a] selected. *)
Lemma handlers_keep_scene_consistent_witness :
  let w := page_with_selected_building in
  consistent (exec (appendBuildingFeature demo_host (building "b" (nz 10)) true) w)
  /\ consistent (exec (appendTreeFeature (building "t" (nz 1))) w)
  /\ consistent (exec (addAtCenter demo_host (fst london) (snd london)) w)
  /\ consistent (deleteSelected w)
  /\ consistent (clearBuildings w)
  /\ consistent (clearTrees w)
  /\ consistent (exec (importGeoJSON demo_host None UserBuildings) w)
  /\ consistent (exec (rotateSelectedBuilding demo_host (nz 15)) w)
  /\ consistent
       (exec (updateSelectedBuildingProps
                (with_height (Some (nz 30)) no_properties)) w)
  /\ consistent (exec fire_timeout w).
Proof.
  apply (handlers_keep_scene_consistent demo_host page_with_selected_building
           (building "b" (nz 10)) true None UserBuildings (nz 15)
           (fst london) (snd london)
           (with_height (Some (nz 30)) no_properties)).
  apply consistent_setSelectedId, consistent_loaded_page.
Defined.

(** X8 (witness): the load with building [a] in storage. *)
Lemma onLoad_makes_scene_consistent_witness :
  consistent (loaded_page [building "a" (nz 10)])
  /\ stored_buildings (loaded_page [building "a" (nz 10)])
     = [building "a" (nz 10)]
  /\ buildingsCount (react (loaded_page [building "a" (nz 10)]))
     = length (stored_buildings (loaded_page [building "a" (nz 10)]))
  /\ localStorage (loaded_page [building "a" (nz 10)])
     = {| USER_BUILDINGS_KEY := Some {| features := Some [building "a" (nz 10)] |};
         USER_TREES_KEY := None |}.
Proof.
  apply (onLoad_makes_scene_consistent demo_host
           (with_storage
              {| USER_BUILDINGS_KEY :=
                   Some {| features := Some [building "a" (nz 10)] |};
                 USER_TREES_KEY := None |}
              (initial_world ids))
           {| user_buildings := None; user_trees := None; repaints := 0 |}).
  reflexivity.
Defined.

(** X9 (witness): "Clear Buildings" on the page with building [a]. *)
Lemma clearBuildings_removes_every_mesh_witness :
  let w := page_with_selected_building in
  mesh_of "a" w = Some 0%nat
  /\ stored_buildings (clearBuildings w) = []
  /\ (forall id, mesh_of id (clearBuildings w) = None)
  /\ scene_children (clearBuildings w) = [].
Proof.
  intros w.
  destruct (map_current w) as [m|] eqn:Hmap;
    [|vm_compute in Hmap; discriminate].
  destruct (clearBuildings_removes_every_mesh w m
              {| features := Some [building "a" (nz 10)] |} Hmap)
    as (Hstore & _ & _ & Hnone & Hscene & _).
  - injection Hmap as <-. vm_compute. reflexivity.
  - apply consistent_setSelectedId, consistent_loaded_page.
  - split; [vm_compute; reflexivity|]. auto.
Defined.

(** ** Deleting the selection, and the trees *)

Lemma findIndex_Some id fs : forall idx,
  findIndex id fs = Some idx ->
  (exists f, fs !! idx = Some f /\ stored_id f = Some id)
  /\ Forall (fun f' => stored_id f' <> Some id) (take idx fs).
Proof.
  induction fs as [|f fs IH]; intros idx H; [discriminate|].
  cbn [findIndex] in H. unfold has_id in H.
  destruct (properties f) as [p|] eqn:Hp.
  - destruct (bool_decide_reflect (p_id p = Some id)) as [Hid|Hid].
    + injection H as <-. split; [|constructor].
      exists f. split; [reflexivity|]. unfold stored_id. rewrite Hp. exact Hid.
    + destruct (findIndex id fs) as [j|] eqn:Hj; [|discriminate].
      injection H as <-. destruct (IH j eq_refl) as [Hf Hall].
      split; [exact Hf|]. cbn [take]. constructor; [|exact Hall].
      unfold stored_id. rewrite Hp. exact Hid.
  - destruct (findIndex id fs) as [j|] eqn:Hj; [|discriminate].
    injection H as <-. destruct (IH j eq_refl) as [Hf Hall].
    split; [exact Hf|]. cbn [take]. constructor; [|exact Hall].
    unfold stored_id. rewrite Hp. discriminate.
Qed.

Lemma findIndex_lt id fs idx :
  findIndex id fs = Some idx -> (idx < length fs)%nat.
Proof.
  intros H. destruct (findIndex_Some id fs idx H) as [[f [Hf _]] _].
  eapply lookup_lt_Some; eauto.
Qed.

Lemma stored_buildings_found w id idx :
  findIndex id (stored_buildings w) = Some idx ->
  exists m, map_current w = Some m
    /\ user_buildings m ≫= features = Some (stored_buildings w).
Proof.
  unfold stored_buildings. destruct (map_current w) as [m|]; [|discriminate].
  change (Some m ≫= user_buildings) with (user_buildings m).
  intros H. exists m. split; [reflexivity|].
  destruct (user_buildings m ≫= features) as [fs|]; [reflexivity|discriminate].
Qed.

Lemma stored_trees_found w id idx :
  findIndex id (stored_trees w) = Some idx ->
  exists m, map_current w = Some m
    /\ user_trees m ≫= features = Some (stored_trees w).
Proof.
  unfold stored_trees. destruct (map_current w) as [m|]; [|discriminate].
  change (Some m ≫= user_trees) with (user_trees m).
  intros H. exists m. split; [reflexivity|].
  destruct (user_trees m ≫= features) as [fs|]; [reflexivity|discriminate].
Qed.

Lemma removeById_mesh_of id w :
  consistent w -> mesh_of id (removeById id w) = None.
Proof.
  intros (manager & sc & Hm & Hsc & _). unfold removeById, mesh_of.
  rewrite Hm, Hsc. destruct (meshes manager !! id) as [r|] eqn:Hr.
  - cbn. apply lookup_delete_eq.
  - rewrite Hm. cbn. exact Hr.
Qed.

Lemma removeById_mesh_of_ne id id' w :
  id' <> id -> mesh_of id' (removeById id w) = mesh_of id' w.
Proof.
  intros Hne. unfold removeById, mesh_of.
  destruct (threeManagerRef w) as [manager|] eqn:Hm; [|rewrite Hm; reflexivity].
  destruct (meshes manager !! id) as [r|], (scene manager) as [sc|];
    try (rewrite Hm; reflexivity).
  cbn. apply lookup_delete_ne. congruence.
Qed.

Lemma removeById_leaves_scene id w r :
  mesh_of id w = Some r -> r ∉ scene_children (removeById id w).
Proof.
  unfold mesh_of, removeById, scene_children.
  destruct (threeManagerRef w) as [manager|] eqn:Hm; [|discriminate].
  cbn. intros Hr. rewrite Hr.
  destruct (scene manager) as [sc|] eqn:Hsc.
  - cbn. intros Hin. apply list_elem_of_filter in Hin as [Hne _]. congruence.
  - rewrite Hm. cbn. rewrite Hsc. cbn. apply not_elem_of_nil.
Qed.

Lemma deleteSelected_building_run (w : World) (id : string) (idx : nat) :
  selected w = Some id ->
  findIndex id (stored_buildings w) = Some idx ->
  deleteSelected w
  = setSelectedId None
      (setBuildingsCount (length (delete idx (stored_buildings w)))
         (saveToStorage_buildings
            {| features := Some (delete idx (stored_buildings w)) |}
            (setData_buildings
               {| features := Some (delete idx (stored_buildings w)) |}
               (removeById id w)))).
Proof.
  intros Hsel Hidx.
  destruct (stored_buildings_found w id idx Hidx) as (m & Hmap & Hfs).
  unfold deleteSelected. rewrite Hmap, Hsel, Hfs, Hidx. reflexivity.
Qed.

(** X10: "Delete Selected" on a selected id that a stored building
    carries, in a consistent scene: the first building with that id (no
    building before it has the id) is taken out of the source, the others
    keep their order; the collection is written to storage, the count
    drops by one, the selection is cleared, the id is left without a mesh
    and its mesh is gone from the scene; the meshes of other ids, the
    trees and the mesh objects stay as they are. *)
Theorem deleteSelected_removes_selected_building
    (w : World) (id : string) (idx : nat) :
  selected w = Some id ->
  findIndex id (stored_buildings w) = Some idx ->
  consistent w ->
  let w' := deleteSelected w in
  stored_buildings w' = delete idx (stored_buildings w)
  /\ (exists f, stored_buildings w !! idx = Some f /\ stored_id f = Some id)
  /\ Forall (fun f => stored_id f <> Some id) (take idx (stored_buildings w))
  /\ USER_BUILDINGS_KEY (localStorage w')
     = Some {| features := Some (stored_buildings w') |}
  /\ buildingsCount (react w') = (length (stored_buildings w) - 1)%nat
  /\ selectedId (react w') = None
  /\ mesh_of id w' = None
  /\ (forall r, mesh_of id w = Some r -> r ∉ scene_children w')
  /\ (forall id', id' <> id -> mesh_of id' w' = mesh_of id' w)
  /\ stored_trees w' = stored_trees w
  /\ heap w' = heap w.
Proof.
  intros Hsel Hidx Hcons w'.
  destruct (stored_buildings_found w id idx Hidx) as (m & Hmap & Hfs).
  destruct (findIndex_Some _ _ _ Hidx) as [Hf Hall].
  pose proof (findIndex_lt _ _ _ Hidx) as Hlt.
  assert (Hw' : w' = setSelectedId None
            (setBuildingsCount (length (delete idx (stored_buildings w)))
               (saveToStorage_buildings
                  {| features := Some (delete idx (stored_buildings w)) |}
                  (setData_buildings
                     {| features := Some (delete idx (stored_buildings w)) |}
                     (removeById id w))))).
  { subst w'. apply deleteSelected_building_run; assumption. }
  pose proof (removeById_same_store id w) as (Hmap1 & Hst1 & Hre1).
  assert (Hsb : stored_buildings w' = delete idx (stored_buildings w)).
  { rewrite Hw'. unfold stored_buildings at 1. cbn.
    unfold setData_buildings. rewrite Hmap1, Hmap. reflexivity. }
  split; [exact Hsb|]. split; [exact Hf|]. split; [exact Hall|].
  split; [rewrite Hsb, Hw'; reflexivity|].
  split.
  { rewrite Hw'. cbn. rewrite length_delete by (apply lookup_lt_is_Some_2; exact Hlt).
    reflexivity. }
  split; [rewrite Hw'; reflexivity|].
  assert (Hmesh : forall i, mesh_of i w' = mesh_of i (removeById id w)).
  { intros i. rewrite Hw'. unfold mesh_of, setData_buildings.
    rewrite Hmap1, Hmap. reflexivity. }
  assert (Hscene : scene_children w' = scene_children (removeById id w)).
  { rewrite Hw'. unfold scene_children, setData_buildings.
    rewrite Hmap1, Hmap. reflexivity. }
  split; [rewrite Hmesh; apply removeById_mesh_of; exact Hcons|].
  split; [intros r Hr; rewrite Hscene; apply removeById_leaves_scene; exact Hr|].
  split; [intros id' Hne; rewrite Hmesh; apply removeById_mesh_of_ne; exact Hne|].
  split.
  - rewrite Hw'. unfold stored_trees, setData_buildings.
    rewrite Hmap1, Hmap. reflexivity.
  - rewrite Hw'. unfold setData_buildings. rewrite Hmap1, Hmap. cbn.
    unfold removeById. destruct (threeManagerRef w) as [mg|]; [|reflexivity].
    destruct (meshes mg !! id), (scene mg); reflexivity.
Qed.

(** X11: "Delete Selected" on an id that no stored building carries
    but a stored tree does: the first tree with that id is taken out, the
    trees are written to storage, the tree count drops by one and the
    selection is cleared; the buildings (source, storage, count), the
    manager and the mesh objects are left alone. *)
Theorem deleteSelected_removes_selected_tree
    (w : World) (id : string) (idx : nat) :
  selected w = Some id ->
  findIndex id (stored_buildings w) = None ->
  findIndex id (stored_trees w) = Some idx ->
  let w' := deleteSelected w in
  stored_trees w' = delete idx (stored_trees w)
  /\ (exists f, stored_trees w !! idx = Some f /\ stored_id f = Some id)
  /\ USER_TREES_KEY (localStorage w') = Some {| features := Some (stored_trees w') |}
  /\ treesCount (react w') = (length (stored_trees w) - 1)%nat
  /\ selectedId (react w') = None
  /\ (map_current w' ≫= user_buildings) = (map_current w ≫= user_buildings)
  /\ USER_BUILDINGS_KEY (localStorage w') = USER_BUILDINGS_KEY (localStorage w)
  /\ buildingsCount (react w') = buildingsCount (react w)
  /\ threeManagerRef w' = threeManagerRef w
  /\ heap w' = heap w.
Proof.
  intros Hsel Hb Hidx w'.
  destruct (stored_trees_found w id idx Hidx) as (m & Hmap & Hfs).
  destruct (findIndex_Some _ _ _ Hidx) as [Hf _].
  pose proof (findIndex_lt _ _ _ Hidx) as Hlt.
  assert (Hw' : w' = setSelectedId None
            (setTreesCount (length (delete idx (stored_trees w)))
               (saveToStorage_trees
                  {| features := Some (delete idx (stored_trees w)) |}
                  (setData_trees
                     {| features := Some (delete idx (stored_trees w)) |} w)))).
  { subst w'. unfold deleteSelected. rewrite Hmap, Hsel.
    unfold stored_buildings in Hb. rewrite Hmap in Hb.
    change (Some m ≫= user_buildings) with (user_buildings m) in Hb.
    destruct (user_buildings m ≫= features) as [fs|].
    - change (default [] (Some fs)) with fs in Hb. rewrite Hb.
      unfold deleteSelected_tree. rewrite Hfs, Hidx. reflexivity.
    - unfold deleteSelected_tree. rewrite Hfs, Hidx. reflexivity. }
  assert (Hst : stored_trees w' = delete idx (stored_trees w)).
  { rewrite Hw'. unfold stored_trees at 1. cbn.
    unfold setData_trees. rewrite Hmap. reflexivity. }
  split; [exact Hst|]. split; [exact Hf|].
  split; [rewrite Hst, Hw'; reflexivity|].
  split.
  { rewrite Hw'. cbn. rewrite length_delete by (apply lookup_lt_is_Some_2; exact Hlt).
    reflexivity. }
  rewrite Hw'. unfold setData_trees. rewrite Hmap.
  repeat split; reflexivity.
Qed.

(** X12: "Delete Selected" changes nothing at all when nothing is
    selected or when neither a stored building nor a stored tree carries
    the selected id (the selection stays, too). *)
Theorem deleteSelected_without_match_changes_nothing (w : World) :
  (forall id, selected w = Some id ->
     findIndex id (stored_buildings w) = None
     /\ findIndex id (stored_trees w) = None) ->
  deleteSelected w = w.
Proof.
  intros H. unfold deleteSelected.
  destruct (map_current w) as [m|] eqn:Hmap; [|reflexivity].
  destruct (selected w) as [id|]; [|reflexivity].
  destruct (H id eq_refl) as [Hb Ht].
  unfold stored_buildings in Hb. unfold stored_trees in Ht.
  rewrite Hmap in Hb, Ht.
  change (Some m ≫= user_buildings) with (user_buildings m) in Hb.
  change (Some m ≫= user_trees) with (user_trees m) in Ht.
  assert (Htree : deleteSelected_tree id m w = w).
  { unfold deleteSelected_tree.
    destruct (user_trees m ≫= features) as [fs|]; [|reflexivity].
    change (default [] (Some fs)) with fs in Ht. rewrite Ht. reflexivity. }
  destruct (user_buildings m ≫= features) as [fs|]; [|exact Htree].
  change (default [] (Some fs)) with fs in Hb. rewrite Hb. exact Htree.
Qed.

Ltac layer_done Hmap :=
  cbn; rewrite ?Hmap; cbn; rewrite ?Hmap; repeat split; reflexivity.

(** X13: the handlers of the trees never touch the three layer or the
    buildings: after adding a tree, "Clear Trees" and an import into the
    trees source, the manager, the mesh objects, the queued animation
    closures, the buildings source, its storage key and the building
    count are what they were. *)
Theorem tree_handlers_leave_buildings_and_layer
    (host : Host) (w : World) (feat : Feature) (parsed : FeatureCollection) :
  (same_layer w (exec (appendTreeFeature feat) w)
   /\ same_buildings w (exec (appendTreeFeature feat) w))
  /\ (same_layer w (clearTrees w) /\ same_buildings w (clearTrees w))
  /\ (same_layer w (exec (importGeoJSON host (Some parsed) UserTrees) w)
      /\ same_buildings w (exec (importGeoJSON host (Some parsed) UserTrees) w)).
Proof.
  unfold same_layer, same_buildings.
  split; [|split].
  - unfold appendTreeFeature. run_handler.
    destruct (map_current w) as [m|] eqn:Hmap; [|layer_done Hmap].
    destruct (user_trees m) as [cur|]; [|layer_done Hmap].
    destruct (p_id (default no_properties (properties feat)));
      unfold setData_trees; layer_done Hmap.
  - unfold clearTrees.
    destruct (map_current w) as [m|] eqn:Hmap; [|layer_done Hmap].
    destruct (user_trees m) as [cur|]; [|layer_done Hmap].
    unfold setData_trees. layer_done Hmap.
  - unfold importGeoJSON. run_handler.
    destruct (map_current w) as [m|] eqn:Hmap; [|layer_done Hmap].
    destruct (user_trees m) as [cur|]; [|layer_done Hmap].
    unfold setData_trees. cbn. rewrite Hmap.
    destruct (threeManagerRef w) eqn:Hmg; cbn; rewrite ?Hmg; layer_done Hmap.
Qed.

(** ** Unmount and import *)

(** X14: after the cleanup on unmount no id has a mesh and the scene
    is gone; every handler returns at once and leaves the state as it is
    (adding, deleting, clearing, importing, rotating, updating), as do
    [removeById], [updateHeight] and the render callback; a placement
    timeout that fires afterwards only leaves the timeout queue. *)
Theorem unmount_disables_handlers
    (host : Host) (w : World) (feat : Feature) (animateHeight : bool)
    (parsed : option FeatureCollection) (sourceId : SourceId)
    (deltaDeg heightMeters t : num) (updates : Properties) (id : string)
    (matrix : list num) :
  let w' := unmount w in
  (forall id, mesh_of id w' = None)
  /\ scene_children w' = []
  /\ exec (appendBuildingFeature host feat animateHeight) w' = w'
  /\ exec (appendTreeFeature feat) w' = w'
  /\ deleteSelected w' = w'
  /\ clearBuildings w' = w'
  /\ clearTrees w' = w'
  /\ exec (importGeoJSON host parsed sourceId) w' = w'
  /\ exec (rotateSelectedBuilding host deltaDeg) w' = w'
  /\ exec (updateSelectedBuildingProps updates) w' = w'
  /\ removeById id w' = w'
  /\ updateHeight id heightMeters w' = w'
  /\ render host matrix t w' = w'
  /\ same_store w' (exec fire_timeout w')
  /\ same_layer w' (exec fire_timeout w')
  /\ timeouts (window (exec fire_timeout w')) = tail (timeouts (window w)).
Proof.
  intros w'. subst w'. unfold unmount, dispose.
  destruct (threeManagerRef w) as [manager|] eqn:Hm.
  all: repeat split; try reflexivity.
  all: try (unfold mesh_of, scene_children, removeById, updateHeight, render;
            cbn; rewrite ?Hm; reflexivity).
  all: unfold fire_timeout, exec; cbn;
    destruct (timeouts (window w)) as [|t0 rest] eqn:Ht;
    cbn; rewrite ?Ht; try reflexivity.
  all: unfold height_timeout; run_handler; unfold updateHeight; cbn;
    rewrite ?Hm, ?lookup_empty; cbn; rewrite ?Ht, ?Hm; reflexivity.
Qed.

(** X16: an import whose file does not parse, or whose source is
    missing from the map, changes nothing but the error message, which
    becomes "Invalid GeoJSON"; without a map nothing changes at all. *)
Theorem importGeoJSON_failure_only_sets_error
    (host : Host) (w : World) (parsed : option FeatureCollection)
    (sourceId : SourceId) :
  (parsed = None
   \/ match sourceId with
      | UserBuildings => map_current w ≫= user_buildings
      | UserTrees => map_current w ≫= user_trees
      end = None) ->
  exec (importGeoJSON host parsed sourceId) w
  = match map_current w with
    | Some _ => setError (Some "Invalid GeoJSON") w
    | None => w
    end.
Proof.
  intros H. unfold importGeoJSON. run_handler.
  destruct (map_current w) as [m|] eqn:Hmap; [|reflexivity].
  destruct H as [->|H]; [reflexivity|].
  destruct parsed as [p|]; [|reflexivity].
  destruct sourceId; cbn in H; rewrite H; reflexivity.
Qed.

Lemma unregister_manager id w manager :
  threeManagerRef w = Some manager ->
  exists manager0,
    threeManagerRef (unregister id w) = Some manager0
    /\ forall id', id' <> id -> meshes manager0 !! id' = meshes manager !! id'.
Proof.
  intros Hm. unfold unregister. rewrite Hm.
  destruct (meshes manager !! id); cbn; [|rewrite Hm; eauto].
  eexists. split; [reflexivity|]. intros id' Hne. cbn.
  apply lookup_delete_ne. congruence.
Qed.

Lemma with_feature_id_manager feat w :
  threeManagerRef (with_feature_id feat w) = threeManagerRef w.
Proof. unfold with_feature_id. destruct (properties feat ≫= p_id); reflexivity. Qed.

(** A buildable feature gets a mesh under its id, and the ids registered
    before stay registered. *)
Lemma addMeshForFeature_buildable host feat w manager :
  threeManagerRef w = Some manager ->
  buildable feat ->
  completes (addMeshForFeature host feat) w = true
  /\ is_Some (mesh_of (feature_id feat w) (exec (addMeshForFeature host feat) w))
  /\ (forall id', is_Some (mesh_of id' w) ->
        is_Some (mesh_of id' (exec (addMeshForFeature host feat) w)))
  /\ is_Some (threeManagerRef (exec (addMeshForFeature host feat) w)).
Proof.
  intros Hm (ring & Hring & Hall).
  unfold exec, completes.
  rewrite (addMeshForFeature_run host feat w manager Hm). cbv zeta.
  set (id := feature_id feat w).
  destruct (built_mesh_defined host feat id ring Hring Hall) as (built & _ & ->).
  cbn [fst snd].
  destruct (unregister_manager id (with_feature_id feat w) manager)
    as (manager0 & Hm0 & Hother).
  { rewrite with_feature_id_manager. exact Hm. }
  unfold register. rewrite Hm0. unfold mesh_of. cbn.
  split; [reflexivity|]. split; [rewrite lookup_insert_eq; eauto|].
  split; [|eauto].
  intros id' Hsome. destruct (decide (id' = id)) as [->|Hne].
  - rewrite lookup_insert_eq. eauto.
  - rewrite lookup_insert_ne by congruence. rewrite Hother by exact Hne.
    rewrite Hm in Hsome. exact Hsome.
Qed.

Lemma addMeshes_buildable host (fs : list Feature) : forall w,
  is_Some (threeManagerRef w) ->
  Forall (fun f => is_Some (stored_id f) /\ buildable f) fs ->
  let w' := exec (addMeshes host fs) w in
  (forall id, is_Some (mesh_of id w) -> is_Some (mesh_of id w'))
  /\ Forall (fun f => exists id, stored_id f = Some id /\ is_Some (mesh_of id w')) fs.
Proof.
  induction fs as [|f fs IH]; intros w [manager Hm] Hall; cbv zeta.
  - split; [auto|constructor].
  - apply Forall_cons in Hall as [[[id Hid] Hb] Hall].
    destruct (addMeshForFeature_buildable host f w manager Hm Hb)
      as (Hdone & Hnew & Hold & Hm1).
    assert (Hrun : exec (addMeshes host (f :: fs)) w
                   = exec (addMeshes host fs) (exec (addMeshForFeature host f) w)).
    { unfold exec, completes in *. cbn [addMeshes]. run_handler.
      destruct (addMeshForFeature host f w) as [[[]|] w1];
        [reflexivity|discriminate]. }
    rewrite Hrun.
    destruct (IH _ Hm1 Hall) as [Hkeep Hfs]. cbv zeta in Hkeep, Hfs.
    split; [intros id' Hsome; apply Hkeep, Hold, Hsome|].
    constructor; [|exact Hfs].
    exists id. split; [exact Hid|]. apply Hkeep.
    unfold feature_id in Hnew. unfold stored_id in Hid. rewrite Hid in Hnew.
    exact Hnew.
Qed.


(** ** The course of an animation *)

Lemma is_fin_Fin (q : Q) : is_fin (Fin q) q.
Proof. exists q. split; reflexivity. Qed.

Lemma is_fin_fin (q q0 : Q) : (q == q0)%Q -> is_fin (fin q) q0.
Proof. intros H. exists (Qred q). split; [reflexivity|]. rewrite Qred_correct. exact H. Qed.

Lemma is_fin_nz (z : Z) : is_fin (nz z) (inject_Z z).
Proof. apply is_fin_Fin. Qed.

Lemma is_fin_nadd a b x y :
  is_fin a x -> is_fin b y -> is_fin (nadd a b) (x + y).
Proof.
  intros (x' & -> & Hx) (y' & -> & Hy). apply is_fin_fin.
  rewrite Hx, Hy. reflexivity.
Qed.

Lemma is_fin_nneg a x : is_fin a x -> is_fin (nneg a) (- x).
Proof. intros (x' & -> & Hx). apply is_fin_fin. rewrite Hx. reflexivity. Qed.

Lemma is_fin_nsub a b x y :
  is_fin a x -> is_fin b y -> is_fin (nsub a b) (x - y).
Proof. intros Ha Hb. apply is_fin_nadd; [exact Ha|apply is_fin_nneg, Hb]. Qed.

Lemma is_fin_nmul a b x y :
  is_fin a x -> is_fin b y -> is_fin (nmul a b) (x * y).
Proof.
  intros (x' & -> & Hx) (y' & -> & Hy). apply is_fin_fin.
  rewrite Hx, Hy. reflexivity.
Qed.

Lemma is_fin_ncube a x : is_fin a x -> is_fin (ncube a) (x * x * x).
Proof. intros Ha. unfold ncube. repeat apply is_fin_nmul; exact Ha. Qed.

Lemma Qis0_eq (q : Q) : Qis0 q = true <-> (q == 0)%Q.
Proof.
  unfold Qis0, Qeq. cbn [Qnum Qden]. rewrite Z.eqb_eq. lia.
Qed.

Lemma is_fin_ndiv a b x y :
  is_fin a x -> is_fin b y -> ~ (y == 0)%Q -> is_fin (ndiv a b) (x / y).
Proof.
  intros (x' & -> & Hx) (y' & -> & Hy) Hne. cbn [ndiv].
  destruct (Qis0 y') eqn:E.
  - apply Qis0_eq in E. rewrite Hy in E. contradiction.
  - apply is_fin_fin. rewrite Hx, Hy. reflexivity.
Qed.

Lemma Qltb_spec (x y : Q) : Qltb x y = true <-> (x < y)%Q.
Proof. unfold Qltb, Qlt. apply Z.ltb_lt. Qed.

Lemma nlt_is_fin a b x y :
  is_fin a x -> is_fin b y -> (nlt a b = true <-> (x < y)%Q).
Proof.
  intros (x' & -> & Hx) (y' & -> & Hy). cbn [nlt].
  rewrite Qltb_spec, Hx, Hy. reflexivity.
Qed.

Lemma nlt_is_fin_false a b x y :
  is_fin a x -> is_fin b y -> (nlt a b = false <-> (y <= x)%Q).
Proof.
  intros Ha Hb. pose proof (nlt_is_fin a b x y Ha Hb) as H.
  destruct (nlt a b).
  - split; [discriminate|]. intros Hle. apply proj1 in H.
    specialize (H eq_refl). lra.
  - split; [|reflexivity]. intros _.
    destruct (Qlt_le_dec x y) as [Hlt|Hle]; [|exact Hle].
    apply H in Hlt. discriminate.
Qed.

Lemma nmin_lower a b x y :
  is_fin a x -> is_fin b y -> (y < x)%Q -> nmin a b = b.
Proof.
  intros Ha Hb Hlt. pose proof (proj2 (nlt_is_fin b a y x Hb Ha) Hlt) as H.
  destruct Ha as (x' & -> & _), Hb as (y' & -> & _).
  unfold nmin. rewrite H. reflexivity.
Qed.

Lemma nmin_upper a b x y :
  is_fin a x -> is_fin b y -> (x <= y)%Q -> nmin a b = a.
Proof.
  intros Ha Hb Hle. pose proof (proj2 (nlt_is_fin_false b a y x Hb Ha) Hle) as H.
  destruct Ha as (x' & -> & _), Hb as (y' & -> & _).
  unfold nmin. rewrite H. reflexivity.
Qed.

Lemma anim_t_progress (a : Anim) (now : num) (s d n : Q) :
  anim_start a = Fin s -> anim_dur a = Fin d -> now = Fin n ->
  (0 < d)%Q ->
  is_fin (anim_t a now) (progress_at s d n)
  /\ (nlt (anim_t a now) (nz 1) = true <-> (n < s + d)%Q).
Proof.
  intros Hs Hd -> Hpos. unfold anim_t. rewrite Hs, Hd.
  assert (Hq : is_fin (ndiv (nsub (Fin n) (Fin s)) (Fin d)) ((n - s) / d)).
  { apply is_fin_ndiv; [apply is_fin_nsub; apply is_fin_Fin|apply is_fin_Fin|lra]. }
  assert (Hiff : ((n - s) / d < 1 <-> n < s + d)%Q).
  { split; intros H.
    - apply (Qmult_lt_r _ _ d Hpos) in H.
      rewrite Qmult_1_l in H. unfold Qdiv in H.
      rewrite <- Qmult_assoc, (Qmult_comm (/ d)), Qmult_inv_r, Qmult_1_r in H by lra.
      lra.
    - apply (Qmult_lt_r _ _ d Hpos).
      rewrite Qmult_1_l. unfold Qdiv.
      rewrite <- Qmult_assoc, (Qmult_comm (/ d)), Qmult_inv_r, Qmult_1_r by lra.
      lra. }
  unfold progress_at. destruct (Qlt_le_dec ((n - s) / d) 1) as [Hlt|Hle].
  - rewrite (nmin_lower (nz 1) _ 1 ((n - s) / d) (is_fin_nz 1) Hq Hlt).
    split; [exact Hq|].
    rewrite (nlt_is_fin _ _ _ _ Hq (is_fin_nz 1)). exact Hiff.
  - rewrite (nmin_upper (nz 1) _ 1 ((n - s) / d) (is_fin_nz 1) Hq Hle).
    split; [apply is_fin_nz|].
    rewrite nlt_irrefl. split; [discriminate|].
    intros H. apply Hiff in H. lra.
Qed.

Lemma progress_range (s d n : Q) :
  (0 < d)%Q -> (s <= n)%Q -> (0 <= progress_at s d n <= 1)%Q.
Proof.
  intros Hd Hn. unfold progress_at.
  destruct (Qlt_le_dec ((n - s) / d) 1) as [Hlt|Hle]; [|lra].
  split; [|lra]. unfold Qdiv. apply Qmult_le_0_compat; [lra|].
  apply Qinv_le_0_compat. lra.
Qed.

Lemma cube_range (u : Q) : (0 <= u <= 1)%Q -> (0 <= u * u * u <= 1)%Q.
Proof.
  intros [H0 H1].
  assert (H2 : (0 <= u * u <= 1)%Q) by (split; nra).
  destruct H2 as [H2 H3]. generalize dependent (u * u)%Q. intros v H2 H3.
  split; nra.
Qed.

Lemma cube_mono (u u' : Q) :
  (0 <= u')%Q -> (u' <= u)%Q -> (u' * u' * u' <= u * u * u)%Q.
Proof.
  intros H0 H1.
  assert (H2 : (0 <= u' * u')%Q) by nra.
  assert (H3 : (u' * u' <= u * u)%Q) by nra.
  generalize dependent (u' * u')%Q. intros v' H2 H3.
  assert (H4 : (0 <= u * u)%Q) by nra.
  generalize dependent (u * u)%Q. intros v H3 H4.
  nra.
Qed.

Lemma eased_range (t : Q) : (0 <= t <= 1)%Q -> (0 <= eased t <= 1)%Q.
Proof.
  intros [H0 H1]. unfold eased.
  pose proof (cube_range (1 - t)) as H. lra.
Qed.

Lemma eased_mono (t t' : Q) :
  (t <= t')%Q -> (t' <= 1)%Q -> (eased t <= eased t')%Q.
Proof.
  intros H1 H2. unfold eased.
  pose proof (cube_mono (1 - t) (1 - t')) as H. lra.
Qed.

Lemma is_fin_easeOutCubic (t : num) (q : Q) :
  is_fin t q -> is_fin (easeOutCubic t) (eased q).
Proof.
  intros Ht. unfold easeOutCubic, eased.
  apply is_fin_nsub; [apply is_fin_nz|].
  apply is_fin_ncube, is_fin_nsub; [apply is_fin_nz|exact Ht].
Qed.

Lemma anim_writes_value (a : Anim) (now : num) (w : World) (mesh : Mesh) :
  heap w !! anim_mesh a = Some mesh ->
  heap (anim a now w) !! anim_mesh a
  = Some (with_scale_z (anim_value a now) mesh).
Proof.
  intros Hmesh. unfold anim, anim_value, write_mesh, requestAnimationFrame.
  destruct (nlt (anim_t a now) (nz 1));
    cbn [heap with_heap with_window window];
    rewrite !list_lookup_alter_eq, Hmesh; reflexivity.
Qed.

Lemma progress_mono (s d n n' : Q) :
  (0 < d)%Q -> (n <= n')%Q -> (progress_at s d n <= progress_at s d n')%Q.
Proof.
  intros Hd Hn.
  assert (H : ((n - s) / d <= (n' - s) / d)%Q).
  { unfold Qdiv. apply Qmult_le_compat_r; [lra|].
    apply Qinv_le_0_compat. lra. }
  unfold progress_at.
  destruct (Qlt_le_dec ((n - s) / d) 1), (Qlt_le_dec ((n' - s) / d) 1); lra.
Qed.

Lemma progress_done (s d n : Q) :
  (0 < d)%Q -> (s + d <= n)%Q -> progress_at s d n = 1%Q.
Proof.
  intros Hd Hn. unfold progress_at.
  destruct (Qlt_le_dec ((n - s) / d) 1) as [Hlt|]; [|reflexivity].
  exfalso. apply (Qmult_lt_r _ _ d Hd) in Hlt.
  rewrite Qmult_1_l in Hlt. unfold Qdiv in Hlt.
  rewrite <- Qmult_assoc, (Qmult_comm (/ d)), Qmult_inv_r, Qmult_1_r in Hlt by lra.
  lra.
Qed.

Lemma anim_value_eased (a : Anim) (s d n f g : Q) :
  anim_start a = Fin s -> anim_dur a = Fin d ->
  anim_from a = Fin f -> anim_to a = Fin g ->
  anim_final a = anim_to a ->
  (0 < d)%Q ->
  is_fin (anim_value a (Fin n)) (f + (g - f) * eased (progress_at s d n))
  /\ ((s + d <= n)%Q -> anim_value a (Fin n) = anim_to a).
Proof.
  intros Hs Hd Hf Hg Hfinal Hpos.
  destruct (anim_t_progress a (Fin n) s d n Hs Hd eq_refl Hpos) as [Ht Hlt].
  unfold anim_value.
  destruct (nlt (anim_t a (Fin n)) (nz 1)) eqn:E.
  - split.
    + rewrite Hf, Hg. apply is_fin_nadd; [apply is_fin_Fin|].
      apply is_fin_nmul; [apply is_fin_nsub; apply is_fin_Fin|].
      apply is_fin_easeOutCubic, Ht.
    + intros Hn. apply proj1 in Hlt. specialize (Hlt eq_refl). lra.
  - split; [|intros _; exact Hfinal].
    rewrite Hfinal, Hg. exists g. split; [reflexivity|].
    rewrite progress_done; [unfold eased; ring|exact Hpos|].
    destruct (Qlt_le_dec n (s + d)) as [H|H]; [|exact H].
    apply Hlt in H. discriminate.
Qed.


(** ** Placing a building *)

Lemma appendBuildingFeature_run host feat animateHeight w m cur manager :
  map_current w = Some m ->
  user_buildings m = Some cur ->
  threeManagerRef w = Some manager ->
  let id := feature_id feat w in
  let feat' := placed_feature feat id animateHeight in
  let w1 := with_placed_feature feat' cur (with_feature_id feat w) in
  appendBuildingFeature host feat animateHeight w
  = match addMeshForFeature host feat' w1 with
    | (Normal _, w2) =>
        (Normal tt,
         if animateHeight then
           setTimeout
             {| timeout_id := id;
                timeout_targetHeight :=
                  ndefault (properties feat ≫= p_height)
                           (buildingHeight (react w));
                timeout_delay := nz 450 |} w2
         else w2)
    | (Thrown, w2) => (Thrown, w2)
    end.
Proof.
  intros Hmap Hsrc Hm. cbv zeta.
  unfold appendBuildingFeature, feature_id, with_feature_id, placed_feature,
    with_placed_feature.
  remember (addMeshForFeature host) as add eqn:Hadd.
  run_handler. rewrite Hmap, Hsrc.
  destruct (properties feat) as [p|]; [destruct (p_id p) as [i|] eqn:Hp|].
  all: cbn; rewrite ?Hp; cbn; unfold setData_buildings; cbn; rewrite Hmap;
    cbn; rewrite Hm; destruct animateHeight;
    (match goal with
     | _ : ?a = addMeshForFeature _ |- context [?a ?f ?w0] =>
         destruct (a f w0) as [[[]|] w3]
     end); reflexivity.
Qed.

Lemma height_in_merc_zero (p : MeterProp) :
  truthy (height_in_merc (nz 0) p) = false.
Proof.
  destruct p as [|[y| | |]|]; try reflexivity.
  cbn [height_in_merc ndiv nz zq inject_Z].
  destruct (Qis0 y); [reflexivity|].
  unfold fin. cbn [truthy]. rewrite Qis0_Qred. reflexivity.
Qed.

Lemma extrusion_depth_zero host (ring : list Position) (d : num) :
  extrusion_depth host ring (nz 0) = Some d -> d = nz 1.
Proof.
  unfold extrusion_depth.
  destruct (polygonCentroidCoords ring) as [[cx cy]|]; [|discriminate].
  intros [= <-]. unfold nor at 2. rewrite height_in_merc_zero. reflexivity.
Qed.

(** The mesh of a feature stored with height 0 is extruded to the
    fall-back depth 1. *)
Lemma built_mesh_zero host feat id :
  properties feat ≫= p_height = Some (nz 0) ->
  buildable feat ->
  exists mesh,
    built_mesh host feat id = Some mesh
    /\ extrude_depth mesh = nz 1
    /\ scale_z mesh = nz 1
    /\ userData_heightMeters mesh = Some (nz 0)
    /\ userData_id mesh = Some id.
Proof.
  intros Hh (ring & Hring & Hall).
  destruct (built_mesh_defined host feat id ring Hring Hall)
    as (built & Hbuilt & ->).
  eexists. split; [reflexivity|]. rewrite Hh in *.
  change (ndefault (Some (nz 0)) (nz 10)) with (nz 0) in *.
  unfold buildMeshFromPolygon in Hbuilt.
  destruct (mercCoords host ring); [|discriminate].
  destruct (extrusion_depth host ring (nz 0)) as [d|] eqn:Hd; [|discriminate].
  apply extrusion_depth_zero in Hd as ->.
  injection Hbuilt as <-. repeat split.
Qed.

Lemma unregister_layer id w :
  heap (unregister id w) = heap w
  /\ window (unregister id w) = window w
  /\ same_store w (unregister id w).
Proof.
  unfold unregister, same_store.
  destruct (threeManagerRef w) as [manager|]; [|repeat split].
  destruct (meshes manager !! id); repeat split.
Qed.

Lemma register_layer id mesh w manager :
  threeManagerRef w = Some manager ->
  let w' := register id mesh w in
  mesh_of id w' = Some (length (heap w))
  /\ heap w' = heap w ++ [with_scale_z (Fin (1 # 1000)) mesh]
  /\ animationFrames (window w')
     = animationFrames (window w)
       ++ [{| anim_kind := Rise; anim_mesh := length (heap w);
              anim_start := performance_now (window w);
              anim_dur := nz 700; anim_from := Fin (1 # 1000);
              anim_to := nz 1 |}]
  /\ timeouts (window w') = timeouts (window w)
  /\ performance_now (window w') = performance_now (window w)
  /\ same_store w w'.
Proof.
  intros Hm. cbv zeta. unfold register, mesh_of, same_store. rewrite Hm.
  unfold requestAnimationFrame, write_mesh.
  cbn [threeManagerRef heap window animationFrames with_heap with_window
         with_manager mbind option_bind meshes performance_now timeouts
         map_current localStorage react].
  rewrite alter_last, lookup_insert_eq. repeat split.
Qed.

Lemma placed_state host feat w m cur manager :
  map_current w = Some m ->
  user_buildings m = Some cur ->
  threeManagerRef w = Some manager ->
  buildable feat ->
  let id := feature_id feat w in
  let w1 := exec (appendBuildingFeature host feat true) w in
  exists mesh,
    mesh_of id w1 = Some (length (heap w))
    /\ heap w1 = heap w ++ [mesh]
    /\ extrude_depth mesh = nz 1
    /\ scale_z mesh = Fin (1 # 1000)
    /\ userData_heightMeters mesh = Some (nz 0)
    /\ animationFrames (window w1)
       = animationFrames (window w)
         ++ [{| anim_kind := Rise; anim_mesh := length (heap w);
                anim_start := performance_now (window w);
                anim_dur := nz 700; anim_from := Fin (1 # 1000);
                anim_to := nz 1 |}]
    /\ timeouts (window w1)
       = timeouts (window w)
         ++ [{| timeout_id := id;
                timeout_targetHeight :=
                  ndefault (properties feat ≫= p_height)
                           (buildingHeight (react w));
                timeout_delay := nz 450 |}].
Proof.
  intros Hmap Hsrc Hm Hb. cbv zeta. unfold exec.
  rewrite (appendBuildingFeature_run host feat true w m cur manager Hmap Hsrc Hm).
  cbv zeta.
  set (id := feature_id feat w).
  set (feat' := placed_feature feat id true).
  set (w0 := with_placed_feature feat' cur (with_feature_id feat w)).
  assert (Hm0 : threeManagerRef w0 = Some manager).
  { subst w0. unfold with_placed_feature, setData_buildings, with_feature_id.
    destruct (properties feat ≫= p_id); cbn; rewrite Hmap; cbn; exact Hm. }
  assert (Hheap0 : heap w0 = heap w).
  { subst w0. unfold with_placed_feature, setData_buildings, with_feature_id.
    destruct (properties feat ≫= p_id); cbn; rewrite Hmap; reflexivity. }
  assert (Hwin0 : animationFrames (window w0) = animationFrames (window w)
                  /\ timeouts (window w0) = timeouts (window w)
                  /\ performance_now (window w0) = performance_now (window w)).
  { subst w0. unfold with_placed_feature, setData_buildings, with_feature_id.
    destruct (properties feat ≫= p_id); cbn; rewrite Hmap; repeat split. }
  destruct Hwin0 as (Hq0 & Ht0 & Hn0).
  rewrite (addMeshForFeature_run host feat' w0 manager Hm0). cbv zeta.
  assert (Hid' : feature_id feat' w0 = id) by reflexivity.
  assert (Hw0' : with_feature_id feat' w0 = w0) by reflexivity.
  rewrite Hid', Hw0'.
  destruct (built_mesh_zero host feat' id) as (mesh & -> & Hd & Hs & Hh & _).
  { reflexivity. }
  { destruct Hb as (ring & Hring & Hall). exists ring. split; assumption. }
  cbn [snd].
  destruct (unregister_manager id w0 manager Hm0) as (manager1 & Hm1 & _).
  destruct (unregister_layer id w0) as (Hheap1 & Hwin1 & _).
  destruct (register_layer id mesh (unregister id w0) manager1 Hm1)
    as (Hmesh & Hheap & Hq & Ht & Hn & _).
  rewrite Hheap1, Hwin1 in *.
  exists (with_scale_z (Fin (1 # 1000)) mesh).
  split; [rewrite <- Hheap0; exact Hmesh|].
  split; [cbn [setTimeout heap with_window]; rewrite Hheap, Hheap0; reflexivity|].
  split; [exact Hd|]. split; [reflexivity|]. split; [exact Hh|].
  unfold setTimeout. cbn [window with_window animationFrames timeouts].
  rewrite Hq, Ht, Hq0, Ht0, Hn0, Hheap0. split; reflexivity.
Qed.

Lemma fire_timeout_layer (w : World) (T : Timeout) (rest : list Timeout)
    (manager : ThreeLayerManager) (r : nat) (mesh : Mesh) :
  timeouts (window w) = T :: rest ->
  threeManagerRef w = Some manager ->
  meshes manager !! timeout_id T = Some r ->
  heap w !! r = Some mesh ->
  let w' := exec fire_timeout w in
  heap w' = alter (with_heightMeters (timeout_targetHeight T)) r (heap w)
  /\ animationFrames (window w')
     = animationFrames (window w)
       ++ [height_task r mesh (timeout_targetHeight T)
             (performance_now (window w))]
  /\ timeouts (window w') = rest
  /\ threeManagerRef w' = threeManagerRef w.
Proof.
  intros Ht Hm Hid Hr. cbv zeta. unfold exec, fire_timeout. rewrite Ht.
  unfold height_timeout. run_handler. unfold updateHeight.
  cbn [threeManagerRef with_window heap]. rewrite Hm, Hid.
  cbn [mbind option_bind]. rewrite Hr.
  cbn [fmap option_fmap option_map].
  unfold requestAnimationFrame, write_mesh, height_task.
  cbn [map_current with_window with_heap window].
  destruct (map_current w) as [m|] eqn:Hmap; [|cbn; rewrite ?Hm; repeat split].
  cbn [mbind option_bind].
  destruct (user_buildings m) as [cur|]; [|cbn; rewrite ?Hm; repeat split].
  destruct (features cur) as [fs|]; [|cbn; rewrite ?Hm; repeat split].
  destruct (findIndex (timeout_id T) fs) as [idx|];
    [|cbn; rewrite ?Hm; repeat split].
  unfold setData_buildings, saveToStorage_buildings.
  cbn [map_current with_window with_heap window]. rewrite Hmap.
  cbn. rewrite ?Hm. repeat split.
Qed.

Lemma target_scale_from_zero (mesh : Mesh) (r : nat) (start : num) (q : Q) :
  userData_heightMeters mesh = Some (nz 0) ->
  ~ (q == 0)%Q ->
  anim_to (height_task r mesh (Fin q) start) = nz 1.
Proof.
  intros Hh Hq. unfold height_task. cbn [anim_to]. rewrite Hh.
  change (ndefault (Some (nz 0)) (Fin q)) with (nz 0).
  change (nor (nz 0) (Fin q)) with (Fin q).
  rewrite (nor_truthy (Fin q)) by (apply truthy_Fin, Qis0_false, Hq).
  rewrite ndiv_fin by (apply Qis0_false, Hq).
  unfold fin, nz, zq. f_equal.
  rewrite (Qred_complete (q / q) 1); [reflexivity|]. field. exact Hq.
Qed.

Lemma anim_done (a : Anim) (now : num) (w : World) :
  nlt (anim_t a now) (nz 1) = false ->
  heap (anim a now w)
  = alter (with_scale_z (anim_final a)) (anim_mesh a) (heap w)
  /\ window (anim a now w) = window w.
Proof.
  intros Hdone. unfold anim. rewrite Hdone. unfold write_mesh.
  cbn [heap with_heap window]. split; [|reflexivity].
  rewrite list_alter_alter_eq. apply list_alter_ext; [|reflexivity].
  intros x _. reflexivity.
Qed.


(** ** Property updates *)

Lemma find_findIndex id (fs : list Feature) :
  List.find (has_id id) fs = findIndex id fs ≫= (fun idx => fs !! idx).
Proof.
  induction fs as [|f fs IH]; [reflexivity|].
  cbn [List.find findIndex]. destruct (has_id id f); [reflexivity|].
  rewrite IH. destruct (findIndex id fs); reflexivity.
Qed.

Lemma findIndex_alter id (g : Feature -> Feature) (fs : list Feature) :
  (forall f, has_id id f = true -> has_id id (g f) = true) ->
  forall idx, findIndex id fs = Some idx ->
  findIndex id (alter g idx fs) = Some idx.
Proof.
  intros Hg. induction fs as [|f fs IH]; intros idx H; [discriminate|].
  cbn [findIndex] in H. destruct (has_id id f) eqn:Hf.
  - injection H as <-. cbn. rewrite (Hg f Hf). reflexivity.
  - destruct (findIndex id fs) as [j|] eqn:Hj; [|discriminate].
    injection H as <-. cbn. rewrite Hf. rewrite (IH j eq_refl). reflexivity.
Qed.

Lemma updateHeight_colors id h w r :
  material_color <$> heap (updateHeight id h w) !! r
  = material_color <$> heap w !! r.
Proof.
  unfold updateHeight.
  destruct (threeManagerRef w) as [manager|]; [|reflexivity].
  destruct (meshes manager !! id ≫= _) as [[r0 mesh]|]; [|reflexivity].
  unfold requestAnimationFrame, write_mesh. cbn [heap with_window with_heap].
  destruct (decide (r = r0)) as [->|Hne].
  - rewrite list_lookup_alter_eq. destruct (heap w !! r0); reflexivity.
  - rewrite list_lookup_alter_ne by congruence. reflexivity.
Qed.

(** X18: updating the properties of the selected stored building (the
    update not touching the id) completes and merges the update into the
    properties of the first building with that id: [getSelectedBuildingProps]
    then returns the merged properties, the geometry and every other
    feature are unchanged, the collection is written to storage and the
    React state is untouched.  With a height in the update the colours
    of the meshes are left as they are (also when the update carries a
    colour); without one, a non-empty colour is written to the material
    of the mesh of the building. *)
Theorem updateSelectedBuildingProps_merges_properties
    (w : World) (id : string) (idx : nat) (updates : Properties) :
  selected w = Some id ->
  findIndex id (stored_buildings w) = Some idx ->
  p_id updates = None ->
  let w' := exec (updateSelectedBuildingProps updates) w in
  exists f old,
    stored_buildings w !! idx = Some f
    /\ properties f = Some old
    /\ completes (updateSelectedBuildingProps updates) w = true
    /\ getSelectedBuildingProps w = Normal (Some old)
    /\ getSelectedBuildingProps w' = Normal (Some (merge_properties old updates))
    /\ stored_buildings w'
       = <[idx := {| geometry := geometry f;
                     properties := Some (merge_properties old updates) |}]>
           (stored_buildings w)
    /\ USER_BUILDINGS_KEY (localStorage w')
       = Some {| features := Some (stored_buildings w') |}
    /\ react w' = react w
    /\ (is_Some (p_height updates) ->
        forall r, material_color <$> heap w' !! r = material_color <$> heap w !! r)
    /\ (forall c r mesh,
          p_height updates = None -> p_color updates = Some c -> c <> "" ->
          mesh_of id w = Some r -> heap w !! r = Some mesh ->
          heap w' !! r = Some (with_material_color c mesh)).
Proof.
  intros Hsel Hidx Hnoid. cbv zeta.
  destruct (stored_buildings_found w id idx Hidx) as (m & Hmap & Hfs).
  set (fs := stored_buildings w) in *.
  destruct (user_buildings m) as [cur|] eqn:Hsrc; [|discriminate].
  cbn [mbind option_bind] in Hfs.
  pose proof (find_findIndex id fs) as Hfind. rewrite Hidx in Hfind.
  cbn [mbind option_bind] in Hfind.
  destruct (fs !! idx) as [f|] eqn:Hf;
    [|apply findIndex_lt in Hidx; apply lookup_ge_None in Hf; lia].
  assert (Hhas : has_id id f = true).
  { apply List.find_some in Hfind. apply Hfind. }
  pose proof Hhas as Hhas'.
  unfold has_id in Hhas. destruct (properties f) as [old|] eqn:Hold;
    [|discriminate].
  apply bool_decide_eq_true in Hhas.
  exists f, old. split; [reflexivity|]. split; [exact Hold|].
  set (f' := {| geometry := geometry f;
                properties := Some (merge_properties old updates) |}).
  assert (Hfs' : set_properties_at idx updates fs = <[idx := f']> fs).
  { unfold set_properties_at. rewrite list_insert_alter.
    apply list_alter_ext; [|reflexivity].
    intros x Hx. rewrite Hf in Hx. injection Hx as <-.
    rewrite Hold. reflexivity. }
  assert (Hidx' : findIndex id (<[idx := f']> fs) = Some idx).
  { rewrite list_insert_alter. apply findIndex_alter; [|exact Hidx].
    intros _ _. unfold has_id, f'. cbn [properties merge_properties p_id].
    rewrite Hnoid, Hhas. cbn. apply bool_decide_eq_true. reflexivity. }
  set (cur' := {| features := Some (<[idx := f']> fs) |}).
  set (w1 := saveToStorage_buildings cur' (setData_buildings cur' w)).
  assert (Hw1 : map_current w1
                = Some {| user_buildings := Some cur'; user_trees := user_trees m;
                          repaints := repaints m |}
                /\ localStorage w1
                   = {| USER_BUILDINGS_KEY := Some cur';
                        USER_TREES_KEY := USER_TREES_KEY (localStorage w) |}
                /\ react w1 = react w /\ threeManagerRef w1 = threeManagerRef w
                /\ heap w1 = heap w /\ window w1 = window w).
  { subst w1. unfold setData_buildings. rewrite Hmap. repeat split. }
  destruct Hw1 as (Hmap1 & Hst1 & Hre1 & Hm1 & Hheap1 & Hwin1).
  assert (Hrun : updateSelectedBuildingProps updates w
                 = (Normal tt,
                    match p_height updates with
                    | Some targetH => updateHeight id targetH w1
                    | None =>
                        match mesh_of id w1, p_color updates with
                        | Some mesh, Some c =>
                            if bool_decide (c = "") then w1
                            else write_mesh mesh (with_material_color c) w1
                        | _, _ => w1
                        end
                    end)).
  { unfold updateSelectedBuildingProps. run_handler.
    rewrite Hmap, Hsel, Hsrc, Hfs, Hidx, Hfs'. fold cur'. fold w1.
    destruct (p_height updates) as [h|]; [reflexivity|].
    unfold mesh_of.
    destruct (threeManagerRef w1) as [mg|]; [|reflexivity].
    cbn [mbind option_bind].
    destruct (meshes mg !! id) as [mesh|]; [|reflexivity].
    destruct (p_color updates) as [c|]; [|reflexivity].
    destruct (bool_decide (c = "")); reflexivity. }
  assert (Hstore : forall w2, same_store w1 w2 ->
            stored_buildings w2 = <[idx := f']> fs
            /\ USER_BUILDINGS_KEY (localStorage w2) = Some cur'
            /\ react w2 = react w
            /\ getSelectedBuildingProps w2
               = Normal (Some (merge_properties old updates))).
  { intros w2 (Hs1 & Hs2 & Hs3).
    unfold stored_buildings, getSelectedBuildingProps, selected in *.
    rewrite Hs1, Hs2, Hs3, Hmap1, Hst1, Hre1, Hsel.
    cbn [user_buildings mbind option_bind features default USER_BUILDINGS_KEY cur'].
    repeat split.
    rewrite find_findIndex, Hidx'. cbn [mbind option_bind].
    rewrite list_lookup_insert_eq by (eapply lookup_lt_Some; exact Hf).
    reflexivity. }
  unfold exec, completes. rewrite Hrun. cbn [fst snd].
  split; [reflexivity|].
  split.
  { unfold getSelectedBuildingProps. rewrite Hmap, Hsel, Hsrc.
    destruct (features cur) as [fs0|] eqn:Hcur; [|discriminate].
    injection Hfs as ->. rewrite Hfind. cbn. rewrite Hold. reflexivity. }
  assert (Hsame : same_store w1
            match p_height updates with
            | Some targetH => updateHeight id targetH w1
            | None =>
                match mesh_of id w1, p_color updates with
                | Some mesh, Some c =>
                    if bool_decide (c = "") then w1
                    else write_mesh mesh (with_material_color c) w1
                | _, _ => w1
                end
            end).
  { destruct (p_height updates) as [h|].
    - unfold updateHeight, same_store.
      destruct (threeManagerRef w1) as [mg|]; [|repeat split].
      destruct (meshes mg !! id ≫= _) as [[r0 mesh]|]; repeat split.
    - destruct (mesh_of id w1), (p_color updates) as [c|];
        try apply same_store_refl.
      destruct (bool_decide (c = "")); [apply same_store_refl|].
      repeat split. }
  destruct (Hstore _ Hsame) as (Hsb & Hkey & Hreact & Hget).
  split; [exact Hget|]. split; [exact Hsb|].
  split; [rewrite Hkey, Hsb; reflexivity|]. split; [exact Hreact|].
  split.
  - intros [h Hh] r. rewrite Hh. rewrite updateHeight_colors, Hheap1.
    reflexivity.
  - intros c r mesh Hh Hc Hne Hr Hmesh. rewrite Hh, Hc.
    unfold mesh_of in *. rewrite Hm1, Hr.
    rewrite bool_decide_eq_false_2 by exact Hne.
    unfold write_mesh. cbn [heap with_heap]. rewrite Hheap1.
    rewrite list_lookup_alter_eq, Hmesh. reflexivity.
Qed.

(** ** Adding and deleting again *)

Lemma findIndex_app_fresh id (fs : list Feature) (f : Feature) :
  findIndex id fs = None -> has_id id f = true ->
  findIndex id (fs ++ [f]) = Some (length fs).
Proof.
  intros Hnone Hf. induction fs as [|g fs IH]; cbn [app findIndex length].
  - rewrite Hf. reflexivity.
  - cbn [findIndex] in Hnone. destruct (has_id id g); [discriminate|].
    destruct (findIndex id fs); [discriminate|].
    rewrite IH by reflexivity. reflexivity.
Qed.

Lemma delete_last {A} (l : list A) (x : A) : delete (length l) (l ++ [x]) = l.
Proof.
  induction l as [|y l IH]; [reflexivity|].
  change (y :: delete (length l) (l ++ [x]) = y :: l). rewrite IH. reflexivity.
Qed.

Lemma filter_fresh (sc : list nat) (r : nat) :
  (forall x, x ∈ sc -> (x < r)%nat) ->
  filter (fun x => x <> r) (filter (fun x => x <> r) sc ++ [r]) = sc.
Proof.
  intros Hlt.
  assert (H : filter (fun x => x <> r) sc = sc).
  { induction sc as [|x sc IH]; [reflexivity|].
    rewrite filter_cons_True.
    - rewrite IH; [reflexivity|]. intros y Hy. apply Hlt. right. exact Hy.
    - specialize (Hlt x ltac:(left)). lia. }
  rewrite H, filter_app, H. rewrite filter_cons_False by (intros Hne; apply Hne; reflexivity).
  rewrite filter_nil, app_nil_r. reflexivity.
Qed.


(** ** Rotation rebuilds the mesh *)

Lemma rectanglePolygonAround_defined host lng lat wd dp rot :
  Forall defined (rectanglePolygonAround host lng lat wd dp rot).
Proof.
  unfold rectanglePolygonAround. cbn [map app lookup list_lookup default].
  repeat constructor; discriminate.
Qed.

Lemma register_mesh_of_ne id id' mesh w :
  id' <> id -> mesh_of id' (register id mesh w) = mesh_of id' w.
Proof.
  intros Hne. unfold register, mesh_of.
  destruct (threeManagerRef w) as [manager|] eqn:Hm; [|rewrite Hm; reflexivity].
  cbn. apply lookup_insert_ne. congruence.
Qed.

Lemma register_scene id mesh w manager :
  threeManagerRef w = Some manager ->
  scene_children (register id mesh w)
  = default [] (scene_add (length (heap w)) (scene manager)).
Proof. intros Hm. unfold register, scene_children. rewrite Hm. reflexivity. Qed.


(** ** Whole-degree rotations, trees at the centre, rendering *)

(** X20: for a whole number of degrees stored (0 when the feature has
    no rotation) and a whole delta, the rotation that
    [rotateSelectedBuilding] stores is a whole number [r] with
    [-360 < r < 360] that differs from the sum by a multiple of 360 and has
    the sign of the sum: it lies in [0, 360) exactly when the sum is not
    negative (or is a multiple of 360). *)
Theorem rotation_stays_within_one_turn
    (host : Host) (poly : list Position) (rotation : option Z) (deltaDeg : Z)
    (buildingWidth buildingDepth : num) :
  Forall defined poly ->
  let total := default 0 rotation + deltaDeg in
  exists r,
    snd <$> rotated_footprint host poly (nz <$> rotation) (nz deltaDeg)
              buildingWidth buildingDepth
    = Some (nz r)
    /\ -360 < r < 360
    /\ (exists k, total = 360 * k + r)
    /\ (0 <= total -> 0 <= r)
    /\ (total <= 0 -> r <= 0).
Proof.
  intros Hall total. exists (Z.rem total 360).
  split.
  - subst total. destruct rotation as [z|]; cbn [fmap option_fmap option_map default].
    + apply rotated_footprint_rotation. exact Hall.
    + rewrite <- (rotated_footprint_rotation host poly 0 deltaDeg
                    buildingWidth buildingDepth Hall).
      reflexivity.
  - pose proof (Z.rem_bound_abs total 360 ltac:(lia)) as Habs.
    pose proof (Z.quot_rem' total 360) as Hqr.
    split; [lia|]. split; [exists (Z.quot total 360); lia|].
    split; intros Hsign.
    + apply Z.rem_nonneg; lia.
    + apply Z.rem_nonpos; lia.
Qed.

(** X23: "Add at center" in tree mode, with the map and the trees
    source present, appends a point feature at the centre that carries
    the next random id and the tree size of the page; the collection is
    written to storage and the tree count is the new length; the three
    layer and the buildings are untouched. *)
Theorem addAtCenter_places_tree
    (host : Host) (w : World) (m : MapObject) (cur : FeatureCollection)
    (lng lat : num) :
  map_current w = Some m ->
  user_trees m = Some cur ->
  placingType (react w) = PlaceTree ->
  let w' := exec (addAtCenter host lng lat) w in
  let tree :=
    {| geometry := Point (LngLat lng lat);
       properties :=
         Some {| p_height := None; p_base := None; p_color := None;
                 p_id := Some (random_ids (window w) (random_drawn (window w)));
                 p_rotation := None; p_content := None;
                 p_size := Some (treeSize (react w)) |} |} in
  completes (addAtCenter host lng lat) w = true
  /\ stored_trees w' = stored_trees w ++ [tree]
  /\ USER_TREES_KEY (localStorage w') = Some {| features := Some (stored_trees w') |}
  /\ treesCount (react w') = S (length (stored_trees w))
  /\ random_drawn (window w') = S (random_drawn (window w))
  /\ same_layer w w'
  /\ same_buildings w w'.
Proof.
  intros Hmap Hsrc Hplace. cbv zeta.
  assert (Hst : stored_trees w = default [] (features cur)).
  { unfold stored_trees. rewrite Hmap. cbn. rewrite Hsrc. reflexivity. }
  set (tree := {| geometry := Point (LngLat lng lat); properties := Some _ |}).
  set (newData := {| features := Some (default [] (features cur) ++ [tree]) |}).
  assert (Hrun : addAtCenter host lng lat w
                 = (Normal tt,
                    setTreesCount (length (default [] (features cur) ++ [tree]))
                      (saveToStorage_trees newData
                         (setData_trees newData (exec cryptoRandomId w))))).
  { unfold addAtCenter, appendTreeFeature, exec.
    run_handler. rewrite Hmap, Hplace.
    cbn [map_current with_window fst snd]. rewrite Hmap, Hsrc. reflexivity. }
  unfold exec, completes. rewrite Hrun. cbn [fst snd].
  unfold stored_trees at 1 2, same_layer, same_buildings, setData_trees.
  cbn [exec cryptoRandomId snd map_current with_window]. rewrite Hmap.
  cbn [map_current with_window with_react with_storage with_map react
         localStorage mbind option_bind user_trees user_buildings features
         default window heap threeManagerRef treesCount newData
         USER_TREES_KEY USER_BUILDINGS_KEY buildingsCount random_drawn
         animationFrames setTreesCount saveToStorage_trees Datatypes.id].
  rewrite ?Hmap, ?Hst. cbn [mbind option_bind user_buildings].
  repeat split.
  - rewrite Hsrc. reflexivity.
  - rewrite length_app. cbn [length]. lia.
Qed.

Lemma blink_all_lookup host t (rs : list (string * nat)) (h : list Mesh)
    (r : nat) (e : num) :
  with_emissiveIntensity e
    <$> foldr (fun '(_, r) h => alter (blink host t) r h) h rs !! r
  = with_emissiveIntensity e <$> h !! r.
Proof.
  induction rs as [|[i r0] rs IH]; [reflexivity|]. cbn [foldr].
  destruct (decide (r0 = r)) as [->|Hne].
  - rewrite list_lookup_alter_eq, <- IH.
    destruct (foldr _ h rs !! r); reflexivity.
  - rewrite list_lookup_alter_ne by exact Hne. exact IH.
Qed.

Lemma blink_all_other host t (rs : list (string * nat)) (h : list Mesh)
    (r : nat) :
  (forall i, (i, r) ∉ rs) ->
  foldr (fun '(_, r) h => alter (blink host t) r h) h rs !! r = h !! r.
Proof.
  induction rs as [|[i r0] rs IH]; intros Hnot; [reflexivity|]. cbn [foldr].
  rewrite list_lookup_alter_ne.
  - apply IH. intros j Hj. apply (Hnot j). right. exact Hj.
  - intros ->. apply (Hnot i). left.
Qed.

(** X24: the render callback only blinks: storage, React state, the
    stored features, timers and animation queue, the id-to-mesh map and
    the scene are unchanged; mesh objects are neither added nor removed
    and differ from before at most in their emissive intensity; a mesh
    object that is not registered under any id is not touched at all. *)
Theorem render_only_blinks
    (host : Host) (matrix : list num) (t : num) (w : World) :
  let w' := render host matrix t w in
  localStorage w' = localStorage w
  /\ react w' = react w
  /\ window w' = window w
  /\ stored_buildings w' = stored_buildings w
  /\ stored_trees w' = stored_trees w
  /\ (forall id, mesh_of id w' = mesh_of id w)
  /\ scene_children w' = scene_children w
  /\ length (heap w') = length (heap w)
  /\ (forall r e,
        with_emissiveIntensity e <$> heap w' !! r
        = with_emissiveIntensity e <$> heap w !! r)
  /\ (forall r, (forall id, mesh_of id w <> Some r) -> heap w' !! r = heap w !! r).
Proof.
  cbv zeta. unfold render.
  destruct (threeManagerRef w) as [manager|] eqn:Hm; [|repeat split].
  destruct (scene manager) as [sc|] eqn:Hsc; [|repeat split].
  destruct (camera manager) as [cam|]; [|repeat split].
  destruct (renderer manager && clock manager); [|repeat split].
  unfold triggerRepaint, stored_buildings, stored_trees, mesh_of, scene_children.
  cbn [map_current with_heap with_manager].
  destruct (map_current w) as [m|] eqn:Hmap;
    cbn [localStorage react window heap threeManagerRef with_heap with_manager
           with_map map_current mbind option_bind user_buildings user_trees
           meshes scene];
    rewrite ?Hm, ?Hmap;
    cbn [mbind option_bind user_buildings user_trees meshes scene];
    rewrite ?Hsc.
  all: repeat split.
  all: try apply blink_all_length.
  all: try (intros r e; apply blink_all_lookup).
  all: intros r Hnot; apply blink_all_other; intros i Hin;
    apply elem_of_map_to_list in Hin; apply (Hnot i); exact Hin.
Qed.

(** ** The further properties on the concrete pages *)

Lemma buildable_building id h : buildable (building id h).
Proof.
  eexists. split; [reflexivity|]. apply rectanglePolygonAround_defined.
Qed.

(** X10 (witness): the page with building [a] selected. *)
Lemma deleteSelected_removes_selected_building_witness :
  let w' := deleteSelected page_with_selected_building in
  stored_buildings page_with_selected_building = [building "a" (nz 10)]
  /\ mesh_of "a" page_with_selected_building = Some 0%nat
  /\ stored_buildings w' = []
  /\ buildingsCount (react w') = 0%nat
  /\ selectedId (react w') = None
  /\ mesh_of "a" w' = None
  /\ (0%nat ∉ scene_children w').
Proof.
  intros w'.
  destruct (deleteSelected_removes_selected_building
              page_with_selected_building "a" 0)
    as (Hs & _ & _ & _ & Hcount & Hsel & Hmesh & Hscene & _).
  - vm_compute. reflexivity.
  - vm_compute. reflexivity.
  - apply consistent_setSelectedId, consistent_loaded_page.
  - split; [vm_compute; reflexivity|]. split; [vm_compute; reflexivity|].
    split; [exact Hs|]. split; [exact Hcount|]. split; [exact Hsel|].
    split; [exact Hmesh|]. apply Hscene. vm_compute. reflexivity.
Defined.

(** X11 (witness): the page with building [a] and the selected tree [t]. *)
Lemma deleteSelected_removes_selected_tree_witness :
  let w' := deleteSelected page_with_selected_tree in
  stored_trees page_with_selected_tree = [tree_feature "t"]
  /\ stored_trees w' = []
  /\ treesCount (react w') = 0%nat
  /\ selectedId (react w') = None
  /\ threeManagerRef w' = threeManagerRef page_with_selected_tree
  /\ heap w' = heap page_with_selected_tree.
Proof.
  intros w'.
  destruct (deleteSelected_removes_selected_tree page_with_selected_tree "t" 0)
    as (Hs & _ & _ & Hcount & Hsel & _ & _ & _ & Hm & Hheap).
  - vm_compute. reflexivity.
  - vm_compute. reflexivity.
  - vm_compute. reflexivity.
  - split; [vm_compute; reflexivity|]. split; [exact Hs|].
    split; [exact Hcount|]. split; [exact Hsel|]. split; [exact Hm|exact Hheap].
Defined.

(** X12 (witness): the page with building [a], where [b] is selected. *)
Lemma deleteSelected_without_match_changes_nothing_witness :
  selected (setSelectedId (Some "b") (loaded_page [building "a" (nz 10)]))
  = Some "b"
  /\ deleteSelected (setSelectedId (Some "b") (loaded_page [building "a" (nz 10)]))
     = setSelectedId (Some "b") (loaded_page [building "a" (nz 10)]).
Proof.
  split; [vm_compute; reflexivity|].
  apply (deleteSelected_without_match_changes_nothing
           (setSelectedId (Some "b") (loaded_page [building "a" (nz 10)]))).
  intros id Hid. vm_compute in Hid. injection Hid as <-.
  split; vm_compute; reflexivity.
Defined.


(** X16 (witness): a file that does not parse, on the page with building [a]. *)
Lemma importGeoJSON_failure_only_sets_error_witness :
  exec (importGeoJSON demo_host None UserBuildings) page_with_selected_building
  = setError (Some "Invalid GeoJSON") page_with_selected_building.
Proof.
  rewrite (importGeoJSON_failure_only_sets_error demo_host
             page_with_selected_building None UserBuildings);
    [|left; reflexivity].
  vm_compute. reflexivity.
Defined.


(** X18 (witness): the height of building [a] updated from 10 to 30. *)
Lemma updateSelectedBuildingProps_merges_properties_witness :
  let w' := exec (updateSelectedBuildingProps
                    (with_height (Some (nz 30)) no_properties))
              page_with_selected_building in
  getSelectedBuildingProps page_with_selected_building
  = Normal (properties (building "a" (nz 10)))
  /\ getSelectedBuildingProps w' = Normal (properties (building "a" (nz 30)))
  /\ stored_buildings w' = [building "a" (nz 30)].
Proof.
  cbv zeta.
  destruct (updateSelectedBuildingProps_merges_properties
              page_with_selected_building "a" 0
              (with_height (Some (nz 30)) no_properties))
    as (f & old & Hf & Hold & _ & Hget & Hget' & Hs & _).
  - vm_compute. reflexivity.
  - vm_compute. reflexivity.
  - reflexivity.
  - assert (Hfa : f = building "a" (nz 10)).
    { vm_compute in Hf. injection Hf as <-. vm_compute. reflexivity. }
    subst f. injection Hold as <-.
    split; [exact Hget|]. split; [exact Hget'|].
    rewrite Hs. vm_compute. reflexivity.
Defined.


(** X20 (witness): from 350 degrees, 15 more give 5. *)
Lemma rotation_stays_within_one_turn_witness :
  snd <$> rotated_footprint demo_host (stored_ring (building "a" (nz 10)))
            (Some (nz 350)) (nz 15) (nz 12) (nz 12)
  = Some (nz 5).
Proof.
  destruct (rotation_stays_within_one_turn demo_host
              (stored_ring (building "a" (nz 10))) (Some 350) 15 (nz 12) (nz 12))
    as (r & Hr & Hbound & (k & Hk) & Hpos & _).
  - apply rectanglePolygonAround_defined.
  - change (default 0 (Some 350) + 15) with 365 in Hk, Hpos.
    assert (r = 5) as -> by lia. exact Hr.
Defined.



(** X23 (witness): a tree added at the centre of the page with building [a]. *)
Lemma addAtCenter_places_tree_witness :
  let w := setPlacingType PlaceTree (loaded_page [building "a" (nz 10)]) in
  let w' := exec (addAtCenter demo_host (fst london) (snd london)) w in
  stored_trees w = []
  /\ stored_trees w' = [tree_feature (ids 0)]
  /\ treesCount (react w') = 1%nat
  /\ same_layer w w'
  /\ same_buildings w w'.
Proof.
  cbv zeta.
  destruct (map_current (setPlacingType PlaceTree
                           (loaded_page [building "a" (nz 10)])))
    as [m|] eqn:Hmap; [|vm_compute in Hmap; discriminate].
  destruct (user_trees m) as [cur|] eqn:Hsrc;
    [|injection Hmap as <-; vm_compute in Hsrc; discriminate].
  destruct (addAtCenter_places_tree demo_host
              (setPlacingType PlaceTree (loaded_page [building "a" (nz 10)]))
              m cur (fst london) (snd london) Hmap Hsrc)
    as (_ & Hs & _ & Hcount & _ & Hlayer & Hb).
  - reflexivity.
  - split; [vm_compute; reflexivity|].
    split; [rewrite Hs; vm_compute; reflexivity|].
    split; [rewrite Hcount; vm_compute; reflexivity|].
    split; [exact Hlayer|exact Hb].
Defined.

(** ** Storage in step with the sources *)

Lemma in_step_same_store w w' : same_store w w' -> in_step w -> in_step w'.
Proof.
  intros (H1 & H2 & H3) H m Hm. rewrite H1 in Hm. rewrite H2, H3.
  apply H, Hm.
Qed.

Lemma in_step_write_buildings (nd : FeatureCollection) (n : nat) w :
  in_step w -> n = length (default [] (features nd)) ->
  in_step (setBuildingsCount n
             (saveToStorage_buildings nd (setData_buildings nd w))).
Proof.
  intros H -> m Hm. unfold setData_buildings in *.
  destruct (map_current w) as [m0|] eqn:Hmap; cbn in Hm; rewrite ?Hmap in Hm;
    [|congruence].
  injection Hm as <-. cbn. rewrite ?Hmap. cbn.
  destruct (H m0 Hmap) as [_ Ht].
  split; [|exact Ht]. intros c [= <-]. split; reflexivity.
Qed.

Lemma in_step_write_trees (nd : FeatureCollection) (n : nat) w :
  in_step w -> n = length (default [] (features nd)) ->
  in_step (setTreesCount n (saveToStorage_trees nd (setData_trees nd w))).
Proof.
  intros H -> m Hm. unfold setData_trees in *.
  destruct (map_current w) as [m0|] eqn:Hmap; cbn in Hm; rewrite ?Hmap in Hm;
    [|congruence].
  injection Hm as <-. cbn. rewrite ?Hmap. cbn.
  destruct (H m0 Hmap) as [Hb _].
  split; [exact Hb|]. intros c [= <-]. split; reflexivity.
Qed.

(** A write that keeps the number of features needs no new count. *)
Lemma in_step_rewrite_buildings (nd cur : FeatureCollection) m w :
  in_step w ->
  map_current w = Some m ->
  user_buildings m = Some cur ->
  length (default [] (features nd)) = length (default [] (features cur)) ->
  in_step (saveToStorage_buildings nd (setData_buildings nd w)).
Proof.
  intros H Hmap Hcur Hlen m' Hm. unfold setData_buildings in *.
  rewrite Hmap in *. cbn in Hm. injection Hm as <-. cbn.
  destruct (H m Hmap) as [Hb Ht].
  split; [|exact Ht]. intros c [= <-]. split; [reflexivity|].
  destruct (Hb cur Hcur) as [_ ->]. rewrite Hlen. reflexivity.
Qed.

Lemma in_step_setError e w : in_step w -> in_step (setError e w).
Proof. intros H m Hm. apply (H m Hm). Qed.

Lemma in_step_setSelectedId i w : in_step w -> in_step (setSelectedId i w).
Proof. intros H m Hm. apply (H m Hm). Qed.

Lemma in_step_setTimeout t w : in_step w -> in_step (setTimeout t w).
Proof. intros H m Hm. apply (H m Hm). Qed.

Lemma in_step_write_mesh r f w : in_step w -> in_step (write_mesh r f w).
Proof. intros H m Hm. apply (H m Hm). Qed.

Lemma in_step_removeById id w : in_step w -> in_step (removeById id w).
Proof. apply in_step_same_store, removeById_same_store. Qed.

Lemma updateHeight_same_store id h w : same_store w (updateHeight id h w).
Proof.
  unfold updateHeight, same_store.
  destruct (threeManagerRef w) as [mg|]; [|repeat split].
  destruct (meshes mg !! id ≫= _) as [[r0 mesh]|]; repeat split.
Qed.

Lemma in_step_updateHeight id h w : in_step w -> in_step (updateHeight id h w).
Proof. apply in_step_same_store, updateHeight_same_store. Qed.

Lemma in_step_cryptoRandomId w : in_step w -> in_step (exec cryptoRandomId w).
Proof. intros H m Hm. apply (H m Hm). Qed.

Lemma in_step_addMeshForFeature host f w :
  in_step w -> in_step (exec (addMeshForFeature host f) w).
Proof. apply in_step_same_store, addMeshForFeature_same_store. Qed.

Lemma in_step_addMeshes host fs w :
  in_step w -> in_step (exec (addMeshes host fs) w).
Proof. apply in_step_same_store, addMeshes_same_store. Qed.

Lemma lands_weaken {A} (P Q : World -> Prop) (m : M A) :
  (forall w, P w -> Q w) -> lands_in_step Q m -> lands_in_step P m.
Proof. intros HPQ H w Hw. apply H, HPQ, Hw. Qed.

Lemma lands_ret {A} (P : World -> Prop) (a : A) :
  (forall w, P w -> in_step w) -> lands_in_step P (mret a).
Proof. intros H w Hw. apply H, Hw. Qed.

Lemma lands_throw {A} (P : World -> Prop) :
  (forall w, P w -> in_step w) -> lands_in_step P (@throw A).
Proof. intros H w Hw. apply H, Hw. Qed.

Lemma lands_modify (P : World -> Prop) f :
  (forall w, P w -> in_step (f w)) -> lands_in_step P (modify f).
Proof. intros H w Hw. apply H, Hw. Qed.

Lemma lands_bind_modify {B} (P : World -> Prop) f (k : unit -> M B) :
  lands_in_step (fun w' => exists w, P w /\ w' = f w) (k tt) ->
  lands_in_step P (modify f ≫= k).
Proof. intros H w Hw. apply (H (f w)). eauto. Qed.

Lemma lands_bind_gets {A B} (P : World -> Prop) (g : World -> A)
    (k : A -> M B) :
  (forall a, lands_in_step (fun w => P w /\ a = g w) (k a)) ->
  lands_in_step P (gets g ≫= k).
Proof. intros H w Hw. apply (H (g w) w). auto. Qed.

(** A step that keeps the state in step, whether it completes or
    throws. *)
Lemma lands_bind_kept {A B} (P : World -> Prop) (m : M A) (k : A -> M B) :
  (forall w, P w -> in_step w) ->
  (forall w, in_step w -> in_step (exec m w)) ->
  (forall a, lands_in_step in_step (k a)) ->
  lands_in_step P (m ≫= k).
Proof.
  intros HP Hm Hk w Hw. specialize (Hm w (HP w Hw)).
  unfold exec, mbind, M_bind in *.
  destruct (m w) as [[a|] w1]; cbn [snd] in *; [apply Hk, Hm|exact Hm].
Qed.

Lemma lands_try_catch {A} (P : World -> Prop) (body handler : M A) :
  lands_in_step P body ->
  (forall w, in_step w -> in_step (exec handler w)) ->
  lands_in_step P (try_catch body handler).
Proof.
  intros Hb Hh w Hw. specialize (Hb w Hw). unfold exec, try_catch in *.
  destruct (body w) as [[a|] w1]; cbn [snd] in *; [exact Hb|apply Hh, Hb].
Qed.

Lemma lands_bind_assoc {A B C} (P : World -> Prop) (m : M A) (f : A -> M B)
    (g : B -> M C) :
  lands_in_step P (m ≫= fun a => f a ≫= g) ->
  lands_in_step P ((m ≫= f) ≫= g).
Proof.
  intros H w Hw. specialize (H w Hw). unfold exec, mbind, M_bind in *.
  destruct (m w) as [[a|] w1]; exact H.
Qed.

Create HintDb in_step_db.

#[local] Hint Resolve in_step_write_buildings in_step_write_trees
  in_step_setError in_step_setSelectedId in_step_setTimeout in_step_write_mesh
  in_step_removeById in_step_updateHeight in_step_cryptoRandomId
  in_step_addMeshForFeature in_step_addMeshes : in_step_db.

(** What is known at a leaf, unpacked. *)
Ltac unpack_state :=
  repeat match goal with
         | H : exists _, _ |- _ => destruct H as [? H]
         | H : _ /\ _ |- _ => destruct H as [? ?]
         end; subst.

Ltac in_step_leaf :=
  intros; unpack_state;
  repeat first [ apply in_step_removeById | apply in_step_updateHeight
               | apply in_step_write_mesh | apply in_step_setTimeout
               | apply in_step_setError | apply in_step_setSelectedId ];
  first
    [ assumption
    | solve [auto 6 with in_step_db]
    | solve [eapply in_step_rewrite_buildings; eauto;
             unfold set_height_at, set_properties_at;
             repeat match goal with
                    | H : features _ = Some _ |- _ => rewrite H
                    end;
             cbn; rewrite ?length_insert, ?length_alter; reflexivity ] ].

Ltac kept_leaf :=
  intros ? ?; unfold exec, modify, mret, M_ret; cbn [snd];
  auto with in_step_db.

Ltac lands_step :=
  lazymatch goal with
  | |- lands_in_step _ (mbind _ (mbind _ _)) => apply lands_bind_assoc
  | |- lands_in_step _ (mbind _ (modify _)) => apply lands_bind_modify
  | |- lands_in_step _ (mbind _ (gets _)) => apply lands_bind_gets; intros ?
  | |- lands_in_step _ (mbind _ cryptoRandomId) =>
      apply lands_bind_kept; [in_step_leaf|apply in_step_cryptoRandomId|intros ?]
  | |- lands_in_step _ (mbind _ (addMeshForFeature _ _)) =>
      apply lands_bind_kept;
        [in_step_leaf|apply in_step_addMeshForFeature|intros ?]
  | |- lands_in_step _ (mbind _ (mret _)) =>
      apply lands_bind_kept; [in_step_leaf|intros ? ?; assumption|intros ?]
  | |- lands_in_step _ (mbind _ (try_catch _ _)) =>
      apply lands_bind_kept;
        [in_step_leaf
        |intros ? ?; apply lands_try_catch; [|kept_leaf|eassumption]
        |intros ?]
  | |- lands_in_step _ (mbind _ (match ?x with _ => _ end)) =>
      destruct x eqn:?
  | |- lands_in_step _ (mret _) => apply lands_ret; in_step_leaf
  | |- lands_in_step _ throw => apply lands_throw; in_step_leaf
  | |- lands_in_step _ (modify _) => apply lands_modify; in_step_leaf
  | |- lands_in_step _ (addMeshForFeature _ _) =>
      intros ? ?; apply in_step_addMeshForFeature; in_step_leaf
  | |- lands_in_step _ (addMeshes _ _) =>
      intros ? ?; apply in_step_addMeshes; in_step_leaf
  | |- lands_in_step _ (try_catch _ _) => apply lands_try_catch; [|kept_leaf]
  | |- lands_in_step _ (match ?x with _ => _ end) => destruct x eqn:?
  | |- lands_in_step _ (if ?x then _ else _) => destruct x eqn:?
  | |- lands_in_step _ (let _ := _ in _) => cbv zeta
  end.

Lemma lands_appendBuildingFeature host feat animateHeight :
  lands_in_step in_step (appendBuildingFeature host feat animateHeight).
Proof. unfold appendBuildingFeature. repeat lands_step. Qed.

Lemma lands_appendTreeFeature feat : lands_in_step in_step (appendTreeFeature feat).
Proof. unfold appendTreeFeature. repeat lands_step. Qed.

Lemma lands_addAtCenter host lng lat :
  lands_in_step in_step (addAtCenter host lng lat).
Proof.
  unfold addAtCenter. repeat lands_step.
  all: try (intros ? ?; first [apply lands_appendBuildingFeature
                              |apply lands_appendTreeFeature]; in_step_leaf).
Qed.

Lemma lands_importGeoJSON host parsed sourceId :
  lands_in_step in_step (importGeoJSON host parsed sourceId).
Proof. unfold importGeoJSON. repeat lands_step. Qed.

Lemma lands_rotateSelectedBuilding host deltaDeg :
  lands_in_step in_step (rotateSelectedBuilding host deltaDeg).
Proof. unfold rotateSelectedBuilding. repeat lands_step. Qed.

Lemma lands_updateSelectedBuildingProps updates :
  lands_in_step in_step (updateSelectedBuildingProps updates).
Proof. unfold updateSelectedBuildingProps. repeat lands_step. Qed.

Lemma lands_height_timeout t : lands_in_step in_step (height_timeout t).
Proof.
  unfold height_timeout. repeat lands_step.
  apply lands_modify. intros w Hw. unpack_state.
  match goal with
  | H : map_current ?a ≫= user_buildings = Some _ |- _ =>
      destruct (map_current a) as [m|] eqn:Hmap; [|discriminate H];
      cbn [mbind option_bind] in H
  end.
  eapply in_step_rewrite_buildings; eauto.
  - apply in_step_updateHeight. assumption.
  - unfold set_height_at.
    match goal with H : features _ = Some _ |- _ => rewrite H end.
    cbn. rewrite length_alter. reflexivity.
Qed.

Lemma in_step_deleteSelected w : in_step w -> in_step (deleteSelected w).
Proof.
  intros H. unfold deleteSelected, deleteSelected_tree.
  repeat case_match; auto 10 with in_step_db.
Qed.

Lemma in_step_clear_fold (l : list (string * nat)) w :
  in_step w -> in_step (foldr (fun '(id, _) w => removeById id w) w l).
Proof.
  intros H. induction l as [|[id r] l IH]; simpl; [exact H|].
  apply in_step_removeById. exact IH.
Qed.

Lemma in_step_clearBuildings w : in_step w -> in_step (clearBuildings w).
Proof.
  intros H. unfold clearBuildings.
  repeat case_match; auto using in_step_clear_fold with in_step_db.
Qed.

Lemma in_step_clearTrees w : in_step w -> in_step (clearTrees w).
Proof.
  intros H. unfold clearTrees. repeat case_match; auto with in_step_db.
Qed.

Lemma lands_fire_timeout : lands_in_step in_step fire_timeout.
Proof.
  intros w H. unfold exec, fire_timeout.
  destruct (timeouts (window w)) as [|t rest]; [exact H|].
  apply (lands_height_timeout t). intros m Hm. apply (H m Hm).
Qed.

Lemma in_step_onLoad host layer_added w :
  in_step (exec (onLoad host layer_added) w).
Proof.
  unfold onLoad. run_handler.
  destruct (map_current w) as [m|] eqn:Hmap.
  2: { intros m Hm. cbn in Hm. congruence. }
  match goal with
  | |- context [addMeshes host ?fs ?w1] =>
      pose proof (addMeshes_same_store host fs w1) as (Hs1 & Hs2 & Hs3);
      pose proof (addMeshes_completes host fs w1) as Hdone;
      unfold exec in Hs1, Hs2, Hs3;
      destruct (addMeshes host fs w1) as [[[]|] w2]
  end; cbn [fst snd] in *; [|discriminate Hdone].
  intros m' Hm'. cbn in Hm'. rewrite Hs1 in Hm'.
  unfold createThreeLayerManager in Hm'.
  assert (Hm2 : m' = {| user_buildings :=
                          Some (default empty_collection
                                  (USER_BUILDINGS_KEY (localStorage w)));
                        user_trees :=
                          Some (default empty_collection
                                  (USER_TREES_KEY (localStorage w)));
                        repaints := repaints m |}).
  { destruct layer_added; cbn in Hm'; congruence. }
  subst m'. cbn. rewrite Hs2.
  assert (Hst : localStorage
                  (createThreeLayerManager layer_added
                     (with_map
                        (Some {| user_buildings :=
                                   Some (default empty_collection
                                           (USER_BUILDINGS_KEY (localStorage w)));
                                 user_trees :=
                                   Some (default empty_collection
                                           (USER_TREES_KEY (localStorage w)));
                                 repaints := repaints m |}) w))
                = localStorage w).
  { unfold createThreeLayerManager. destruct layer_added; reflexivity. }
  rewrite Hst.
  split; intros c [= <-]; (split; [reflexivity|]).
  - destruct (USER_BUILDINGS_KEY (localStorage w)); reflexivity.
  - destruct (USER_TREES_KEY (localStorage w)); reflexivity.
Qed.


(** ** The first height update of a mesh *)

Lemma is_fin_eq (a : num) (q q' : Q) : is_fin a q -> (q == q')%Q -> is_fin a q'.
Proof. intros (x & -> & Hx) Hq. exists x. split; [reflexivity|]. rewrite Hx. exact Hq. Qed.

Lemma truthy_is_fin (a : num) (q : Q) :
  is_fin a q -> ~ (q == 0)%Q -> truthy a = true.
Proof.
  intros (x & -> & Hx) Hq. apply truthy_Fin, Qis0_false. rewrite Hx. exact Hq.
Qed.

(** The depth given to the extrusion of a height other than 0 is the
    height over the metre scale. *)
Lemma depth_of_height (p : MeterProp) :
  regular_meter p ->
  exists k, ~ (k == 0)%Q
    /\ forall h, ~ (h == 0)%Q ->
         is_fin (nor (nor (height_in_merc (Fin h) p) (Fin h)) (nz 1)) (h / k).
Proof.
  destruct p as [|[m| | |]|]; cbn [regular_meter]; intros Hreg;
    try contradiction.
  - exists 1%Q. split; [lra|]. intros h Hh. cbn [height_in_merc].
    assert (Hd : is_fin (ndiv (Fin h) (nz 1)) (h / 1)).
    { apply is_fin_ndiv; [apply is_fin_Fin|apply is_fin_nz|lra]. }
    assert (Hne : ~ (h / 1 == 0)%Q).
    { intros H. apply Hh. rewrite <- H. field. }
    rewrite !(nor_truthy (ndiv (Fin h) (nz 1)))
      by (eapply truthy_is_fin; eassumption).
    exact Hd.
  - exists m. split; [exact Hreg|]. intros h Hh. cbn [height_in_merc].
    assert (Hd : is_fin (ndiv (Fin h) (Fin m)) (h / m)).
    { apply is_fin_ndiv; [apply is_fin_Fin|apply is_fin_Fin|exact Hreg]. }
    assert (Hne : ~ (h / m == 0)%Q).
    { intros H. apply Hh. rewrite <- (Qmult_div_r h m Hreg). rewrite H. ring. }
    rewrite !(nor_truthy (ndiv (Fin h) (Fin m)))
      by (eapply truthy_is_fin; eassumption).
    exact Hd.
  - exists 1%Q. split; [lra|]. intros h Hh. cbn [height_in_merc].
    change (nor NaN (Fin h)) with (Fin h).
    rewrite nor_truthy by (apply truthy_Fin, Qis0_false, Hh).
    exists h. split; [reflexivity|]. field.
Qed.



